(** * project-indexer: chunking, caching, indexing and retrieval

  A shallow embedding of the Go sources of iasik/project-indexer
  (packages [chunker], [indexer], [vectordb] and [api]) together with the
  properties of its specification that can be settled on the code.

  Conventions.
  - A Go [string] / [[]byte] is a [string] of the standard library, read
    as its sequence of bytes; [len(s)] is [String.length s].
  - A Go [int] is a [Z] when it can be negative or is compared against
    user input, and a [nat] for line numbers and token counts, which the
    code only ever builds from lengths and positions.
  - A Go [map] is a [gmap]; the order in which [range] visits it is not
    fixed by the language, so every loop over a map takes the visiting
    order as an explicit list, constrained to be a permutation of the
    map's content.
  - Calls that leave the process (embedding provider, vector store,
    file system, clock) are arguments or fields of an explicit world. *)

From Stdlib Require Import ZArith List Ascii Permutation Lia Bool DecimalString.
From Stdlib Require String.
From stdpp Require Import base list strings gmap fin_maps sorting.

Local Open Scope Z_scope.

(** ** Byte strings *)

Module Bytes.

(** [[]byte(s)] as numbers in [0, 256). *)
Definition of_string (s : string) : list Z :=
  map (fun c => Z.of_N (N_of_ascii c)) (String.list_ascii_of_string s).

Definition hexdigit (d : Z) : ascii :=
  if d <? 10 then ascii_of_N (Z.to_N (48 + d)) else ascii_of_N (Z.to_N (87 + d)).

(** [fmt.Sprintf("%x", b)] for a byte slice: two lowercase digits a byte. *)
Fixpoint hex (bs : list Z) : string :=
  match bs with
  | [] => EmptyString
  | b :: bs' => String (hexdigit (b / 16)) (String (hexdigit (b mod 16)) (hex bs'))
  end.

Definition is_byte (b : Z) : Prop := 0 <= b < 256.

Definition is_lower_hex (c : ascii) : bool :=
  let n := Z.of_N (N_of_ascii c) in
  ((48 <=? n) && (n <=? 57)) || ((97 <=? n) && (n <=? 102)).

End Bytes.

(** ** SHA-256 (FIPS 180-4), the function behind [crypto/sha256.Sum256] *)

Module SHA256.

(** The low 32 bits of a non-negative number. *)
Definition w32 (x : Z) : Z := Z.land x (Z.ones 32).
Definition add32 (x y : Z) : Z := w32 (x + y).
Definition rotr (n x : Z) : Z := Z.lor (Z.shiftr x n) (w32 (Z.shiftl x (32 - n))).
Definition shr (n x : Z) : Z := Z.shiftr x n.

Definition Ch (x y z : Z) : Z := Z.lxor (Z.land x y) (Z.land (Z.lnot x) z).
Definition Maj (x y z : Z) : Z :=
  Z.lxor (Z.lxor (Z.land x y) (Z.land x z)) (Z.land y z).
Definition bsig0 (x : Z) : Z := Z.lxor (Z.lxor (rotr 2 x) (rotr 13 x)) (rotr 22 x).
Definition bsig1 (x : Z) : Z := Z.lxor (Z.lxor (rotr 6 x) (rotr 11 x)) (rotr 25 x).
Definition ssig0 (x : Z) : Z := Z.lxor (Z.lxor (rotr 7 x) (rotr 18 x)) (shr 3 x).
Definition ssig1 (x : Z) : Z := Z.lxor (Z.lxor (rotr 17 x) (rotr 19 x)) (shr 10 x).

(** The round constants and the initial hash value are the first 32 bits
    of the fractional parts of the cube roots of the first 64 primes and of
    the square roots of the first 8. *)
Definition is_prime (n : Z) : bool :=
  (1 <? n) &&
  forallb (fun d => negb (n mod Z.of_nat d =? 0)) (seq 2 (Z.to_nat (Z.sqrt n) - 1)).

Fixpoint primes_from (fuel : nat) (n : Z) (count : nat) : list Z :=
  match fuel, count with
  | O, _ | _, O => []
  | S fuel', S count' =>
      if is_prime n then n :: primes_from fuel' (n + 1) count'
      else primes_from fuel' (n + 1) count
  end.

Fixpoint cbrt_bits (bits : nat) (x r : Z) : Z :=
  match bits with
  | O => r
  | S b =>
      let c := r + 2 ^ Z.of_nat b in
      if c * c * c <=? x then cbrt_bits b x c else cbrt_bits b x r
  end.

Definition frac_cbrt (p : Z) : Z := w32 (cbrt_bits 40 (p * 2 ^ 96) 0).
Definition frac_sqrt (p : Z) : Z := w32 (Z.sqrt (p * 2 ^ 64)).

Definition K : list Z := Eval vm_compute in map frac_cbrt (primes_from 400 2 64).

Record state := mkState
  { ha : Z; hb : Z; hc : Z; hd : Z; he : Z; hf : Z; hg : Z; hh : Z }.

Definition H0 : state :=
  Eval vm_compute in
    match map frac_sqrt (primes_from 400 2 8) with
    | [a; b; c; d; e; f; g; h] => mkState a b c d e f g h
    | _ => mkState 0 0 0 0 0 0 0 0
    end.

(** Message padding: 0x80, zeros, and the bit length as 8 big-endian bytes. *)
Definition be_bytes (n : nat) (x : Z) : list Z :=
  map (fun i => (x / 2 ^ (8 * Z.of_nat i)) mod 256) (rev (seq 0 n)).

Definition pad (msg : list Z) : list Z :=
  let l := Z.of_nat (length msg) in
  let k := Z.to_nat ((55 - l) mod 64) in
  msg ++ [128] ++ repeat 0 k ++ be_bytes 8 (8 * l).

Fixpoint be_word (bs : list Z) (acc : Z) : Z :=
  match bs with
  | [] => acc
  | b :: bs' => be_word bs' (acc * 256 + b)
  end.

Fixpoint words (n : nat) (bs : list Z) : list Z :=
  match n with
  | O => []
  | S n' => be_word (take 4 bs) 0 :: words n' (drop 4 bs)
  end.

(** The message schedule, most recent word first. *)
Fixpoint schedule (n : nat) (w : list Z) : list Z :=
  match n with
  | O => w
  | S n' =>
      let x := add32 (add32 (ssig1 (nth 1 w 0)) (nth 6 w 0))
                     (add32 (ssig0 (nth 14 w 0)) (nth 15 w 0)) in
      schedule n' (x :: w)
  end.

Definition round (s : state) (kw : Z * Z) : state :=
  let '(k, w) := kw in
  let t1 := add32 (add32 (add32 (hh s) (bsig1 (he s))) (Ch (he s) (hf s) (hg s)))
                  (add32 k w) in
  let t2 := add32 (bsig0 (ha s)) (Maj (ha s) (hb s) (hc s)) in
  mkState (add32 t1 t2) (ha s) (hb s) (hc s) (add32 (hd s) t1) (he s) (hf s) (hg s).

Definition compress (s : state) (block : list Z) : state :=
  let w := rev (schedule 48 (rev (words 16 block))) in
  let r := fold_left round (combine K w) s in
  mkState (add32 (ha s) (ha r)) (add32 (hb s) (hb r)) (add32 (hc s) (hc r))
          (add32 (hd s) (hd r)) (add32 (he s) (he r)) (add32 (hf s) (hf r))
          (add32 (hg s) (hg r)) (add32 (hh s) (hh r)).

Fixpoint blocks (n : nat) (s : state) (bs : list Z) : state :=
  match n with
  | O => s
  | S n' => blocks n' (compress s (take 64 bs)) (drop 64 bs)
  end.

Definition digest (s : state) : list Z :=
  flat_map (be_bytes 4) [ha s; hb s; hc s; hd s; he s; hf s; hg s; hh s].

(** [sha256.Sum256(msg)]: 32 bytes. *)
Definition sum (msg : list Z) : list Z :=
  let p := pad msg in
  digest (blocks (length p / 64)%nat H0 p).

Definition sum_string (s : string) : list Z := sum (Bytes.of_string s).

End SHA256.

(** ** The functions of Go's [strings], [strconv] and [path/filepath] that
    the program calls *)

Module Strings.

Definition nl : ascii := "010"%char.

Definition len (s : string) : nat := String.length s.

(** [strings.Count(s, "\n")] *)
Fixpoint Count_nl (s : string) : nat :=
  match s with
  | EmptyString => 0%nat
  | String c s' => ((if Ascii.eqb c nl then 1 else 0) + Count_nl s')%nat
  end.

(** [strings.Split(s, "\n")]: never empty, one more element than newlines. *)
Fixpoint Split_nl (s : string) : list string :=
  match s with
  | EmptyString => [EmptyString]
  | String c s' =>
      if Ascii.eqb c nl then EmptyString :: Split_nl s'
      else match Split_nl s' with
           | [] => [String c EmptyString]
           | l :: ls => String c l :: ls
           end
  end.

(** [strings.Join(elems, sep)] *)
Fixpoint Join (elems : list string) (sep : string) : string :=
  match elems with
  | [] => EmptyString
  | x :: rest =>
      match rest with
      | [] => x
      | _ :: _ => x +:+ sep +:+ Join rest sep
      end
  end.

Definition HasPrefix (s p : string) : bool := String.prefix p s.

Definition HasSuffix (s p : string) : bool :=
  String.prefix (String.rev p) (String.rev s).

Fixpoint Contains (s sub : string) : bool :=
  String.prefix sub s ||
  match s with
  | EmptyString => false
  | String _ s' => Contains s' sub
  end.

Fixpoint TrimLeftSpace (s : string) : string :=
  match s with
  | EmptyString => EmptyString
  | String c s' => if Ascii.is_space c then TrimLeftSpace s' else s
  end.

(** [strings.TrimSpace] on the six ASCII white-space bytes
    (tab, newline, vertical tab, form feed, carriage return, space).  Go
    also strips the non-ASCII code points of [unicode.IsSpace]; lines that
    begin or end with one of those are outside this model. *)
Definition TrimSpace (s : string) : string :=
  String.rev (TrimLeftSpace (String.rev (TrimLeftSpace s))).

(** [strings.ReplaceAll(s, old, new)] for one-byte [old] and [new]. *)
Fixpoint ReplaceAll1 (s : string) (old new : ascii) : string :=
  match s with
  | EmptyString => EmptyString
  | String c s' => String (if Ascii.eqb c old then new else c) (ReplaceAll1 s' old new)
  end.

(** [strings.TrimSuffix(s, suffix)] *)
Definition TrimSuffix (s suffix : string) : string :=
  if HasSuffix s suffix
  then String.substring 0 (String.length s - String.length suffix) s
  else s.

Definition lower (c : ascii) : ascii :=
  let n := nat_of_ascii c in
  if (65 <=? n)%nat && (n <=? 90)%nat then ascii_of_nat (n + 32) else c.

(** [strings.ToLower] on ASCII letters; other bytes are kept. *)
Fixpoint ToLower (s : string) : string :=
  match s with
  | EmptyString => EmptyString
  | String c s' => String (lower c) (ToLower s')
  end.

(** [%d] of a non-negative int. *)
Definition Itoa (n : nat) : string := NilZero.string_of_uint (Nat.to_uint n).

(** [s[a:b]] *)
Definition slice (s : string) (a b : nat) : string := String.substring a (b - a) s.

Definition slash : ascii := "/"%char.
Definition dot : ascii := "."%char.

Fixpoint drop_slashes (s : string) : string :=
  match s with
  | String c s' => if Ascii.eqb c slash then drop_slashes s' else s
  | EmptyString => EmptyString
  end.

(** The reversed last path element of a reversed path without trailing
    separators: everything up to the first separator. *)
Fixpoint until_slash (s : string) : string :=
  match s with
  | String c s' => if Ascii.eqb c slash then EmptyString else String c (until_slash s')
  | EmptyString => EmptyString
  end.

(** [filepath.Base] (Unix: the separator is [/], no volume names). *)
Definition Base (path : string) : string :=
  if String.eqb path EmptyString then "."
  else
    let r := drop_slashes (String.rev path) in
    let e := String.rev (until_slash r) in
    if String.eqb e EmptyString then "/" else e.

(** Scan of [filepath.Ext] over the reversed path: the text from the last
    dot of the last element on, or nothing. *)
Fixpoint ext_rev (s acc : string) : string :=
  match s with
  | EmptyString => EmptyString
  | String c s' =>
      if Ascii.eqb c slash then EmptyString
      else if Ascii.eqb c dot then String c acc
      else ext_rev s' (String c acc)
  end.

(** [filepath.Ext] *)
Definition Ext (path : string) : string := ext_rev (String.rev path) EmptyString.

Fixpoint after_slash (s : string) : option string :=
  match s with
  | EmptyString => None
  | String c s' => if Ascii.eqb c slash then Some s' else after_slash s'
  end.

(** [filepath.Dir] on a clean relative path, which is what
    [filepath.Rel] hands to the indexer: the text before the last
    separator, or [.] when there is none. *)
Definition Dir (path : string) : string :=
  match after_slash (String.rev path) with
  | None => "."
  | Some r => if String.eqb r EmptyString then "/" else String.rev r
  end.

(** [strings.Split(s, "/")] *)
Fixpoint Split_slash (s : string) : list string :=
  match s with
  | EmptyString => [EmptyString]
  | String c s' =>
      if Ascii.eqb c slash then EmptyString :: Split_slash s'
      else match Split_slash s' with
           | [] => [String c EmptyString]
           | l :: ls => String c l :: ls
           end
  end.

End Strings.

(** ** [sort.Slice]

    Modelled by the insertion sort Go runs on slices of at most twelve
    elements: an element moves left while it is strictly less than its
    predecessor.  On longer slices Go's order among elements with equal
    keys is some other one; where a result below is claimed for every put
    order, the keys are pairwise distinct and the sorted slice is unique
    ([sorted_by_unique]). *)

Module Sort.
Section by_key.
Context {A : Type} (key : A -> nat).

Fixpoint insert (x : A) (l : list A) : list A :=
  match l with
  | [] => [x]
  | y :: l' => if (key x <? key y)%nat then x :: y :: l' else y :: insert x l'
  end.

Definition Slice (l : list A) : list A :=
  fold_left (fun acc x => insert x acc) l [].

(** Sorted for [less(i, j) := key i < key j]: no element is strictly less
    than an earlier one. *)
Fixpoint sorted_by (l : list A) : Prop :=
  match l with
  | [] => True
  | x :: l' => Forall (fun y => (key x <= key y)%nat) l' /\ sorted_by l'
  end.

End by_key.
End Sort.

(** ** Package [chunker]: shared types (interface.go) *)

Module Chunker.

Record FileMetadata := mkFileMetadata
  { md_FilePath : string;
    md_Language : string;
    md_Module : string;
    md_ProjectID : string }.

Record Chunk := mkChunk
  { ID : string;
    Content : string;
    Symbol : string;
    SymbolType : string;
    StartLine : nat;
    EndLine : nat;
    TokenCount : nat;
    ContentHash : string;
    FilePath : string;
    Language : string;
    Module_ : string;
    ProjectID : string }.

Record ChunkingConfig := mkChunkingConfig
  { MinTokens : Z;
    IdealTokens : Z;
    MaxTokens : Z;
    MergeSmallChunks : bool }.

Definition DefaultConfig : ChunkingConfig :=
  mkChunkingConfig 200 500 800 true.

(** [HashContent]: lowercase hex of SHA-256. *)
Definition HashContent (content : string) : string :=
  Bytes.hex (SHA256.sum_string content).

(** [GenerateChunkID]: [{project}:{path}:{symbol}:{hash8}] *)
Definition GenerateChunkID (projectID filePath symbol contentHash : string) : string :=
  let hashPrefix :=
    if (8 <? String.length contentHash)%nat
    then Strings.slice contentHash 0 8 else contentHash in
  let symbolPart := if String.eqb symbol EmptyString then "_" else symbol in
  let symbolPart := Strings.ReplaceAll1 symbolPart ":"%char "_"%char in
  projectID +:+ ":" +:+ filePath +:+ ":" +:+ symbolPart +:+ ":" +:+ hashPrefix.

(** [EstimateTokens]: four bytes a token. *)
Definition EstimateTokens (content : string) : nat :=
  (String.length content / 4)%nat.

(** [extractLines(lines, start, end)]: lines [start..end], 1-indexed and
    inclusive, clamped to the file; shared by the Go, PHP and TypeScript
    chunkers. *)
Definition extractLines (lines : list string) (start end_ : nat) : string :=
  let start := if (start <? 1)%nat then 1%nat else start in
  let end_ := if (length lines <? end_)%nat then length lines else end_ in
  if (end_ <? start)%nat then EmptyString
  else Strings.Join (take (end_ - (start - 1)) (drop (start - 1) lines)) (String Strings.nl EmptyString).

(** The tuple the specification compares chunk sequences by. *)
Definition key (c : Chunk) : string * string * nat * nat :=
  (ID c, ContentHash c, StartLine c, EndLine c).

(** Inclusive line ranges [a] and [b] share a line. *)
Definition overlaps (a b : Chunk) : bool :=
  (StartLine a <=? EndLine b)%nat && (StartLine b <=? EndLine a)%nat.

End Chunker.

(** ** go_chunker.go *)

Module GoChunker.
Import Chunker.

(** What the chunker reads of [go/ast]; every position is already the
    line number [fset.Position(p).Line]. *)
Inductive Expr :=
| Ident (name : string)
| StarExpr (x : Expr)
| OtherExpr.

Record Field := mkField { field_Type : option Expr }.

Record FuncDecl := mkFuncDecl
  { fn_Pos : nat;
    fn_End : nat;
    fn_Doc : option nat;
    fn_Name : string;
    fn_Recv : option (list Field) }.

Inductive TypeExpr := StructType | InterfaceType | OtherType.

Inductive Spec :=
| TypeSpec (name : string) (type : TypeExpr)
| OtherSpec.

Inductive Token := TYPE | OtherToken.

Record GenDecl := mkGenDecl
  { gd_Tok : Token;
    gd_Pos : nat;
    gd_End : nat;
    gd_Doc : option nat;
    gd_Specs : list Spec }.

Inductive Decl :=
| DeclFunc (d : FuncDecl)
| DeclGen (d : GenDecl)
| DeclBad.

Record File := mkFile
  { file_Name : option string;
    file_Decls : list Decl }.

(** [parser.ParseFile(fset, path, content, ParseComments)]: [None] is a
    parse error. *)
Definition Parser := string -> string -> option File.

Record goSymbol := mkGoSymbol
  { name : string;
    symbolType : string;
    startLine : nat;
    endLine : nat;
    content : string;
    tokens : nat }.

(** The token count of a symbol is the estimate of its content. *)
Definition measured (s : goSymbol) : Prop := tokens s = EstimateTokens (content s).

Definition extractReceiverType (expr : Expr) : string :=
  match expr with
  | Ident n => n
  | StarExpr (Ident n) => n
  | _ => EmptyString
  end.

Definition withDoc (doc : option nat) (startLine : nat) : nat :=
  match doc with
  | Some docStart => if (docStart <? startLine)%nat then docStart else startLine
  | None => startLine
  end.

Definition extractFunction (fn : FuncDecl) (lines : list string) : goSymbol :=
  let startLine := withDoc (fn_Doc fn) (fn_Pos fn) in
  let endLine := fn_End fn in
  let content := extractLines lines startLine endLine in
  let '(symbolType, name) :=
    match fn_Recv fn with
    | Some (recv :: _) =>
        ("method",
         match field_Type recv with
         | Some t =>
             let recvType := extractReceiverType t in
             if String.eqb recvType EmptyString then fn_Name fn
             else recvType +:+ "." +:+ fn_Name fn
         | None => fn_Name fn
         end)
    | _ => ("function", fn_Name fn)
    end in
  mkGoSymbol name symbolType startLine endLine content (EstimateTokens content).

Definition extractType (genDecl : GenDecl) (tsName : string) (tsType : TypeExpr)
    (lines : list string) : goSymbol :=
  let startLine := withDoc (gd_Doc genDecl) (gd_Pos genDecl) in
  let endLine := gd_End genDecl in
  let content := extractLines lines startLine endLine in
  let symbolType :=
    match tsType with
    | StructType => "struct"
    | InterfaceType => "interface"
    | OtherType => "type"
    end in
  mkGoSymbol tsName symbolType startLine endLine content (EstimateTokens content).

Definition declSymbols (lines : list string) (decl : Decl) : list goSymbol :=
  match decl with
  | DeclFunc d => [extractFunction d lines]
  | DeclGen d =>
      match gd_Tok d with
      | TYPE =>
          flat_map (fun spec =>
                      match spec with
                      | TypeSpec n t => [extractType d n t lines]
                      | OtherSpec => []
                      end) (gd_Specs d)
      | OtherToken => []
      end
  | DeclBad => []
  end.

Definition extractSymbols (file : File) (source : string) : list goSymbol :=
  let lines := Strings.Split_nl source in
  flat_map (declSymbols lines) (file_Decls file).

Definition NL : string := String Strings.nl EmptyString.
Definition NL2 : string := NL +:+ NL.

Definition mergeInto (target : goSymbol) (small : list goSymbol) : goSymbol :=
  let allContent := content target :: map content small in
  let names := name target :: map name small in
  let content' := Strings.Join allContent NL2 in
  let startLine' :=
    fold_left (fun acc s => if (startLine s <? acc)%nat then startLine s else acc)
              small (startLine target) in
  let endLine' :=
    fold_left (fun acc s => if (acc <? endLine s)%nat then endLine s else acc)
              small (endLine target) in
  let name' :=
    if (1 <? length names)%nat
    then name target +:+ "+" +:+ Strings.Itoa (length small)
    else name target in
  mkGoSymbol name' (symbolType target) startLine' endLine' content'
             (EstimateTokens content').

Definition combineSymbols (symbols : list goSymbol) : goSymbol :=
  match symbols with
  | [] => mkGoSymbol EmptyString EmptyString 0 0 EmptyString 0
  | s0 :: _ =>
      let startLine' :=
        fold_left (fun acc s => if (startLine s <? acc)%nat then startLine s else acc)
                  symbols (startLine s0) in
      let endLine' :=
        fold_left (fun acc s => if (acc <? endLine s)%nat then endLine s else acc)
                  symbols (endLine s0) in
      let combinedContent := Strings.Join (map content symbols) NL2 in
      mkGoSymbol (Strings.Join (map name symbols) "+") "combined"
                 startLine' endLine' combinedContent (EstimateTokens combinedContent)
  end.

(** [if len(pendingSmall) > 0 { sym = g.mergeInto(sym, pendingSmall) }] *)
Definition attach (sym : goSymbol) (pendingSmall : list goSymbol) : goSymbol :=
  match pendingSmall with
  | [] => sym
  | _ :: _ => mergeInto sym pendingSmall
  end.

(** The loop of [mergeSmallSymbols] with its two accumulators. *)
Fixpoint mergeLoop (cfg : ChunkingConfig) (symbols result pendingSmall : list goSymbol)
    : list goSymbol * list goSymbol :=
  match symbols with
  | [] => (result, pendingSmall)
  | sym :: rest =>
      if Z.of_nat (tokens sym) <? MinTokens cfg
      then mergeLoop cfg rest result (pendingSmall ++ [sym])
      else mergeLoop cfg rest (result ++ [attach sym pendingSmall]) []
  end.

Definition mergeSmallSymbols (cfg : ChunkingConfig) (symbols : list goSymbol)
    : list goSymbol :=
  if (length symbols <=? 1)%nat then symbols
  else
    let '(result, pendingSmall) := mergeLoop cfg symbols [] [] in
    match pendingSmall with
    | [] => result
    | _ :: _ =>
        match last result with
        | Some l => removelast result ++ [mergeInto l pendingSmall]
        | None => result ++ [combineSymbols pendingSmall]
        end
    end.

(** A symbol is under-sized: [sym.tokens < g.config.MinTokens]. *)
Definition small (cfg : ChunkingConfig) (sym : goSymbol) : bool :=
  Z.of_nat (tokens sym) <? MinTokens cfg.

(** What is compared of merged symbols: type and line range. *)
Definition shape (sym : goSymbol) : string * nat * nat :=
  (symbolType sym, startLine sym, endLine sym).

Definition chunkAsFile (content : string) (metadata : FileMetadata) : list Chunk :=
  let contentHash := HashContent content in
  let symbol := Strings.Base (md_FilePath metadata) in
  [ mkChunk
      (GenerateChunkID (md_ProjectID metadata) (md_FilePath metadata) symbol contentHash)
      content symbol "file" 1 (Strings.Count_nl content + 1)
      (EstimateTokens content) contentHash
      (md_FilePath metadata) "go" (md_Module metadata) (md_ProjectID metadata) ].

Definition toChunk (metadata : FileMetadata) (module : string) (sym : goSymbol) : Chunk :=
  let contentHash := HashContent (content sym) in
  mkChunk
    (GenerateChunkID (md_ProjectID metadata) (md_FilePath metadata) (name sym) contentHash)
    (content sym) (name sym) (symbolType sym) (startLine sym) (endLine sym)
    (tokens sym) contentHash
    (md_FilePath metadata) "go" module (md_ProjectID metadata).

Definition Chunk (cfg : ChunkingConfig) (ParseFile : Parser)
    (content : string) (metadata : FileMetadata) : list Chunk :=
  match ParseFile (md_FilePath metadata) content with
  | None => chunkAsFile content metadata
  | Some file =>
      let module :=
        match file_Name file with
        | Some n => if String.eqb (md_Module metadata) EmptyString then n
                    else md_Module metadata
        | None => md_Module metadata
        end in
      let symbols := extractSymbols file content in
      match symbols with
      | [] => chunkAsFile content metadata
      | _ :: _ =>
          let symbols := Sort.Slice startLine symbols in
          let symbols := if MergeSmallChunks cfg
                         then mergeSmallSymbols cfg symbols else symbols in
          map (toChunk metadata module) symbols
      end
  end.

End GoChunker.

(** ** php_chunker.go and typescript_chunker.go: the shared shape

    The two regex chunkers declare the same match and symbol records and
    the same [deduplicateMatches], [extractSymbolBoundaries] and
    [mergeSmallSymbols] bodies twice, once per type.  They are embedded
    once here; what differs between the languages (patterns, priorities,
    quoting characters, comment markers, fall-back span) is a parameter. *)

Module RegexChunker.
Import Chunker.

(** One entry of [FindAllStringSubmatchIndex]: [loc[0]], [loc[1]] and the
    first capture group ([None] when [loc[2]] or [loc[3]] is negative). *)
Record Loc := mkLoc
  { loc_start : nat;
    loc_end : nat;
    loc_group : option (nat * nat) }.

(** [phpMatch] / [symbolMatch] *)
Record symbolMatch := mkMatch
  { m_name : string;
    m_symbolType : string;
    lineNum : nat;
    matchStart : nat;
    matchEnd : nat }.

(** [phpSymbol] / [tsSymbol] (the latter has no [namespace]). *)
Record symbol := mkSymbol
  { name : string;
    symbolType : string;
    startLine : nat;
    endLine : nat;
    content : string;
    tokens : nat;
    namespace : string }.

(** The token count of a symbol is the estimate of its content. *)
Definition measured (s : symbol) : Prop := tokens s = EstimateTokens (content s).

Definition NL : string := String Strings.nl EmptyString.
Definition NL2 : string := NL +:+ NL.

(** The closure [addMatches] of [findAllSymbols]. *)
Definition addMatches (content : string) (locs : list Loc) (symbolType : string)
    (matches : list symbolMatch) : list symbolMatch :=
  fold_left
    (fun matches loc =>
       let name :=
         match loc_group loc with
         | Some (a, b) => Strings.slice content a b
         | None => EmptyString
         end in
       if String.eqb name EmptyString then
         if String.eqb symbolType "constructor" then
           matches ++ [mkMatch "__construct" symbolType
                         (Strings.Count_nl (Strings.slice content 0 (loc_start loc)) + 1)
                         (loc_start loc) (loc_end loc)]
         else matches
       else
         matches ++ [mkMatch name symbolType
                       (Strings.Count_nl (Strings.slice content 0 (loc_start loc)) + 1)
                       (loc_start loc) (loc_end loc)])
    locs matches.

(** The map [byLine] that [deduplicateMatches] fills; [priority] is the
    lookup in the priority table (0 for a type that is not in it). *)
Definition byLine (priority : string -> nat) (matches : list symbolMatch)
    : gmap nat symbolMatch :=
  fold_left
    (fun byLine m =>
       match byLine !! lineNum m with
       | Some existing =>
           if (priority (m_symbolType m) <? priority (m_symbolType existing))%nat
           then <[lineNum m := m]> byLine
           else byLine
       | None => <[lineNum m := m]> byLine
       end)
    matches ∅.

(** [result] may be the slice that [for _, m := range byLine] appends to:
    the values of the map, each once, in any order. *)
Definition ranges_over (byLine : gmap nat symbolMatch) (result : list symbolMatch) : Prop :=
  result ≡ₚ (map_to_list byLine).*2.

(** One visiting order, for evaluation. *)
Definition some_range (byLine : gmap nat symbolMatch) : list symbolMatch :=
  (map_to_list byLine).*2.

Definition backslash : ascii := "\"%char.
Definition dquote : ascii := "034"%char.
Definition squote : ascii := "'"%char.
Definition backquote : ascii := "`"%char.
Definition nul : ascii := "000"%char.

(** The inner loop of [findBraceEnd] over the bytes of one line.  [prev] is
    [line[j-1]] ([None] at [j = 0]); [None] as result is the [return i + 1]
    at the closing brace. *)
Fixpoint scanLine (quote : ascii -> bool) (line : string) (prev : option ascii)
    (inString : bool) (stringChar : ascii) (depth : Z) (foundOpen : bool)
    : option (Z * bool) :=
  match line with
  | EmptyString => Some (depth, foundOpen)
  | String ch rest =>
      if negb inString && quote ch then
        scanLine quote rest (Some ch) true ch depth foundOpen
      else if inString && Ascii.eqb ch stringChar &&
              match prev with
              | None => true
              | Some p => negb (Ascii.eqb p backslash)
              end then
        scanLine quote rest (Some ch) false stringChar depth foundOpen
      else if inString then
        scanLine quote rest (Some ch) inString stringChar depth foundOpen
      else if Ascii.eqb ch "{"%char then
        scanLine quote rest (Some ch) inString stringChar (depth + 1) true
      else if Ascii.eqb ch "}"%char then
        if foundOpen && (depth - 1 =? 0) then None
        else scanLine quote rest (Some ch) inString stringChar (depth - 1) foundOpen
      else
        scanLine quote rest (Some ch) inString stringChar depth foundOpen
  end.

(** The outer loop, over [lines[i:]]. *)
Fixpoint scanLines (quote : ascii -> bool) (lines : list string) (i : nat)
    (depth : Z) (foundOpen : bool) : option nat :=
  match lines with
  | [] => None
  | line :: rest =>
      match scanLine quote line None false nul depth foundOpen with
      | None => Some (i + 1)%nat
      | Some (depth, foundOpen) => scanLines quote rest (i + 1) depth foundOpen
      end
  end.

Definition findBraceEnd (quote : ascii -> bool) (fallback : nat)
    (lines : list string) (startLine : nat) : nat :=
  match scanLines quote (drop (startLine - 1) lines) (startLine - 1) 0 false with
  | Some e => e
  | None => (startLine + fallback)%nat
  end.

(** [for j := i; j >= 0; j--] looking for the opening of a doc block;
    [k] is [j + 1]. *)
Fixpoint docStart (lines : list string) (k : nat) : option nat :=
  match k with
  | O => None
  | S j => if Strings.Contains (nth j lines EmptyString) "/**" then Some (S j)
           else docStart lines j
  end.

(** [for i := symbolLine - 2; i >= 0; i--] of [findPrecedingComment];
    [k] is [i + 1] and [marker] is the attribute ([#[]) or decorator ([@])
    prefix. *)
Fixpoint precedingLoop (marker : string) (lines : list string) (k startLine : nat) : nat :=
  match k with
  | O => startLine
  | S i =>
      let line := Strings.TrimSpace (nth i lines EmptyString) in
      match (if Strings.HasSuffix line "*/" then docStart lines (S i) else None) with
      | Some r => r
      | None =>
          if Strings.HasPrefix line "//" then precedingLoop marker lines i (i + 1)
          else if Strings.HasPrefix line marker then precedingLoop marker lines i (i + 1)
          else if String.eqb line EmptyString then precedingLoop marker lines i startLine
          else startLine
      end
  end.

Definition findPrecedingComment (marker : string) (lines : list string) (symbolLine : nat)
    : nat :=
  precedingLoop marker lines (symbolLine - 1) symbolLine.

(** [extractSymbolBoundaries]; [findEnd] is the end finder chosen for the
    match ([findBraceEnd], or [findTypeEnd] for a TypeScript type alias). *)
Fixpoint extractSymbolBoundaries (marker : string)
    (findEnd : symbolMatch -> list string -> nat -> nat)
    (lines : list string) (matches : list symbolMatch) (namespace : string)
    : list symbol :=
  match matches with
  | [] => []
  | m :: rest =>
      let startLine := lineNum m in
      let startLine :=
        if (1 <? startLine)%nat then findPrecedingComment marker lines startLine
        else startLine in
      let endLine := findEnd m lines (lineNum m) in
      let endLine :=
        match rest with
        | next :: _ =>
            if (lineNum next <=? endLine)%nat then (lineNum next - 1)%nat else endLine
        | [] => endLine
        end in
      let endLine := if (length lines <? endLine)%nat then length lines else endLine in
      let endLine := if (endLine <? startLine)%nat then startLine else endLine in
      let symContent := extractLines lines startLine endLine in
      mkSymbol (m_name m) (m_symbolType m) startLine endLine symContent
               (EstimateTokens symContent) namespace
      :: extractSymbolBoundaries marker findEnd lines rest namespace
  end.

(** [pending] after the next small symbol was added to it. *)
Definition absorb (pending sym : symbol) : symbol :=
  let content' := content pending +:+ NL2 +:+ content sym in
  mkSymbol (name pending +:+ "+" +:+ name sym) (symbolType pending)
           (startLine pending) (endLine sym) content' (EstimateTokens content')
           (namespace pending).

(** A large symbol with [pending] put in front of it. *)
Definition prefixed (pending sym : symbol) : symbol :=
  let content' := content pending +:+ NL2 +:+ content sym in
  mkSymbol (name sym) (symbolType sym) (startLine pending) (endLine sym) content'
           (EstimateTokens content') (namespace sym).

(** The loop of [mergeSmallSymbols]: [pending] is the one accumulator. *)
Fixpoint mergeLoop (cfg : ChunkingConfig) (symbols result : list symbol)
    (pending : option symbol) : list symbol :=
  match symbols with
  | [] =>
      match pending with
      | Some p => result ++ [p]
      | None => result
      end
  | sym :: rest =>
      if Z.of_nat (tokens sym) <? MinTokens cfg then
        match pending with
        | None => mergeLoop cfg rest result (Some sym)
        | Some p => mergeLoop cfg rest result (Some (absorb p sym))
        end
      else
        match pending with
        | Some p =>
            if Z.of_nat (tokens p) + Z.of_nat (tokens sym) <=? MaxTokens cfg
            then mergeLoop cfg rest (result ++ [prefixed p sym]) None
            else mergeLoop cfg rest (result ++ [p; sym]) None
        | None => mergeLoop cfg rest (result ++ [sym]) None
        end
  end.

Definition mergeSmallSymbols (cfg : ChunkingConfig) (symbols : list symbol) : list symbol :=
  if (length symbols <=? 1)%nat then symbols
  else mergeLoop cfg symbols [] None.

(** A symbol is under-sized: [sym.tokens < config.MinTokens]. *)
Definition small (cfg : ChunkingConfig) (sym : symbol) : bool :=
  Z.of_nat (tokens sym) <? MinTokens cfg.

(** [pending] after a run of small symbols that starts with [first]. *)
Definition accumulate (first : symbol) (smalls : list symbol) : symbol :=
  fold_left absorb smalls first.

(** What is compared of merged symbols: type and line range. *)
Definition shape (sym : symbol) : string * nat * nat :=
  (symbolType sym, startLine sym, endLine sym).

(** [chunkAsFile] of both chunkers; they differ in the language tag. *)
Definition chunkAsFile (language : string) (content : string) (metadata : FileMetadata)
    : list Chunk :=
  let contentHash := HashContent content in
  let symbol := md_FilePath metadata in
  [ mkChunk
      (GenerateChunkID (md_ProjectID metadata) (md_FilePath metadata) symbol contentHash)
      content symbol "file" 1 (Strings.Count_nl content + 1)
      (EstimateTokens content) contentHash
      (md_FilePath metadata) language (md_Module metadata) (md_ProjectID metadata) ].

End RegexChunker.

Module PHPChunker.
Import Chunker RegexChunker.

Inductive Pattern :=
| phpNamespacePattern
| phpClassPattern
| phpInterfacePattern
| phpTraitPattern
| phpEnumPattern
| phpFunctionPattern.

(** The regular-expression engine: the matches of a pattern in a text. *)
Definition Regexp := Pattern -> string -> list Loc.

Definition priority (symbolType : string) : nat :=
  if String.eqb symbolType "class" then 1
  else if String.eqb symbolType "interface" then 2
  else if String.eqb symbolType "trait" then 3
  else if String.eqb symbolType "enum" then 4
  else if String.eqb symbolType "function" then 5
  else if String.eqb symbolType "method" then 6
  else if String.eqb symbolType "constructor" then 7
  else 0.

Definition quote (ch : ascii) : bool := Ascii.eqb ch dquote || Ascii.eqb ch squote.

Definition extractNamespace (re : Regexp) (content : string) : string :=
  match re phpNamespacePattern content with
  | loc :: _ =>
      match loc_group loc with
      | Some (a, b) => Strings.slice content a b
      | None => EmptyString
      end
  | [] => EmptyString
  end.

(** The matches [findAllSymbols] hands to [deduplicateMatches]. *)
Definition allMatches (re : Regexp) (content : string) : list symbolMatch :=
  let matches := addMatches content (re phpClassPattern content) "class" [] in
  let matches := addMatches content (re phpInterfacePattern content) "interface" matches in
  let matches := addMatches content (re phpTraitPattern content) "trait" matches in
  let matches := addMatches content (re phpEnumPattern content) "enum" matches in
  addMatches content (re phpFunctionPattern content) "function" matches.

Definition deduplicateMatches (matches : list symbolMatch) : gmap nat symbolMatch :=
  byLine priority matches.

Definition findBraceEnd : list string -> nat -> nat :=
  RegexChunker.findBraceEnd quote 100.

Definition findPrecedingComment : list string -> nat -> nat :=
  RegexChunker.findPrecedingComment "#[".

Definition extractSymbolBoundaries (lines : list string) (matches : list symbolMatch)
    (namespace : string) : list symbol :=
  RegexChunker.extractSymbolBoundaries "#[" (fun _ => findBraceEnd) lines matches namespace.

Definition chunkAsFile : string -> FileMetadata -> list Chunk :=
  RegexChunker.chunkAsFile "php".

Definition toChunk (metadata : FileMetadata) (sym : symbol) : Chunk :=
  let contentHash := HashContent (content sym) in
  let symbolName :=
    if negb (String.eqb (namespace sym) EmptyString) && String.eqb (symbolType sym) "class"
    then namespace sym +:+ "\" +:+ name sym
    else name sym in
  mkChunk
    (GenerateChunkID (md_ProjectID metadata) (md_FilePath metadata) (name sym) contentHash)
    (content sym) symbolName (symbolType sym) (startLine sym) (endLine sym)
    (tokens sym) contentHash
    (md_FilePath metadata) "php" (namespace sym) (md_ProjectID metadata).

(** [Chunk] from the point where [findAllSymbols] has returned [matches],
    the slice built by ranging over the de-duplication map. *)
Definition ChunkFrom (cfg : ChunkingConfig) (re : Regexp) (content : string)
    (metadata : FileMetadata) (matches : list symbolMatch) : list Chunk :=
  let lines := Strings.Split_nl content in
  let namespace := extractNamespace re content in
  match matches with
  | [] => chunkAsFile content metadata
  | _ :: _ =>
      let matches := Sort.Slice lineNum matches in
      let symbols := extractSymbolBoundaries lines matches namespace in
      let symbols := if MergeSmallChunks cfg
                     then mergeSmallSymbols cfg symbols else symbols in
      map (toChunk metadata) symbols
  end.

Definition Chunk (cfg : ChunkingConfig) (re : Regexp) (content : string)
    (metadata : FileMetadata) : list Chunk :=
  ChunkFrom cfg re content metadata
    (some_range (deduplicateMatches (allMatches re content))).

End PHPChunker.

Module TypeScriptChunker.
Import Chunker RegexChunker.

Inductive Pattern :=
| tsClassPattern
| tsInterfacePattern
| tsEnumPattern
| tsTypePattern
| tsFunctionPattern
| tsArrowFuncPattern
| tsExportDefaultPattern.

Definition Regexp := Pattern -> string -> list Loc.

Definition priority (symbolType : string) : nat :=
  if String.eqb symbolType "class" then 1
  else if String.eqb symbolType "interface" then 2
  else if String.eqb symbolType "enum" then 3
  else if String.eqb symbolType "type" then 4
  else if String.eqb symbolType "function" then 5
  else if String.eqb symbolType "arrow_function" then 6
  else if String.eqb symbolType "export_default" then 7
  else 0.

Definition quote (ch : ascii) : bool :=
  Ascii.eqb ch dquote || Ascii.eqb ch squote || Ascii.eqb ch backquote.

Definition allMatches (re : Regexp) (content : string) : list symbolMatch :=
  let matches := addMatches content (re tsClassPattern content) "class" [] in
  let matches := addMatches content (re tsInterfacePattern content) "interface" matches in
  let matches := addMatches content (re tsEnumPattern content) "enum" matches in
  let matches := addMatches content (re tsTypePattern content) "type" matches in
  let matches := addMatches content (re tsFunctionPattern content) "function" matches in
  let matches :=
    addMatches content (re tsArrowFuncPattern content) "arrow_function" matches in
  addMatches content (re tsExportDefaultPattern content) "export_default" matches.

Definition deduplicateMatches (matches : list symbolMatch) : gmap nat symbolMatch :=
  byLine priority matches.

Definition findBraceEnd : list string -> nat -> nat :=
  RegexChunker.findBraceEnd quote 50.

Definition findPrecedingComment : list string -> nat -> nat :=
  RegexChunker.findPrecedingComment "@".

(** The character loop of [findTypeEnd] on one line; [None] is the
    [return i + 1] at a top-level semicolon.  The source ranges over
    runes, but compares them with ASCII characters only, which no byte of
    a multi-byte rune equals. *)
Fixpoint typeLine (line : string) (depth : Z) : option Z :=
  match line with
  | EmptyString => Some depth
  | String ch rest =>
      if Ascii.eqb ch "{"%char || Ascii.eqb ch "<"%char || Ascii.eqb ch "("%char
      then typeLine rest (depth + 1)
      else if Ascii.eqb ch "}"%char || Ascii.eqb ch ">"%char || Ascii.eqb ch ")"%char
      then typeLine rest (depth - 1)
      else if Ascii.eqb ch ";"%char && (depth =? 0) then None
      else typeLine rest depth
  end.

Definition startsDeclaration (nextLine : string) : bool :=
  Strings.HasPrefix nextLine "export " || Strings.HasPrefix nextLine "type " ||
  Strings.HasPrefix nextLine "interface " || Strings.HasPrefix nextLine "class " ||
  Strings.HasPrefix nextLine "function " || Strings.HasPrefix nextLine "const " ||
  Strings.HasPrefix nextLine "let ".

Fixpoint typeLines (lines : list string) (i : nat) (depth : Z) : option nat :=
  match lines with
  | [] => None
  | line :: rest =>
      match typeLine line depth with
      | None => Some (i + 1)%nat
      | Some depth =>
          match rest with
          | next :: _ =>
              if (depth =? 0) && startsDeclaration (Strings.TrimSpace next)
              then Some (i + 1)%nat
              else typeLines rest (i + 1) depth
          | [] => typeLines rest (i + 1) depth
          end
      end
  end.

Definition findTypeEnd (lines : list string) (startLine : nat) : nat :=
  match typeLines (drop (startLine - 1) lines) (startLine - 1) 0 with
  | Some e => e
  | None => startLine
  end.

Definition extractSymbolBoundaries (lines : list string) (matches : list symbolMatch)
    : list symbol :=
  RegexChunker.extractSymbolBoundaries "@"
    (fun m => if String.eqb (m_symbolType m) "type" then findTypeEnd else findBraceEnd)
    lines matches EmptyString.

Definition chunkAsFile (content : string) (metadata : FileMetadata) : list Chunk :=
  RegexChunker.chunkAsFile (md_Language metadata) content metadata.

Definition toChunk (metadata : FileMetadata) (sym : symbol) : Chunk :=
  let contentHash := HashContent (content sym) in
  mkChunk
    (GenerateChunkID (md_ProjectID metadata) (md_FilePath metadata) (name sym) contentHash)
    (content sym) (name sym) (symbolType sym) (startLine sym) (endLine sym)
    (tokens sym) contentHash
    (md_FilePath metadata) (md_Language metadata) (md_Module metadata)
    (md_ProjectID metadata).

Definition ChunkFrom (cfg : ChunkingConfig) (content : string)
    (metadata : FileMetadata) (matches : list symbolMatch) : list Chunk :=
  let lines := Strings.Split_nl content in
  match matches with
  | [] => chunkAsFile content metadata
  | _ :: _ =>
      let matches := Sort.Slice lineNum matches in
      let symbols := extractSymbolBoundaries lines matches in
      let symbols := if MergeSmallChunks cfg
                     then mergeSmallSymbols cfg symbols else symbols in
      map (toChunk metadata) symbols
  end.

Definition Chunk (cfg : ChunkingConfig) (re : Regexp) (content : string)
    (metadata : FileMetadata) : list Chunk :=
  ChunkFrom cfg content metadata
    (some_range (deduplicateMatches (allMatches re content))).

End TypeScriptChunker.

(** ** markdown_chunker.go *)

Module MarkdownChunker.
Import Chunker.

Record mdSection := mkSection
  { heading : string;
    level : nat;
    startLine : nat;
    endLine : nat;
    content : string;
    tokens : nat }.

Definition NL : string := String Strings.nl EmptyString.
Definition NL2 : string := NL +:+ NL.

(** The token count of a section is the estimate of its content. *)
Definition measured (s : mdSection) : Prop := tokens s = EstimateTokens (content s).

(** The white space of [\s] that a line can hold (a line has no newline). *)
Definition is_s (c : ascii) : bool :=
  Ascii.eqb c "009"%char || Ascii.eqb c "012"%char || Ascii.eqb c "013"%char ||
  Ascii.eqb c " "%char.

Fixpoint hashes (s : string) : nat * string :=
  match s with
  | String c s' =>
      if Ascii.eqb c "#"%char then let '(n, r) := hashes s' in (S n, r) else (0%nat, s)
  | EmptyString => (0%nat, EmptyString)
  end.

(** The longest run of white space at the head of [s]: its last character
    (if any), its length, and what follows it. *)
Fixpoint spaces (s : string) (last : option ascii) (n : nat) : option ascii * nat * string :=
  match s with
  | String c s' => if is_s c then spaces s' (Some c) (S n) else (last, n, s)
  | EmptyString => (last, n, EmptyString)
  end.

(** [headingPattern.FindStringSubmatch(line)] for
    [^(#{1,6})\s+(.+)$], as [(len(matches[1]), matches[2])].  One to six
    hashes, then white space, then the rest of the line; when the line ends
    in the white space, the greedy [\s+] gives its last character back to
    [.+]. *)
Definition headingPattern (line : string) : option (nat * string) :=
  let '(n, r) := hashes line in
  if (1 <=? n)%nat && (n <=? 6)%nat then
    match spaces r None 0 with
    | (Some lastc, k, rest) =>
        if negb (String.eqb rest EmptyString) then Some (n, rest)
        else if (2 <=? k)%nat then Some (n, String lastc EmptyString)
        else None
    | (None, _, _) => None
    end
  else None.

(** The loop of [extractSections]; [lineNum] is [i + 1]. *)
Fixpoint sectionsLoop (lines : list string) (lineNum : nat)
    (sections : list mdSection) (currentSection : option mdSection)
    : list mdSection * option mdSection :=
  match lines with
  | [] => (sections, currentSection)
  | line :: rest =>
      match headingPattern line with
      | Some (level, heading) =>
          let sections :=
            match currentSection with
            | Some cur =>
                sections ++ [mkSection (MarkdownChunker.heading cur)
                               (MarkdownChunker.level cur) (startLine cur)
                               (lineNum - 1) (content cur)
                               (EstimateTokens (content cur))]
            | None => sections
            end in
          sectionsLoop rest (S lineNum) sections
            (Some (mkSection heading level lineNum 0 line 0))
      | None =>
          match currentSection with
          | Some cur =>
              sectionsLoop rest (S lineNum) sections
                (Some (mkSection (MarkdownChunker.heading cur)
                         (MarkdownChunker.level cur) (startLine cur) (endLine cur)
                         (content cur +:+ NL +:+ line) (tokens cur)))
          | None =>
              sectionsLoop rest (S lineNum) sections
                (Some (mkSection "(intro)" 0 lineNum 0 line 0))
          end
      end
  end.

Definition extractSections (lines : list string) : list mdSection :=
  let '(sections, currentSection) := sectionsLoop lines 1 [] None in
  match currentSection with
  | Some cur =>
      sections ++ [mkSection (heading cur) (level cur) (startLine cur) (length lines)
                     (content cur) (EstimateTokens (content cur))]
  | None => sections
  end.

(** The loop of [mergeSmallSections] at index [i], with [sec] the value of
    [sections[i]] as the loop reads it (an earlier iteration may have
    rewritten it through [&sections[i+1]]) and [rest] the elements after
    it. *)
Fixpoint mergeLoop (cfg : ChunkingConfig) (i : nat) (sec : mdSection)
    (rest result : list mdSection) : list mdSection :=
  let small := Z.of_nat (tokens sec) <? MinTokens cfg in
  if small && (0 <? i)%nat && (0 <? length result)%nat then
    let result' :=
      match last result with
      | Some prev =>
          let content' := content prev +:+ NL2 +:+ content sec in
          removelast result ++
            [mkSection (heading prev) (level prev) (startLine prev) (endLine sec)
               content' (EstimateTokens content')]
      | None => result
      end in
    match rest with
    | [] => result'
    | next :: rest' => mergeLoop cfg (S i) next rest' result'
    end
  else
    match rest with
    | next :: rest' =>
        if small then
          let content' := content sec +:+ NL2 +:+ content next in
          mergeLoop cfg (S i)
            (mkSection (heading next) (level next) (startLine sec) (endLine next)
               content' (EstimateTokens content'))
            rest' result
        else mergeLoop cfg (S i) next rest' (result ++ [sec])
    | [] => result ++ [sec]
    end.

Definition mergeSmallSections (cfg : ChunkingConfig) (sections : list mdSection)
    : list mdSection :=
  if (length sections <=? 1)%nat then sections
  else
    match sections with
    | [] => []
    | sec :: rest => mergeLoop cfg 0 sec rest []
    end.

Fixpoint firstHeading (lines : list string) : option string :=
  match lines with
  | [] => None
  | line :: rest =>
      match headingPattern line with
      | Some (_, h) => Some h
      | None => firstHeading rest
      end
  end.

Definition chunkAsFile (content : string) (metadata : FileMetadata) : list Chunk :=
  let contentHash := HashContent content in
  let lines := Strings.Split_nl content in
  let symbol :=
    match firstHeading lines with
    | Some h => h
    | None => md_FilePath metadata
    end in
  [ mkChunk
      (GenerateChunkID (md_ProjectID metadata) (md_FilePath metadata) symbol contentHash)
      content symbol "document" 1 (length lines)
      (EstimateTokens content) contentHash
      (md_FilePath metadata) "markdown" (md_Module metadata) (md_ProjectID metadata) ].

Definition toChunk (metadata : FileMetadata) (sec : mdSection) : Chunk :=
  let contentHash := HashContent (content sec) in
  mkChunk
    (GenerateChunkID (md_ProjectID metadata) (md_FilePath metadata) (heading sec)
       contentHash)
    (content sec) (heading sec) "heading" (startLine sec) (endLine sec)
    (tokens sec) contentHash
    (md_FilePath metadata) "markdown" (md_Module metadata) (md_ProjectID metadata).

Definition Chunk (cfg : ChunkingConfig) (content : string) (metadata : FileMetadata)
    : list Chunk :=
  let lines := Strings.Split_nl content in
  let sections := extractSections lines in
  match sections with
  | [] => chunkAsFile content metadata
  | _ :: _ =>
      let sections := if MergeSmallChunks cfg
                      then mergeSmallSections cfg sections else sections in
      map (toChunk metadata) sections
  end.

End MarkdownChunker.

(** ** generic_chunker.go *)

Module GenericChunker.
Import Chunker.

Definition NL : string := String Strings.nl EmptyString.

Definition singleChunk (content : string) (metadata : FileMetadata) : list Chunk :=
  let contentHash := HashContent content in
  let symbol := Strings.Base (md_FilePath metadata) in
  [ mkChunk
      (GenerateChunkID (md_ProjectID metadata) (md_FilePath metadata) symbol contentHash)
      content symbol "file" 1 (Strings.Count_nl content + 1)
      (EstimateTokens content) contentHash
      (md_FilePath metadata) (md_Language metadata) (md_Module metadata)
      (md_ProjectID metadata) ].

Definition createChunk (lines : list string) (startLine endLine : nat)
    (metadata : FileMetadata) : Chunk :=
  let content := Strings.Join lines NL in
  let contentHash := HashContent content in
  let symbol := Strings.Base (md_FilePath metadata) in
  let symbol :=
    if (1 <? startLine)%nat || (endLine <? Strings.Count_nl content + 1)%nat
    then Strings.ReplaceAll1 (Strings.TrimSuffix symbol (Strings.Ext symbol))
           "."%char "_"%char
    else symbol in
  mkChunk
    (GenerateChunkID (md_ProjectID metadata) (md_FilePath metadata) symbol contentHash)
    content symbol "fragment" startLine endLine
    (EstimateTokens content) contentHash
    (md_FilePath metadata) (md_Language metadata) (md_Module metadata)
    (md_ProjectID metadata).

(** The loop of [Chunk] at index [i]. *)
Fixpoint chunkLoop (cfg : ChunkingConfig) (metadata : FileMetadata)
    (lines : list string) (i : nat) (chunks : list Chunk)
    (currentLines : list string) (currentTokens : nat) (startLine : nat)
    : list Chunk * list string * nat :=
  match lines with
  | [] => (chunks, currentLines, startLine)
  | line :: rest =>
      let lineTokens := EstimateTokens line in
      if (MaxTokens cfg <? Z.of_nat currentTokens + Z.of_nat lineTokens) &&
         (0 <? length currentLines)%nat
      then
        chunkLoop cfg metadata rest (S i)
          (chunks ++ [createChunk currentLines startLine i metadata])
          [line] lineTokens (i + 1)
      else
        chunkLoop cfg metadata rest (S i) chunks
          (currentLines ++ [line]) (currentTokens + lineTokens) startLine
  end.

Definition Chunk (cfg : ChunkingConfig) (content : string) (metadata : FileMetadata)
    : list Chunk :=
  let totalTokens := EstimateTokens content in
  if Z.of_nat totalTokens <=? MaxTokens cfg then singleChunk content metadata
  else
    let lines := Strings.Split_nl content in
    let '(chunks, currentLines, startLine) :=
      chunkLoop cfg metadata lines 0 [] [] 0 1 in
    if (0 <? length currentLines)%nat
    then chunks ++ [createChunk currentLines startLine (length lines) metadata]
    else chunks.

End GenericChunker.

(** ** factory.go of package [chunker] *)

Module Factory.
Import Chunker.

(** The chunkers a [Factory] holds. *)
Inductive Kind := goChunker | markdownChunker | genericChunker.

Definition GetChunker (filePath : string) : Kind :=
  let ext := Strings.ToLower (Strings.Ext filePath) in
  if String.eqb ext ".go" then goChunker
  else if String.eqb ext ".md" || String.eqb ext ".markdown" then markdownChunker
  else genericChunker.

Definition languages : list (string * string) :=
  [ (".go", "go"); (".md", "markdown"); (".markdown", "markdown"); (".py", "python");
    (".js", "javascript"); (".ts", "typescript"); (".jsx", "javascript");
    (".tsx", "typescript"); (".java", "java"); (".rs", "rust"); (".rb", "ruby");
    (".php", "php"); (".c", "c"); (".cpp", "cpp"); (".h", "c"); (".hpp", "cpp");
    (".cs", "csharp"); (".swift", "swift"); (".kt", "kotlin"); (".scala", "scala");
    (".sql", "sql"); (".sh", "shell"); (".bash", "shell"); (".zsh", "shell");
    (".yaml", "yaml"); (".yml", "yaml"); (".json", "json"); (".xml", "xml");
    (".html", "html"); (".css", "css"); (".scss", "scss"); (".less", "less");
    (".vue", "vue"); (".svelte", "svelte") ].

Fixpoint lookup_ext (table : list (string * string)) (ext : string) : option string :=
  match table with
  | [] => None
  | (e, l) :: table' => if String.eqb e ext then Some l else lookup_ext table' ext
  end.

Definition DetectLanguage (filePath : string) : string :=
  match lookup_ext languages (Strings.ToLower (Strings.Ext filePath)) with
  | Some lang => lang
  | None => "text"
  end.

Definition ExtractModule (filePath : string) : string :=
  let dir := Strings.Dir filePath in
  if String.eqb dir "." then EmptyString
  else
    match last (Strings.Split_slash dir) with
    | Some p => p
    | None => EmptyString
    end.

(** [chunkr.Chunk(content, metadata)] for the chunker [GetChunker]
    returned. *)
Definition Chunk (cfg : ChunkingConfig) (ParseFile : GoChunker.Parser) (kind : Kind)
    (content : string) (metadata : FileMetadata) : list Chunk :=
  match kind with
  | goChunker => GoChunker.Chunk cfg ParseFile content metadata
  | markdownChunker => MarkdownChunker.Chunk cfg content metadata
  | genericChunker => GenericChunker.Chunk cfg content metadata
  end.

End Factory.

(** ** Small-chunk merging in the words of the specification (4.1.5)

    Under-sized symbols accumulate in one pending buffer.  At an over-sized
    symbol, pending is prefixed onto it if the combined token count does
    not exceed [max_tokens], and is otherwise flushed as a standalone
    [combined] chunk.  At the end of the file a remaining pending is
    attached to the last emitted large symbol, or emitted alone as
    [combined] if there is none. *)

Module MergePolicy.
Import Chunker.

Section policy.
Context {S : Type}.
Variable tokens : S -> nat.
(** The standalone [combined] chunk made of the pending symbols. *)
Variable combined : list S -> S.
(** A large symbol with pending prefixed onto it. *)
Variable prefix : list S -> S -> S.
(** The last large symbol with the remaining pending attached. *)
Variable attach : S -> list S -> S.

Fixpoint walk (cfg : ChunkingConfig) (symbols result pending : list S) : list S :=
  match symbols with
  | [] =>
      match pending with
      | [] => result
      | _ :: _ =>
          match last result with
          | Some large => removelast result ++ [attach large pending]
          | None => result ++ [combined pending]
          end
      end
  | sym :: rest =>
      if Z.of_nat (tokens sym) <? MinTokens cfg then walk cfg rest result (pending ++ [sym])
      else
        match pending with
        | [] => walk cfg rest (result ++ [sym]) []
        | _ :: _ =>
            if Z.of_nat (tokens (combined pending)) + Z.of_nat (tokens sym) <=? MaxTokens cfg
            then walk cfg rest (result ++ [prefix pending sym]) []
            else walk cfg rest (result ++ [combined pending; sym]) []
        end
  end.

Definition merge (cfg : ChunkingConfig) (symbols : list S) : list S :=
  walk cfg symbols [] [].

End policy.

(** The policy on Go symbols, built from the chunker's own [mergeInto]
    and [combineSymbols]. *)
Definition go (cfg : ChunkingConfig) (symbols : list GoChunker.goSymbol)
    : list GoChunker.goSymbol :=
  merge GoChunker.tokens GoChunker.combineSymbols
        (fun pending sym => GoChunker.mergeInto sym pending)
        GoChunker.mergeInto cfg symbols.

Definition regexCombined (pending : list RegexChunker.symbol) : RegexChunker.symbol :=
  match pending with
  | [] => RegexChunker.mkSymbol EmptyString "combined" 0 0 EmptyString 0 EmptyString
  | first :: smalls =>
      let p := RegexChunker.accumulate first smalls in
      RegexChunker.mkSymbol (RegexChunker.name p) "combined" (RegexChunker.startLine p)
        (RegexChunker.endLine p) (RegexChunker.content p) (RegexChunker.tokens p)
        (RegexChunker.namespace p)
  end.

(** The policy on PHP and TypeScript symbols, built from the chunkers'
    own ways of joining two symbols. *)
Definition regex (cfg : ChunkingConfig) (symbols : list RegexChunker.symbol)
    : list RegexChunker.symbol :=
  merge RegexChunker.tokens regexCombined
        (fun pending sym => RegexChunker.prefixed (regexCombined pending) sym)
        (fun large pending => RegexChunker.absorb large (regexCombined pending))
        cfg symbols.

End MergePolicy.

(** ** The five chunkers side by side *)

Module Chunkers.
Import Chunker.

Inductive Kind := Go | PHP | TypeScript | Markdown | Generic.

(** The parser and the regular-expression engine the chunkers call. *)
Record Engines := mkEngines
  { goParser : GoChunker.Parser;
    phpRegexp : PHPChunker.Regexp;
    tsRegexp : TypeScriptChunker.Regexp }.

(** [out] may be what [Chunk(content, metadata)] returns.  The Go, Markdown
    and generic chunkers are functions of their input; the regex chunkers
    range over a map on the way. *)
Definition may_return (cfg : ChunkingConfig) (eng : Engines) (ch : Kind)
    (content : string) (metadata : FileMetadata) (out : list Chunk) : Prop :=
  match ch with
  | Go => out = GoChunker.Chunk cfg (goParser eng) content metadata
  | PHP =>
      exists matches,
        RegexChunker.ranges_over
          (PHPChunker.deduplicateMatches (PHPChunker.allMatches (phpRegexp eng) content))
          matches /\
        out = PHPChunker.ChunkFrom cfg (phpRegexp eng) content metadata matches
  | TypeScript =>
      exists matches,
        RegexChunker.ranges_over
          (TypeScriptChunker.deduplicateMatches
             (TypeScriptChunker.allMatches (tsRegexp eng) content))
          matches /\
        out = TypeScriptChunker.ChunkFrom cfg content metadata matches
  | Markdown => out = MarkdownChunker.Chunk cfg content metadata
  | Generic => out = GenericChunker.Chunk cfg content metadata
  end.

(** One result, for evaluation. *)
Definition run (cfg : ChunkingConfig) (eng : Engines) (ch : Kind)
    (content : string) (metadata : FileMetadata) : list Chunk :=
  match ch with
  | Go => GoChunker.Chunk cfg (goParser eng) content metadata
  | PHP => PHPChunker.Chunk cfg (phpRegexp eng) content metadata
  | TypeScript => TypeScriptChunker.Chunk cfg (tsRegexp eng) content metadata
  | Markdown => MarkdownChunker.Chunk cfg content metadata
  | Generic => GenericChunker.Chunk cfg content metadata
  end.

(** Symbol extraction found nothing: the parser failed or no declaration
    is a function or a type (Go), no pattern matched (PHP, TypeScript), no
    line is a heading (Markdown).  The generic chunker extracts no
    symbols. *)
Definition no_symbols (eng : Engines) (ch : Kind) (content : string)
    (metadata : FileMetadata) : Prop :=
  match ch with
  | Go =>
      match goParser eng (md_FilePath metadata) content with
      | None => True
      | Some file => GoChunker.extractSymbols file content = []
      end
  | PHP => PHPChunker.allMatches (phpRegexp eng) content = []
  | TypeScript => TypeScriptChunker.allMatches (tsRegexp eng) content = []
  | Markdown =>
      Forall (fun line => MarkdownChunker.headingPattern line = None)
             (Strings.Split_nl content)
  | Generic => False
  end.

(** The branch [Chunk] takes when it has no symbols. *)
Definition fallback (ch : Kind) (content : string) (metadata : FileMetadata)
    : list Chunk :=
  match ch with
  | Go => GoChunker.chunkAsFile content metadata
  | PHP => PHPChunker.chunkAsFile content metadata
  | TypeScript => TypeScriptChunker.chunkAsFile content metadata
  | Markdown => MarkdownChunker.chunkAsFile content metadata
  | Generic => GenericChunker.singleChunk content metadata
  end.

(** The chunkers whose [Chunk] can reach its fallback. *)
Definition falls_back (ch : Kind) : bool :=
  match ch with
  | Go | PHP | TypeScript => true
  | Markdown | Generic => false
  end.

(** Exactly one chunk, of type [symbolType], covering lines 1 to N. *)
Definition whole_file (symbolType : string) (content : string) (out : list Chunk) : Prop :=
  exists c, out = [c] /\ SymbolType c = symbolType /\ StartLine c = 1%nat /\
            EndLine c = length (Strings.Split_nl content).


End Chunkers.

(** ** Package [vectordb]: interface.go and qdrant.go *)

Module VectorDB.

(** A [[]float32], each component by its bit pattern. *)
Definition Vector := list Z.

(** An instant of [time.Now().UTC()]. *)
Definition Time := nat.
Bind Scope nat_scope with Time.

Record Payload := mkPayload
  { ProjectID : string;
    FilePath : string;
    Symbol : string;
    SymbolType : string;
    Language : string;
    Module_ : string;
    StartLine : nat;
    EndLine : nat;
    Content : string;
    ContentHash : string;
    IndexedAt : Time }.

Record Point := mkPoint
  { ID : string;
    Vector_ : Vector;
    Payload_ : Payload }.

Record Filter := mkFilter
  { f_ProjectID : string;
    f_Module : string;
    f_Language : string;
    f_SymbolType : string }.

Record SearchQuery := mkSearchQuery
  { q_Vector : Vector;
    TopK : Z;
    q_Filter : Filter }.

Record SearchResult := mkSearchResult
  { r_ID : string;
    Score : Z;
    r_Payload : Payload }.

(** [stringToUUID]: the first sixteen bytes of SHA-256 of the id, printed
    by ["%08x-%04x-%04x-%04x-%012x"] from the byte slices [hash[0:4]],
    [hash[4:6]], [hash[6:8]], [hash[8:10]] and [hash[10:16]]; each slice
    fills its width exactly, so nothing is padded. *)
Definition stringToUUID (s : string) : string :=
  let hash := SHA256.sum_string s in
  Bytes.hex (take 4 hash) +:+ "-" +:+
  Bytes.hex (take 2 (drop 4 hash)) +:+ "-" +:+
  Bytes.hex (take 2 (drop 6 hash)) +:+ "-" +:+
  Bytes.hex (take 2 (drop 8 hash)) +:+ "-" +:+
  Bytes.hex (take 6 (drop 10 hash)).

(** The layout 8-4-4-4-12 of a 32-character text, as the specification
    words it: hyphens after the 8th, 12th, 16th and 20th character. *)
Definition layout_8_4_4_4_12 (s : string) : string :=
  String.substring 0 8 s +:+ "-" +:+ String.substring 8 4 s +:+ "-" +:+
  String.substring 12 4 s +:+ "-" +:+ String.substring 16 4 s +:+ "-" +:+
  String.substring 20 12 s.

(** A point as Qdrant receives it: the key, the vector, and the payload
    with the chunk id kept under [original_id]. *)
Record qdrantPoint := mkQdrantPoint
  { qp_ID : string;
    qp_Vector : Vector;
    qp_original_id : string;
    qp_Payload : Payload }.

(** The requests the client sends to Qdrant. *)
Inductive Request :=
| PutPoints (points : list qdrantPoint)
| PostDeletePoints (points : list string)
| PostDeleteFilter (project_id : string).

(** [QdrantClient.Upsert]: the request it sends, if any. *)
Definition Upsert (points : list Point) : option Request :=
  match points with
  | [] => None
  | _ :: _ =>
      Some (PutPoints
              (map (fun p => mkQdrantPoint (stringToUUID (ID p)) (Vector_ p) (ID p)
                                (Payload_ p)) points))
  end.

(** [QdrantClient.Delete] *)
Definition Delete (ids : list string) : option Request :=
  match ids with
  | [] => None
  | _ :: _ => Some (PostDeletePoints (map stringToUUID ids))
  end.

(** [QdrantClient.DeleteByFilter] *)
Definition DeleteByFilter (filter : Filter) : option Request :=
  Some (PostDeleteFilter (f_ProjectID filter)).

(** The keys a request addresses. *)
Definition keys (r : Request) : list string :=
  match r with
  | PutPoints ps => map qp_ID ps
  | PostDeletePoints us => us
  | PostDeleteFilter _ => []
  end.

End VectorDB.

(** ** Package [api]: handlers.go and server.go *)

Module Api.
Import VectorDB.

Record RetrieveFilters := mkRetrieveFilters
  { rf_Module : string;
    rf_Language : string;
    rf_SymbolType : string }.

(** [RetrieveRequest]; a field that is absent from the JSON body has Go's
    zero value ([0], the empty string, [nil]). *)
Record RetrieveRequest := mkRetrieveRequest
  { req_ProjectID : string;
    req_Query : string;
    req_TopK : Z;
    req_Filters : option RetrieveFilters }.

Record RetrieveResult := mkRetrieveResult
  { res_Content : string;
    res_Source : string;
    res_Symbol : string;
    res_SymbolType : string;
    res_ProjectID : string;
    res_Module : string;
    res_Language : string;
    res_StartLine : nat;
    res_EndLine : nat;
    res_Score : Z }.

(** A JSON body: the object of [writeError], or a [RetrieveResponse]. *)
Inductive Body :=
| Object (fields : gmap string string)
| Retrieved (results : list RetrieveResult) (query_time_ms : Z).

Record Response := mkResponse
  { status : Z;
    body : Body }.

Definition StatusOK : Z := 200.
Definition StatusBadRequest : Z := 400.
Definition StatusInternalServerError : Z := 500.

(** [writeError]: [writeJSON(w, status, map[string]string{"error": message})] *)
Definition writeError (status : Z) (message : string) : Response :=
  mkResponse status (Object {[ "error" := message ]}).

(** The providers behind [getProviders]: [None] is a returned error. *)
Record Providers := mkProviders
  { Embed : string -> option Vector;
    Search : SearchQuery -> option (list SearchResult) }.

(** A call that reaches a provider. *)
Inductive Call :=
| CallEmbed (text : string)
| CallSearch (query : SearchQuery).

Definition toResult (sr : SearchResult) : RetrieveResult :=
  let p := r_Payload sr in
  mkRetrieveResult (Content p) (FilePath p) (Symbol p) (SymbolType p) (ProjectID p)
                   (VectorDB.Module_ p) (Language p) (StartLine p) (EndLine p) (Score sr).

(** The default and the cap of [top_k]. *)
Definition clampTopK (topK : Z) : Z :=
  let topK := if topK <=? 0 then 5 else topK in
  if 20 <? topK then 20 else topK.

(** [handleRetrieve].  [decoded] is the outcome of
    [json.NewDecoder(r.Body).Decode(&req)] (left: the error text), [elapsed]
    the milliseconds since the handler started.  The result is the
    response written and the provider calls made, in order. *)
Definition handleRetrieve (prov : Providers) (decoded : string + RetrieveRequest)
    (elapsed : Z) : Response * list Call :=
  match decoded with
  | inl err => (writeError StatusBadRequest ("invalid request body: " +:+ err), [])
  | inr req =>
      if String.eqb (req_ProjectID req) EmptyString then
        (writeError StatusBadRequest "project_id is required", [])
      else if String.eqb (req_Query req) EmptyString then
        (writeError StatusBadRequest "query is required", [])
      else
        let topK := clampTopK (req_TopK req) in
        match Embed prov (req_Query req) with
        | None =>
            (writeError StatusInternalServerError "failed to process query",
             [CallEmbed (req_Query req)])
        | Some queryVector =>
            let filter :=
              match req_Filters req with
              | Some f => mkFilter (req_ProjectID req) (rf_Module f) (rf_Language f)
                                   (rf_SymbolType f)
              | None => mkFilter (req_ProjectID req) EmptyString EmptyString EmptyString
              end in
            let query := mkSearchQuery queryVector topK filter in
            match Search prov query with
            | None =>
                (writeError StatusInternalServerError "search failed",
                 [CallEmbed (req_Query req); CallSearch query])
            | Some searchResults =>
                (mkResponse StatusOK (Retrieved (map toResult searchResults) elapsed),
                 [CallEmbed (req_Query req); CallSearch query])
            end
        end
  end.

(** The error codes the specification lists. *)
Definition errorCodes : list string :=
  [ "INVALID_REQUEST"; "MISSING_REQUIRED_FIELD"; "EMBEDDING_FAILED"; "SEARCH_FAILED";
    "SERVICE_DEGRADED" ].

(** A body of shape [{error, code, request_id?}] with a listed code. *)
Definition wellFormedError (b : Body) : Prop :=
  match b with
  | Object fields =>
      is_Some (fields !! "error") /\
      (exists code, fields !! "code" = Some code /\ code ∈ errorCodes) /\
      dom fields ⊆ ({[ "error"; "code"; "request_id" ]} : gset string)
  | Retrieved _ _ => False
  end.

End Api.

(** ** Package [indexer]: cache.go *)

Module Cache.

Definition Time := nat.
Bind Scope nat_scope with Time.

Record CacheEntry := mkCacheEntry
  { ContentHash : string;
    ModTime : Time;
    IndexedAt : Time;
    ChunkIDs : list string }.

(** [CacheFile], the value that is marshalled to disk. *)
Record CacheFile := mkCacheFile
  { cf_ProjectID : string;
    UpdatedAt : Time;
    Files : gmap string CacheEntry }.

(** [Cache] without its mutex. *)
Record Cache := mkCache
  { path : string;
    entries : gmap string CacheEntry;
    dirty : bool }.

(** An oversized-chunk report entry (indexer.go). *)
Record OversizedChunk := mkOversizedChunk
  { oc_FilePath : string;
    oc_Symbol : string;
    oc_TokenCount : nat;
    oc_MaxAllowed : nat;
    oc_ContentSize : nat }.

(** What a file of the cache directory holds.  JSON encoding is one-to-one
    on both file types, so a file is identified with the value that was
    marshalled into it; [Unparsed] is any other content. *)
Inductive FileData :=
| CacheJSON (cf : CacheFile)
| ReportJSON (project_id : string) (generated_at : Time) (chunks : list OversizedChunk)
| Unparsed (data : string).

(** The cache directory: file contents by path. *)
Definition FS := gmap string FileData.

Inductive SaveError :=
| ErrCreateDirectory
| ErrWriteCache
| ErrSaveCache.

(** Whether [os.MkdirAll], [os.WriteFile] and [os.Rename] succeed. *)
Record SaveIO := mkSaveIO
  { mkdir_ok : bool;
    write_ok : bool;
    rename_ok : bool }.

(** [filepath.Join(cacheDir, projectID + ".json")] for a clean, non-empty
    [cacheDir]. *)
Definition cachePath (cacheDir projectID : string) : string :=
  cacheDir +:+ "/" +:+ projectID +:+ ".json".

(** [NewCache] with [load]: a missing file is an empty cache, a file that
    does not parse is an error ([None]). *)
Definition NewCache (cacheDir projectID : string) (fs : FS) : option Cache :=
  let path := cachePath cacheDir projectID in
  match fs !! path with
  | None => Some (mkCache path ∅ false)
  | Some (CacheJSON cf) => Some (mkCache path (Files cf) false)
  | Some _ => None
  end.

(** [Save]: the error it returns, if any, and the directory afterwards. *)
Definition Save (c : Cache) (projectID : string) (now : Time) (io : SaveIO) (fs : FS)
    : option SaveError * FS :=
  if negb (dirty c) then (None, fs)
  else
    let data := CacheJSON (mkCacheFile projectID now (entries c)) in
    if negb (mkdir_ok io) then (Some ErrCreateDirectory, fs)
    else
      let tmpPath := path c +:+ ".tmp" in
      if negb (write_ok io) then (Some ErrWriteCache, fs)
      else
        let fs := <[tmpPath := data]> fs in
        if negb (rename_ok io) then (Some ErrSaveCache, delete tmpPath fs)
        else (None, <[path c := data]> (delete tmpPath fs)).

Definition Get (c : Cache) (filePath : string) : option CacheEntry :=
  entries c !! filePath.

Definition Set_ (c : Cache) (filePath : string) (entry : CacheEntry) : Cache :=
  mkCache (path c) (<[filePath := entry]> (entries c)) true.

Definition Delete (c : Cache) (filePath : string) : Cache :=
  mkCache (path c) (delete filePath (entries c)) true.

Definition HasChanged (c : Cache) (filePath contentHash : string) : bool :=
  match Get c filePath with
  | None => true
  | Some entry => negb (String.eqb (ContentHash entry) contentHash)
  end.

(** [GetAllFiles] ranges over the map: [files] may be its result. *)
Definition GetAllFiles_returns (c : Cache) (files : list string) : Prop :=
  files ≡ₚ (map_to_list (entries c)).*1.

Definition GetChunkIDs (c : Cache) (filePath : string) : list string :=
  match Get c filePath with
  | None => []
  | Some entry => ChunkIDs entry
  end.

Definition Clear (c : Cache) : Cache := mkCache (path c) ∅ true.

Record CacheStats := mkCacheStats
  { FileCount : nat;
    ChunkCount : nat }.

Definition Stats (c : Cache) : CacheStats :=
  mkCacheStats (size (entries c))
    (map_fold (fun _ entry n => (n + length (ChunkIDs entry))%nat) 0%nat (entries c)).

(** The operations that write to a cache. *)
Inductive Op :=
| OpSet (filePath : string) (entry : CacheEntry)
| OpDelete (filePath : string)
| OpClear.

Definition apply (c : Cache) (op : Op) : Cache :=
  match op with
  | OpSet f e => Set_ c f e
  | OpDelete f => Delete c f
  | OpClear => Clear c
  end.

End Cache.

(** ** Package [indexer]: indexer.go *)

Module Indexer.
Import Cache.

Record discoveredFile := mkDiscovered
  { absPath : string;
    relPath : string }.

Record fileToProcess := mkFileToProcess
  { ftp_absPath : string;
    ftp_relPath : string;
    contentHash : string }.

Inductive Error :=
| ErrInitializeCache
| ErrClearVectors
| ErrDiscoverFiles
| ErrHash (relPath : string)
| ErrDeleteChunks (filePath : string)
| ErrFile (relPath : string)
| ErrEmbedBatch
| ErrUpsert
| ErrSave (e : SaveError).

(** [IndexResult] without the wall-clock [Duration]. *)
Record IndexResult := mkIndexResult
  { FilesScanned : nat;
    FilesIndexed : nat;
    FilesSkipped : nat;
    FilesDeleted : nat;
    ChunksCreated : nat;
    ChunksDeleted : nat;
    OversizedChunks : list OversizedChunk;
    Errors : list Error }.

(** A call to the embedding provider or to the vector store. *)
Inductive Call :=
| EmbedBatch (texts : list string)
| VdbUpsert (points : list VectorDB.Point)
| VdbDelete (ids : list string)
| VdbDeleteByFilter (project_id : string).

(** Everything a run depends on besides the cache directory: the
    configuration, the source tree, the providers' answers ([None] or
    [false] is a returned error), and the two choices of the Go runtime:
    the order in which [range] visits the cache map, and the results that
    arrive on [resultCh], in their order of arrival ([arrival], applied to
    the queued files: all of them, or only some of them when the context
    is cancelled and the workers return before they take the next
    file). *)
Record Env := mkEnv
  { cacheDir : string;
    chunking : Chunker.ChunkingConfig;
    batchSize : nat;
    ParseFile : GoChunker.Parser;
    walk : option (list discoveredFile);
    sources : gmap string string;
    embedBatch : list string -> option (list VectorDB.Vector);
    vdbDelete : list string -> bool;
    vdbUpsert : list VectorDB.Point -> bool;
    vdbDeleteByFilter : string -> bool;
    saveIO : SaveIO;
    reportIO : bool;
    rangeFiles : gmap string CacheEntry -> list string;
    arrival : list fileToProcess -> list fileToProcess }.

(** The runtime's choices are orders, nothing more: the context is not
    cancelled while the workers run, and every queued file gives a
    result. *)
Definition fair (env : Env) : Prop :=
  (forall m, rangeFiles env m ≡ₚ (map_to_list m).*1) /\
  (forall l, arrival env l ≡ₚ l).

(** Any run, cancelled or not.  A worker starts its round with
    [select { case <-ctx.Done(): return; default: }], so that after a
    cancellation the files still queued give no result; the results that
    do arrive are those of queued files, each at most once. *)
Definition interruptible (env : Env) : Prop :=
  (forall m, rangeFiles env m ≡ₚ (map_to_list m).*1) /\
  (forall l, arrival env l ⊆+ l).

(** The state a run threads through: cache, cache directory, clock, and the
    provider calls made so far (oldest first). *)
Record State := mkState
  { cache : Cache;
    fs : FS;
    clock : Time;
    calls : list Call }.

(** How a piece of the run ends. *)
Inductive Exit (A : Type) :=
| Returns (a : A)
| Fails (e : Error)
| Panics
| Diverges.
Arguments Returns {A} a.
Arguments Fails {A} e.
Arguments Panics {A}.
Arguments Diverges {A}.

Definition maxTokens : nat := 2048.

(** [int(float64(len(c.Content)) / charsPerToken)] with
    [charsPerToken = 2.5].  The quotient [n / 2.5] is [2n / 5]; its
    fractional part is a multiple of one fifth, far from the rounding error
    of a [float64] division for any length below 2^50, so the truncated
    result is the integer quotient. *)
Definition estimatedTokens (contentLen : nat) : nat := (2 * contentLen / 5)%nat.

(** [hashFile] *)
Definition hashFile (env : Env) (path : string) : option string :=
  match sources env !! path with
  | Some content => Some (Bytes.hex (SHA256.sum_string content))
  | None => None
  end.

(** A discovered file that the change partition skips: it can be hashed
    and the cache holds that hash. *)
Definition skipped_as_unchanged (env : Env) (cache : Cache)
    (file : discoveredFile) : Prop :=
  exists h, hashFile env (absPath file) = Some h /\
            HasChanged cache (relPath file) h = false.

(** [processFile]: [None] is the read error. *)
Definition processFile (env : Env) (projectID : string) (file : fileToProcess)
    : option (list Chunker.Chunk) :=
  match sources env !! ftp_absPath file with
  | None => None
  | Some content =>
      let metadata :=
        Chunker.mkFileMetadata (ftp_relPath file)
          (Factory.DetectLanguage (ftp_relPath file))
          (Factory.ExtractModule (ftp_relPath file)) projectID in
      Some (Factory.Chunk (chunking env) (ParseFile env)
              (Factory.GetChunker (ftp_relPath file)) content metadata)
  end.

(** What a worker sends on [resultCh] for one file. *)
Record fileResult := mkFileResult
  { fr_relPath : string;
    fr_chunks : list Chunker.Chunk;
    fr_chunkIDs : list string;
    fr_hash : string;
    fr_oversized : list OversizedChunk;
    fr_err : bool }.

Definition oversizedOf (relPath : string) (c : Chunker.Chunk) : list OversizedChunk :=
  let estimated := estimatedTokens (String.length (Chunker.Content c)) in
  if (maxTokens <? estimated)%nat
  then [mkOversizedChunk relPath (Chunker.Symbol c) estimated maxTokens
          (String.length (Chunker.Content c))]
  else [].

(** The body of a worker's loop. *)
Definition work (env : Env) (projectID : string) (file : fileToProcess) : fileResult :=
  let r := processFile env projectID file in
  let chunks := default [] r in
  mkFileResult (ftp_relPath file) chunks (map Chunker.ID chunks) (contentHash file)
    (flat_map (oversizedOf (ftp_relPath file)) chunks)
    (match r with None => true | Some _ => false end).

Definition toPoint (indexedAt : Time) (vector : VectorDB.Vector) (c : Chunker.Chunk)
    : VectorDB.Point :=
  VectorDB.mkPoint (Chunker.ID c) vector
    (VectorDB.mkPayload (Chunker.ProjectID c) (Chunker.FilePath c) (Chunker.Symbol c)
       (Chunker.SymbolType c) (Chunker.Language c) (Chunker.Module_ c)
       (Chunker.StartLine c) (Chunker.EndLine c) (Chunker.Content c)
       (Chunker.ContentHash c) indexedAt).

(** The batching loop of [upsertChunks] over the texts still to embed.
    [fuel] (the number of texts) is enough for every positive batch size;
    with a batch size of zero the loop would never advance, but
    [upsertChunks] does not reach it then. *)
Fixpoint embedLoop (env : Env) (fuel : nat) (texts : list string)
    (allVectors : list VectorDB.Vector) (calls : list Call)
    : Exit (list VectorDB.Vector) * list Call :=
  match texts with
  | [] => (Returns allVectors, calls)
  | _ :: _ =>
      match fuel with
      | O => (Diverges, calls)
      | S fuel' =>
          let batch := take (batchSize env) texts in
          let calls := calls ++ [EmbedBatch batch] in
          match embedBatch env batch with
          | None => (Fails ErrEmbedBatch, calls)
          | Some vectors =>
              embedLoop env fuel' (drop (batchSize env) texts) (allVectors ++ vectors) calls
          end
      end
  end.

(** [points[i]] from [chunks[i]] and [allVectors[i]]; [None] when a vector
    is missing (index out of range). *)
Fixpoint makePoints (indexedAt : Time) (chunks : list Chunker.Chunk)
    (allVectors : list VectorDB.Vector) : option (list VectorDB.Point) :=
  match chunks with
  | [] => Some []
  | c :: chunks' =>
      match allVectors with
      | [] => None
      | v :: vs =>
          match makePoints indexedAt chunks' vs with
          | Some ps => Some (toPoint indexedAt v c :: ps)
          | None => None
          end
      end
  end.

(** [upsertChunks].  With a batch size of zero,
    [totalBatches := (len(texts) + batchSize - 1) / batchSize] panics on
    the division before any batch is sent.  (A negative batch size, which
    [batchSize : nat] leaves out, panics on the first slice.) *)
Definition upsertChunks (env : Env) (chunks : list Chunker.Chunk) (st : State)
    : Exit unit * State :=
  match chunks with
  | [] => (Returns tt, st)
  | _ :: _ =>
      let texts := map Chunker.Content chunks in
      if (batchSize env =? 0)%nat then (Panics, st) else
      match embedLoop env (length texts) texts [] (calls st) with
      | (Returns allVectors, calls) =>
          let indexedAt := clock st in
          let st := mkState (cache st) (fs st) (S (clock st)) calls in
          match makePoints indexedAt chunks allVectors with
          | None => (Panics, st)
          | Some points =>
              let st := mkState (cache st) (fs st) (clock st)
                          (calls ++ [VdbUpsert points]) in
              if vdbUpsert env points then (Returns tt, st) else (Fails ErrUpsert, st)
          end
      | (Fails e, calls) => (Fails e, mkState (cache st) (fs st) (clock st) calls)
      | (Panics, calls) => (Panics, mkState (cache st) (fs st) (clock st) calls)
      | (Diverges, calls) => (Diverges, mkState (cache st) (fs st) (clock st) calls)
      end
  end.

Record processResult := mkProcessResult
  { filesIndexed : nat;
    chunksCreated : nat;
    oversizedChunks : list OversizedChunk;
    errors : list Error }.

(** The loop that collects [resultCh]. *)
Fixpoint collect (results : list fileResult) (result : processResult)
    (allChunks : list Chunker.Chunk) (cache : Cache) (clock : Time)
    : processResult * list Chunker.Chunk * Cache * Time :=
  match results with
  | [] => (result, allChunks, cache, clock)
  | res :: rest =>
      if fr_err res then
        collect rest
          (mkProcessResult (filesIndexed result) (chunksCreated result)
             (oversizedChunks result) (errors result ++ [ErrFile (fr_relPath res)]))
          allChunks cache clock
      else
        collect rest
          (mkProcessResult (S (filesIndexed result))
             (chunksCreated result + length (fr_chunks res))
             (oversizedChunks result ++ fr_oversized res) (errors result))
          (allChunks ++ fr_chunks res)
          (Set_ cache (fr_relPath res)
             (mkCacheEntry (fr_hash res) clock (S clock) (fr_chunkIDs res)))
          (S (S clock))
  end.

(** [processFiles].  The workers' results are those of the files
    [arrival env files]; the collecting loop and the upsert that follows
    run whether or not the context was cancelled (a cancelled context
    makes the provider calls fail, which is up to [embedBatch] and
    [vdbUpsert]). *)
Definition processFiles (env : Env) (projectID : string) (files : list fileToProcess)
    (st : State) : Exit processResult * State :=
  match files with
  | [] => (Returns (mkProcessResult 0 0 [] []), st)
  | _ :: _ =>
      let results := map (work env projectID) (arrival env files) in
      let '(result, allChunks, cache, clock) :=
        collect results (mkProcessResult 0 0 [] []) [] (cache st) (clock st) in
      let st := mkState cache (fs st) clock (calls st) in
      match allChunks with
      | [] => (Returns result, st)
      | _ :: _ =>
          match upsertChunks env allChunks st with
          | (Returns _, st) => (Returns result, st)
          | (Fails e, st) =>
              (Returns (mkProcessResult (filesIndexed result) (chunksCreated result)
                          (oversizedChunks result) (errors result ++ [e])), st)
          | (Panics, st) => (Panics, st)
          | (Diverges, st) => (Diverges, st)
          end
      end
  end.

(** [findDeletedFiles] *)
Definition findDeletedFiles (env : Env) (cache : Cache) (currentFiles : list discoveredFile)
    : list string :=
  filter (fun cachedPath => cachedPath ∉ map relPath currentFiles)
         (rangeFiles env (entries cache)).

(** The loop over [deletedFiles] in [IndexProject]. *)
Fixpoint reap (env : Env) (deletedFiles : list string) (result : IndexResult) (st : State)
    : IndexResult * State :=
  match deletedFiles with
  | [] => (result, st)
  | filePath :: rest =>
      let chunkIDs := GetChunkIDs (cache st) filePath in
      let '(result, calls) :=
        match chunkIDs with
        | [] => (result, calls st)
        | _ :: _ =>
            if vdbDelete env chunkIDs then
              (mkIndexResult (FilesScanned result) (FilesIndexed result)
                 (FilesSkipped result) (FilesDeleted result) (ChunksCreated result)
                 (ChunksDeleted result + length chunkIDs) (OversizedChunks result)
                 (Errors result),
               calls st ++ [VdbDelete chunkIDs])
            else
              (mkIndexResult (FilesScanned result) (FilesIndexed result)
                 (FilesSkipped result) (FilesDeleted result) (ChunksCreated result)
                 (ChunksDeleted result) (OversizedChunks result)
                 (Errors result ++ [ErrDeleteChunks filePath]),
               calls st ++ [VdbDelete chunkIDs])
        end in
      reap env rest
        (mkIndexResult (FilesScanned result) (FilesIndexed result) (FilesSkipped result)
           (S (FilesDeleted result)) (ChunksCreated result) (ChunksDeleted result)
           (OversizedChunks result) (Errors result))
        (mkState (Delete (cache st) filePath) (fs st) (clock st) calls)
  end.

(** The loop that partitions the discovered files into changed and
    skipped. *)
Fixpoint partition (env : Env) (fullIndex : bool) (cache : Cache)
    (files : list discoveredFile) (result : IndexResult)
    (filesToProcess : list fileToProcess) : IndexResult * list fileToProcess :=
  match files with
  | [] => (result, filesToProcess)
  | file :: rest =>
      match hashFile env (absPath file) with
      | None =>
          partition env fullIndex cache rest
            (mkIndexResult (FilesScanned result) (FilesIndexed result)
               (FilesSkipped result) (FilesDeleted result) (ChunksCreated result)
               (ChunksDeleted result) (OversizedChunks result)
               (Errors result ++ [ErrHash (relPath file)]))
            filesToProcess
      | Some contentHash =>
          if negb fullIndex && negb (HasChanged cache (relPath file) contentHash) then
            partition env fullIndex cache rest
              (mkIndexResult (FilesScanned result) (FilesIndexed result)
                 (S (FilesSkipped result)) (FilesDeleted result) (ChunksCreated result)
                 (ChunksDeleted result) (OversizedChunks result) (Errors result))
              filesToProcess
          else
            partition env fullIndex cache rest result
              (filesToProcess ++ [mkFileToProcess (absPath file) (relPath file) contentHash])
      end
  end.

Definition reportPath (cacheDir projectID : string) : string :=
  cacheDir +:+ "/reports/" +:+ projectID +:+ "-oversized.json".

(** [saveOversizedReport]; a failure is only logged. *)
Definition saveOversizedReport (env : Env) (projectID : string)
    (chunks : list OversizedChunk) (st : State) : State :=
  if reportIO env then
    mkState (cache st)
      (<[reportPath (cacheDir env) projectID := ReportJSON projectID (clock st) chunks]>
         (fs st))
      (S (clock st)) (calls st)
  else st.

(** [IndexProject]: [Fails] is the error return with a nil result. *)
Definition IndexProject (env : Env) (projectID : string) (fullIndex : bool) (st0 : State)
    : Exit IndexResult * State :=
  match NewCache (cacheDir env) projectID (fs st0) with
  | None => (Fails ErrInitializeCache, st0)
  | Some cache =>
      let st := mkState cache (fs st0) (clock st0) (calls st0) in
      let st :=
        if fullIndex then
          mkState (Clear cache) (fs st) (clock st)
            (calls st ++ [VdbDeleteByFilter projectID])
        else st in
      if fullIndex && negb (vdbDeleteByFilter env projectID) then (Fails ErrClearVectors, st)
      else
      match walk env with
      | None => (Fails ErrDiscoverFiles, st)
      | Some files =>
          let result := mkIndexResult (length files) 0 0 0 0 0 [] [] in
          let '(result, st) :=
            if fullIndex then (result, st)
            else reap env (findDeletedFiles env (Indexer.cache st) files) result st in
          let '(result, filesToProcess) :=
            partition env fullIndex (Indexer.cache st) files result [] in
          match processFiles env projectID filesToProcess st with
          | (Returns pr, st) =>
              let result :=
                mkIndexResult (FilesScanned result) (filesIndexed pr) (FilesSkipped result)
                  (FilesDeleted result) (chunksCreated pr) (ChunksDeleted result)
                  (oversizedChunks pr) (Errors result ++ errors pr) in
              let st :=
                match OversizedChunks result with
                | [] => st
                | _ :: _ => saveOversizedReport env projectID (OversizedChunks result) st
                end in
              let '(err, fs') :=
                Save (Indexer.cache st) projectID (clock st) (saveIO env) (fs st) in
              let st := mkState (Indexer.cache st) fs'
                          (if dirty (Indexer.cache st) then S (clock st) else clock st)
                          (calls st) in
              let result :=
                match err with
                | Some e =>
                    mkIndexResult (FilesScanned result) (FilesIndexed result)
                      (FilesSkipped result) (FilesDeleted result) (ChunksCreated result)
                      (ChunksDeleted result) (OversizedChunks result)
                      (Errors result ++ [ErrSave e])
                | None => result
                end in
              (Returns result, st)
          | (Fails e, st) => (Fails e, st)
          | (Panics, st) => (Panics, st)
          | (Diverges, st) => (Diverges, st)
          end
      end
  end.

End Indexer.

(** ** interface.go: lines with their numbers *)

Module Lines.

Record Line := mkLine
  { Number : nat;
    Content : string }.

Definition SplitIntoLines (content : string) : list Line :=
  imap (fun i l => mkLine (i + 1) l) (Strings.Split_nl content).

Definition JoinLines (lines : list Line) : string :=
  Strings.Join (map Content lines) (String Strings.nl EmptyString).

End Lines.

(** ** Line ranges *)

Module Layout.

(** Inclusive line ranges that follow one another from line [a] to line
    [b]: the first starts at [a], each next one starts on the line after
    the previous one ends, the last ends at [b], and none is empty. *)
Fixpoint tiles (a b : nat) (ranges : list (nat * nat)) : Prop :=
  match ranges with
  | [] => a = S b
  | (s, e) :: rest => s = a /\ (s <= e)%nat /\ tiles (S e) b rest
  end.

Definition chunkRange (c : Chunker.Chunk) : nat * nat :=
  (Chunker.StartLine c, Chunker.EndLine c).

Definition sectionRange (s : MarkdownChunker.mdSection) : nat * nat :=
  (MarkdownChunker.startLine s, MarkdownChunker.endLine s).

(** The sum of the per-line token estimates, which the generic chunker
    accumulates in [currentTokens]. *)
Definition lineTokens (lines : list string) : nat :=
  foldr (fun line n => (Chunker.EstimateTokens line + n)%nat) 0%nat lines.

End Layout.

(** ** Package [config]: project.go and config.go *)

Module Config.

Record ProjectChunkingConfig := mkProjectChunkingConfig
  { CodeStrategy : string;
    MarkdownStrategy : string;
    pc_MinTokens : Z;
    pc_IdealTokens : Z;
    pc_MaxTokens : Z }.

Record ProjectMetadata := mkProjectMetadata
  { Team : string;
    Tags : list string }.

Record ProjectConfig := mkProjectConfig
  { ProjectID : string;
    DisplayName : string;
    SourcePath : string;
    IncludeExtensions : list string;
    ExcludePaths : list string;
    Chunking : ProjectChunkingConfig;
    Metadata : ProjectMetadata }.

(** [ShouldIncludeFile]: the loop returns at the first extension that
    matches. *)
Definition ShouldIncludeFile (p : ProjectConfig) (path : string) : bool :=
  let ext := Strings.ToLower (Strings.Ext path) in
  existsb (fun e => String.eqb (Strings.ToLower e) ext) (IncludeExtensions p).

(** [filepath.Match(pattern, name)]; [None] is [ErrBadPattern]. *)
Definition Matcher := string -> string -> option bool.

(** One round of the loop of [ShouldExcludePath]. *)
Definition excludedBy (Match : Matcher) (path pattern : string) : bool :=
  Strings.HasPrefix path pattern ||
  match Match pattern (Strings.Base path) with
  | Some matched => matched
  | None => false
  end ||
  (Strings.HasSuffix pattern "/" && Strings.Contains path pattern).

Definition ShouldExcludePath (Match : Matcher) (p : ProjectConfig) (path : string) : bool :=
  existsb (excludedBy Match path) (ExcludePaths p).

Definition GetChunkingStrategy (p : ProjectConfig) (path : string) : string :=
  let ext := Strings.ToLower (Strings.Ext path) in
  if String.eqb ext ".go" then
    if negb (String.eqb (CodeStrategy (Chunking p)) EmptyString)
    then CodeStrategy (Chunking p) else "function"
  else if String.eqb ext ".md" || String.eqb ext ".markdown" then
    if negb (String.eqb (MarkdownStrategy (Chunking p)) EmptyString)
    then MarkdownStrategy (Chunking p) else "heading"
  else "fixed".

(** [GetEffectiveChunking].  [config.ChunkingConfig] and
    [chunker.ChunkingConfig] have the same four fields, and [NewFactory]
    copies one into the other field by field; they are one record here. *)
Definition GetEffectiveChunking (p : ProjectConfig) (global : Chunker.ChunkingConfig)
    : Chunker.ChunkingConfig :=
  let c := Chunking p in
  Chunker.mkChunkingConfig
    (if 0 <? pc_MinTokens c then pc_MinTokens c else Chunker.MinTokens global)
    (if 0 <? pc_IdealTokens c then pc_IdealTokens c else Chunker.IdealTokens global)
    (if 0 <? pc_MaxTokens c then pc_MaxTokens c else Chunker.MaxTokens global)
    (Chunker.MergeSmallChunks global).

Inductive ProjectError :=
| ErrProjectIDRequired
| ErrProjectIDFormat
| ErrSourcePathRequired
| ErrIncludeExtensionRequired
| ErrCodeStrategy (strategy : string)
| ErrMarkdownStrategy (strategy : string).

(** [(c >= 'a' && c <= 'z') || (c >= '0' && c <= '9') || c == '-'].  The
    source ranges over runes; a rune outside ASCII fails the test, and so
    does each of its bytes. *)
Definition idChar (c : ascii) : bool :=
  let n := nat_of_ascii c in
  ((97 <=? n) && (n <=? 122))%nat || ((48 <=? n) && (n <=? 57))%nat || (n =? 45)%nat.

Definition validCodeStrategy (s : string) : bool :=
  String.eqb s "function" || String.eqb s "file" || String.eqb s "fixed" ||
  String.eqb s EmptyString.

Definition validMarkdownStrategy (s : string) : bool :=
  String.eqb s "heading" || String.eqb s "paragraph" || String.eqb s "fixed" ||
  String.eqb s EmptyString.

(** [Validate]: the error it returns, if any. *)
Definition Validate (p : ProjectConfig) : option ProjectError :=
  if String.eqb (ProjectID p) EmptyString then Some ErrProjectIDRequired
  else if negb (forallb idChar (String.list_ascii_of_string (ProjectID p)))
  then Some ErrProjectIDFormat
  else if String.eqb (SourcePath p) EmptyString then Some ErrSourcePathRequired
  else if (length (IncludeExtensions p) =? 0)%nat then Some ErrIncludeExtensionRequired
  else if negb (validCodeStrategy (CodeStrategy (Chunking p)))
  then Some (ErrCodeStrategy (CodeStrategy (Chunking p)))
  else if negb (validMarkdownStrategy (MarkdownStrategy (Chunking p)))
  then Some (ErrMarkdownStrategy (MarkdownStrategy (Chunking p)))
  else None.

Definition applyProjectDefaults (cfg : ProjectConfig) : ProjectConfig :=
  let c := Chunking cfg in
  mkProjectConfig
    (ProjectID cfg)
    (if String.eqb (DisplayName cfg) EmptyString then ProjectID cfg else DisplayName cfg)
    (SourcePath cfg)
    (IncludeExtensions cfg)
    (if (length (ExcludePaths cfg) =? 0)%nat
     then [".git/"; "vendor/"; "node_modules/"] else ExcludePaths cfg)
    (mkProjectChunkingConfig
       (if String.eqb (CodeStrategy c) EmptyString then "function" else CodeStrategy c)
       (if String.eqb (MarkdownStrategy c) EmptyString then "heading"
        else MarkdownStrategy c)
       (pc_MinTokens c) (pc_IdealTokens c) (pc_MaxTokens c))
    (Metadata cfg).

(** [LoadProjectConfig] once the file was read and parsed into [cfg]. *)
Definition LoadProjectConfig (cfg : ProjectConfig) : ProjectError + ProjectConfig :=
  let cfg := applyProjectDefaults cfg in
  match Validate cfg with
  | Some e => inl e
  | None => inr cfg
  end.

Record EmbeddingConfig := mkEmbeddingConfig
  { e_Provider : string;
    e_Model : string;
    e_Endpoint : string;
    Dimensions : Z;
    BatchSize : Z;
    e_Timeout : string;
    APIKeyEnv : string }.

Record VectorDBConfig := mkVectorDBConfig
  { v_Provider : string;
    v_Endpoint : string;
    CollectionName : string;
    v_Timeout : string }.

Record ProjectsConfig := mkProjectsConfig
  { ConfigDir : string;
    SourceBasePath : string }.

Record CacheConfig := mkCacheConfig
  { Dir : string;
    c_Format : string }.

Record ServerConfig := mkServerConfig
  { Port : Z;
    ReadTimeout : string;
    WriteTimeout : string;
    ShutdownTimeout : string }.

Record LoggingConfig := mkLoggingConfig
  { Level : string;
    l_Format : string }.

Record Config := mkConfig
  { Embedding : EmbeddingConfig;
    VectorDB : VectorDBConfig;
    Projects : ProjectsConfig;
    g_Chunking : Chunker.ChunkingConfig;
    Cache : CacheConfig;
    Server : ServerConfig;
    Logging : LoggingConfig }.

(** [if field == "" { field = value }] *)
Definition orString (field value : string) : string :=
  if String.eqb field EmptyString then value else field.

(** [if field == 0 { field = value }] *)
Definition orInt (field value : Z) : Z :=
  if field =? 0 then value else field.

Definition applyDefaults (cfg : Config) : Config :=
  let e := Embedding cfg in
  let v := VectorDB cfg in
  let p := Projects cfg in
  let k := g_Chunking cfg in
  let c := Cache cfg in
  let s := Server cfg in
  let l := Logging cfg in
  mkConfig
    (mkEmbeddingConfig (orString (e_Provider e) "ollama")
       (orString (e_Model e) "nomic-embed-text")
       (orString (e_Endpoint e) "http://ollama:11434")
       (orInt (Dimensions e) 768) (orInt (BatchSize e) 32)
       (orString (e_Timeout e) "30s") (APIKeyEnv e))
    (mkVectorDBConfig (orString (v_Provider v) "qdrant")
       (orString (v_Endpoint v) "http://qdrant:6333")
       (orString (CollectionName v) "code_chunks")
       (orString (v_Timeout v) "30s"))
    (mkProjectsConfig (orString (ConfigDir p) "/app/configs/projects")
       (orString (SourceBasePath p) "/sources"))
    (Chunker.mkChunkingConfig (orInt (Chunker.MinTokens k) 200)
       (orInt (Chunker.IdealTokens k) 500) (orInt (Chunker.MaxTokens k) 800)
       (Chunker.MergeSmallChunks k))
    (mkCacheConfig (orString (Dir c) "/app/data/index-cache") (orString (c_Format c) "json"))
    (mkServerConfig (orInt (Port s) 8080) (orString (ReadTimeout s) "30s")
       (orString (WriteTimeout s) "30s") (orString (ShutdownTimeout s) "10s"))
    (mkLoggingConfig (orString (Level l) "info") (orString (l_Format l) "json")).

Inductive ConfigError :=
| ErrEmbeddingProvider (provider : string)
| ErrDimensions
| ErrVectorDBProvider (provider : string)
| ErrTokenWindow
| ErrPort.

Definition validEmbeddingProvider (s : string) : bool :=
  String.eqb s "ollama" || String.eqb s "openai" || String.eqb s "huggingface".

Definition validVectorDBProvider (s : string) : bool :=
  String.eqb s "qdrant" || String.eqb s "milvus" || String.eqb s "weaviate".

(** [validate]: the error it returns, if any. *)
Definition validate (cfg : Config) : option ConfigError :=
  if negb (validEmbeddingProvider (e_Provider (Embedding cfg)))
  then Some (ErrEmbeddingProvider (e_Provider (Embedding cfg)))
  else if Dimensions (Embedding cfg) <=? 0 then Some ErrDimensions
  else if negb (validVectorDBProvider (v_Provider (VectorDB cfg)))
  then Some (ErrVectorDBProvider (v_Provider (VectorDB cfg)))
  else if Chunker.MaxTokens (g_Chunking cfg) <=? Chunker.MinTokens (g_Chunking cfg)
  then Some ErrTokenWindow
  else if (Port (Server cfg) <? 1) || (65535 <? Port (Server cfg)) then Some ErrPort
  else None.

(** [Manager.Load] once the file was read and parsed into [cfg]. *)
Definition ManagerLoad (cfg : Config) : ConfigError + Config :=
  let cfg := applyDefaults cfg in
  match validate cfg with
  | Some e => inl e
  | None => inr cfg
  end.

End Config.

(** ** factory.go of package [chunker]: the chunker of a strategy *)

Module Strategy.

Definition GetChunkerByStrategy (strategy : string) : Factory.Kind :=
  if String.eqb strategy "function" then Factory.goChunker
  else if String.eqb strategy "heading" then Factory.markdownChunker
  else Factory.genericChunker.

End Strategy.

(** ** Package [embedder]: ollama.go and openai.go *)

Module Embedder.

Definition Vector := VectorDB.Vector.

(** What one HTTP exchange comes to: no response at all, or a status code
    together with the body as [json.Decode] reads it ([None]: it does not
    decode). *)
Inductive Reply (A : Type) :=
| NoResponse
| Response (status : Z) (body : option A).
Arguments NoResponse {A}.
Arguments Response {A} status body.

Inductive Error :=
| ErrRequest
| ErrStatus (status : Z)
| ErrDecode
| ErrEmptyEmbedding
| ErrText (i : nat) (e : Error)
| ErrApi (message : string)
| ErrNoEmbeddings
| ErrContext.

(** [OllamaEmbedder.Embed]; [post] is the exchange for a prompt. *)
Definition ollamaEmbed (post : string -> Reply Vector) (text : string) : Error + Vector :=
  match post text with
  | NoResponse => inl ErrRequest
  | Response status body =>
      if negb (status =? 200) then inl (ErrStatus status)
      else
        match body with
        | None => inl ErrDecode
        | Some embedding =>
            if (length embedding =? 0)%nat then inl ErrEmptyEmbedding else inr embedding
        end
  end.

(** The loop of [OllamaEmbedder.EmbedBatch] at index [i]: the result, and
    the prompts posted, in order.  [cancelled i] is whether [ctx.Done()]
    is ready when the loop comes to text [i]; the loop then returns
    [ctx.Err()] ([ErrContext]) without posting that text. *)
Fixpoint ollamaLoop (cancelled : nat -> bool) (post : string -> Reply Vector)
    (texts : list string) (i : nat) (results : list Vector) (posted : list string)
    : (Error + list Vector) * list string :=
  match texts with
  | [] => (inr results, posted)
  | text :: rest =>
      if cancelled i then (inl ErrContext, posted)
      else
        match ollamaEmbed post text with
        | inl e => (inl (ErrText i e), posted ++ [text])
        | inr embedding =>
            ollamaLoop cancelled post rest (S i) (results ++ [embedding]) (posted ++ [text])
        end
  end.

Definition ollamaEmbedBatch (cancelled : nat -> bool) (post : string -> Reply Vector)
    (texts : list string) : (Error + list Vector) * list string :=
  ollamaLoop cancelled post texts 0 [] [].

(** [openAIEmbedResponse]: the entries of [data] as (index, embedding),
    and the message of [error] if the field is present. *)
Record openAIEmbedResponse := mkOpenAIEmbedResponse
  { Data : list (Z * Vector);
    Error_ : option string }.

Inductive Outcome (A : Type) :=
| Returns (a : A)
| Fails (e : Error)
| Panics.
Arguments Returns {A} a.
Arguments Fails {A} e.
Arguments Panics {A}.

(** [if d.Index < len(vectors) { vectors[d.Index] = d.Embedding }]; [None]
    is the index-out-of-range panic of a negative index. *)
Definition place (vectors : list Vector) (d : Z * Vector) : option (list Vector) :=
  if d.1 <? Z.of_nat (length vectors) then
    if d.1 <? 0 then None else Some (<[Z.to_nat d.1 := d.2]> vectors)
  else Some vectors.

Fixpoint placeAll (data : list (Z * Vector)) (vectors : list Vector)
    : option (list Vector) :=
  match data with
  | [] => Some vectors
  | d :: rest =>
      match place vectors d with
      | None => None
      | Some vectors => placeAll rest vectors
      end
  end.

(** [OpenAIEmbedder.EmbedBatch]; a vector that no entry fills stays [nil],
    the empty list. *)
Definition openAIEmbedBatch (post : list string -> Reply openAIEmbedResponse)
    (texts : list string) : Outcome (list Vector) :=
  match post texts with
  | NoResponse => Fails ErrRequest
  | Response status body =>
      if negb (status =? 200) then Fails (ErrStatus status)
      else
        match body with
        | None => Fails ErrDecode
        | Some result =>
            match Error_ result with
            | Some message => Fails (ErrApi message)
            | None =>
                if (length (Data result) =? 0)%nat then Fails ErrNoEmbeddings
                else
                  match placeAll (Data result) (replicate (length texts) []) with
                  | None => Panics
                  | Some vectors => Returns vectors
                  end
            end
        end
  end.

(** [OpenAIEmbedder.Embed] *)
Definition openAIEmbed (post : list string -> Reply openAIEmbedResponse) (text : string)
    : Outcome Vector :=
  match openAIEmbedBatch post [text] with
  | Returns results =>
      match results with
      | [] => Fails ErrNoEmbeddings
      | v :: _ => Returns v
      end
  | Fails e => Fails e
  | Panics => Panics
  end.

End Embedder.

(** ** qdrant.go: the search request *)

Module Qdrant.
Import VectorDB.

Record qdrantCondition := mkCondition
  { Key : string;
    Value : string }.

(** [qdrantSearchRequest].  [filter] is omitted when the pointer is nil;
    [score_threshold] is omitted from the JSON when it is zero, which is
    how every caller in the repository leaves it. *)
Record qdrantSearchRequest := mkSearchRequest
  { sr_Vector : Vector;
    Limit : Z;
    WithPayload : bool;
    sr_Filter : option (list qdrantCondition) }.

(** [append(must, condition)] when the filter field is set. *)
Definition condition (key value : string) (must : list qdrantCondition)
    : list qdrantCondition :=
  if negb (String.eqb value EmptyString) then must ++ [mkCondition key value] else must.

(** The request [Search] sends. *)
Definition searchRequest (query : SearchQuery) : qdrantSearchRequest :=
  let f := q_Filter query in
  mkSearchRequest (q_Vector query) (TopK query) true
    (if negb (String.eqb (f_ProjectID f) EmptyString) ||
        negb (String.eqb (f_Module f) EmptyString) ||
        negb (String.eqb (f_Language f) EmptyString) ||
        negb (String.eqb (f_SymbolType f) EmptyString)
     then Some (condition "symbol_type" (f_SymbolType f)
                  (condition "language" (f_Language f)
                     (condition "module" (f_Module f)
                        (condition "project_id" (f_ProjectID f) []))))
     else None).

(** The [must] list of the request [DeleteByFilter] sends. *)
Definition deleteFilter (filter : Filter) : list qdrantCondition :=
  condition "project_id" (f_ProjectID filter) [].

End Qdrant.

(** ** handlers.go: the health endpoint *)

Module Health.

Record HealthResponse := mkHealthResponse
  { Status : string;
    Components : gmap string string;
    Version : string }.

Definition StatusServiceUnavailable : Z := 503.

(** [handleHealth]; [embedder] and [vectordb] are what the two [Health]
    calls return ([Some] is the error text).  The result is the status
    code and the body. *)
Definition handleHealth (embedder vectordb : option string) (version : string)
    : Z * HealthResponse :=
  let components : gmap string string := ∅ in
  let status := "healthy" in
  let '(components, status) :=
    match embedder with
    | Some err => (<["embedder" := "error: " +:+ err]> components, "degraded")
    | None => (<["embedder" := "ok"]> components, status)
    end in
  let '(components, status) :=
    match vectordb with
    | Some err => (<["vectordb" := "error: " +:+ err]> components, "degraded")
    | None => (<["vectordb" := "ok"]> components, status)
    end in
  let statusCode :=
    if negb (String.eqb status "healthy") then StatusServiceUnavailable
    else Api.StatusOK in
  (statusCode, mkHealthResponse status components version).

End Health.

(** ** Accounting of a run *)

Module Accounting.
Import Indexer.

(** The errors of a run that stand for a discovered file: it could not be
    hashed, or it could not be read. *)
Definition fileError (e : Error) : bool :=
  match e with
  | ErrHash _ | ErrFile _ => true
  | _ => false
  end.

Definition fileErrors (errors : list Error) : nat := length (filter fileError errors).

(** The texts handed to the embedding provider, batch by batch. *)
Definition batches (calls : list Call) : list (list string) :=
  flat_map (fun c => match c with EmbedBatch texts => [texts] | _ => [] end) calls.

(** The points of the upsert requests made. *)
Definition upserts (calls : list Call) : list (list VectorDB.Point) :=
  flat_map (fun c => match c with VdbUpsert ps => [ps] | _ => [] end) calls.

End Accounting.

(** ** Concrete inputs

    Source trees, cache files and provider behaviours on which the
    embedding is run in Part II. *)

Module Scenario.
Import Cache Indexer.
Local Open Scope nat_scope.

Definition NL : string := String Strings.nl EmptyString.

(** Providers that always succeed (one fixed vector a text), a file system
    that never fails, maps visited and results delivered in list order. *)
Definition env (cfg : Chunker.ChunkingConfig) (ParseFile : GoChunker.Parser)
    (sources : gmap string string) (walk : list discoveredFile) : Env :=
  mkEnv "cache" cfg 32 ParseFile (Some walk) sources
    (fun texts => Some (map (fun _ => [0%Z]) texts))
    (fun _ => true) (fun _ => true) (fun _ => true)
    (mkSaveIO true true true) true
    (fun m => (map_to_list m).*1) (fun l => l).

Definition noParser : GoChunker.Parser := fun _ _ => None.

Definition start (fs : FS) : State := mkState (mkCache "" ∅ false) fs 100 [].

(** Two Markdown files of a project [p]. *)
Definition a_md : string := "# A" +:+ NL +:+ "foo" +:+ NL.
Definition b_md : string := "# B" +:+ NL +:+ "baz" +:+ NL.

Definition hash_of (content : string) : string := Bytes.hex (SHA256.sum_string content).

Definition entry_of (relPath content : string) : CacheEntry :=
  mkCacheEntry (hash_of content) 1 2
    (map Chunker.ID
       (MarkdownChunker.Chunk Chunker.DefaultConfig content
          (Chunker.mkFileMetadata relPath "markdown" "" "p"))).

(** The cache file after [b.md] alone was indexed ... *)
Definition cache_b : FS :=
  {[ "cache/p.json" :=
       CacheJSON (mkCacheFile "p" 3 {[ "b.md" := entry_of "b.md" b_md ]}) ]}.

(** ... and after [a.md] and [b.md] were. *)
Definition cache_ab : FS :=
  {[ "cache/p.json" :=
       CacheJSON (mkCacheFile "p" 3
                    (<[ "a.md" := entry_of "a.md" a_md ]>
                       {[ "b.md" := entry_of "b.md" b_md ]})) ]}.

(** The tree now holds [b.md] only, unchanged. *)
Definition only_b : Env :=
  env Chunker.DefaultConfig noParser {[ "/src/b.md" := b_md ]}
      [mkDiscovered "/src/b.md" "b.md"].

(** What a sequence of provider calls embedded, upserted and deleted. *)
Definition embedded (calls : list Call) : list string :=
  flat_map (fun c => match c with EmbedBatch texts => texts | _ => [] end) calls.

Definition upserted (calls : list Call) : list string :=
  flat_map (fun c => match c with VdbUpsert ps => map VectorDB.ID ps | _ => [] end) calls.

Definition deleted (calls : list Call) : list string :=
  flat_map (fun c => match c with VdbDelete ids => ids | _ => [] end) calls.

Definition no_merge : Chunker.ChunkingConfig := Chunker.mkChunkingConfig 50 200 500 false.

(** A Go file with two functions, before and after an edit of [B]. *)
Definition func_A : string := "func A() {}".
Definition func_B : string := "func B() {}".
Definition func_B' : string := "func B() { return }".

Definition m_go (b : string) : string :=
  "package m" +:+ NL +:+ NL +:+ func_A +:+ NL +:+ NL +:+ b +:+ NL.

(** What [go/parser] makes of either version: package [m], function [A]
    on line 3 and function [B] on line 5, neither with a doc comment nor a
    receiver. *)
Definition parse_m : GoChunker.Parser :=
  fun _ _ =>
    Some (GoChunker.mkFile (Some "m")
            [ GoChunker.DeclFunc (GoChunker.mkFuncDecl 3 3 None "A" None);
              GoChunker.DeclFunc (GoChunker.mkFuncDecl 5 5 None "B" None) ]).

Definition tree_m (b : string) : Env :=
  env no_merge parse_m {[ "/src/m.go" := m_go b ]} [mkDiscovered "/src/m.go" "m.go"].

(** The first run indexes the original file into an empty cache
    directory; the second run sees the edited file. *)
Definition first_run : Exit IndexResult * State :=
  IndexProject (tree_m func_B) "p" false (start ∅).

Definition second_run : Exit IndexResult * State :=
  IndexProject (tree_m func_B') "p" false
    (mkState (mkCache "" ∅ false) (fs first_run.2) (clock first_run.2) []).

Definition chunk_ids_of (run : Exit IndexResult * State) (relPath : string) : list string :=
  GetChunkIDs (Indexer.cache run.2) relPath.

(** A Go file with a parenthesised type declaration of two types:
    [go/parser] yields one [GenDecl] from line 3 to line 6 with two
    [TypeSpec]s. *)
Definition types_go : string :=
  "package p" +:+ NL +:+ NL +:+ "type (" +:+ NL +:+ "  A int" +:+ NL +:+ "  B int" +:+ NL +:+
  ")" +:+ NL.

Definition parse_types : GoChunker.Parser :=
  fun _ _ =>
    Some (GoChunker.mkFile (Some "p")
            [ GoChunker.DeclGen
                (GoChunker.mkGenDecl GoChunker.TYPE 3 6 None
                   [ GoChunker.TypeSpec "A" GoChunker.OtherType;
                     GoChunker.TypeSpec "B" GoChunker.OtherType ]) ]).

(** A TypeScript file: a one-line arrow function, then a commented
    function.  [tsArrowFuncPattern] matches bytes 0..16 (name at 6..7),
    [tsFunctionPattern] matches bytes 33..44 (name at 42..43); no other
    pattern matches. *)
Definition arrow_ts : string :=
  "const f = (x) => x;" +:+ NL +:+ "// doc for g" +:+ NL +:+ "function g() {}".

Definition regexp_arrow_ts : TypeScriptChunker.Regexp :=
  fun pattern _ =>
    match pattern with
    | TypeScriptChunker.tsArrowFuncPattern => [RegexChunker.mkLoc 0 16 (Some (6, 7))]
    | TypeScriptChunker.tsFunctionPattern => [RegexChunker.mkLoc 33 44 (Some (42, 43))]
    | _ => []
    end.

(** Merging switched on, with a window of 10 to 12 tokens. *)
Definition narrow : Chunker.ChunkingConfig := Chunker.mkChunkingConfig 10 11 12 true.

(** A text file of one line of 6000 bytes. *)
Fixpoint fill (n : nat) (c : ascii) : string :=
  match n with
  | O => EmptyString
  | S n' => String c (fill n' c)
  end.


(** A helper of 2 tokens on line 1 and a function of 11 tokens on lines 3
    to 9; together they exceed 12 tokens. *)
Definition go_helper : GoChunker.goSymbol :=
  GoChunker.mkGoSymbol "helper" "function" 1 1 (fill 8 "h"%char) 2.
Definition go_main : GoChunker.goSymbol :=
  GoChunker.mkGoSymbol "Main" "function" 3 9 (fill 44 "m"%char) 11.

Definition php_helper : RegexChunker.symbol :=
  RegexChunker.mkSymbol "helper" "function" 1 1 (fill 8 "h"%char) 2 "".
Definition php_main : RegexChunker.symbol :=
  RegexChunker.mkSymbol "main" "function" 3 9 (fill 44 "m"%char) 11 "".
(** The same helper, when it follows the large function. *)
Definition php_tail : RegexChunker.symbol :=
  RegexChunker.mkSymbol "helper" "function" 11 11 (fill 8 "h"%char) 2 "".




Definition match_f : RegexChunker.symbolMatch :=
  RegexChunker.mkMatch "f" "arrow_function" 1 0 16.
Definition match_g : RegexChunker.symbolMatch :=
  RegexChunker.mkMatch "g" "function" 3 33 44.

Definition engines : Chunkers.Engines :=
  Chunkers.mkEngines parse_types (fun _ _ => []) regexp_arrow_ts.

Definition a_ts : Chunker.FileMetadata := Chunker.mkFileMetadata "a.ts" "typescript" "" "p".

Definition range (c : Chunker.Chunk) : string * nat * nat :=
  (Chunker.Symbol c, Chunker.StartLine c, Chunker.EndLine c).

(** Whether no two distinct chunks of a list share a line. *)
Fixpoint disjoint (chunks : list Chunker.Chunk) : bool :=
  match chunks with
  | [] => true
  | c :: rest => forallb (fun d => negb (Chunker.overlaps c d)) rest && disjoint rest
  end.

End Scenario.

(** ** Further inputs

    Symbols, caches, provider replies and configurations for the
    properties of Part II that hold under a precondition. *)

Module Cases.

(** Two Markdown sections of 11 tokens each. *)
Definition md_first : MarkdownChunker.mdSection :=
  MarkdownChunker.mkSection "A" 1 1 4 (Scenario.fill 44 "a"%char) 11.
Definition md_second : MarkdownChunker.mdSection :=
  MarkdownChunker.mkSection "B" 1 5 9 (Scenario.fill 44 "b"%char) 11.

(** A class and a function matched on the same line. *)
Definition match_class : RegexChunker.symbolMatch :=
  RegexChunker.mkMatch "C" "class" 1 0 7.
Definition match_inline : RegexChunker.symbolMatch :=
  RegexChunker.mkMatch "m" "function" 1 10 20.

(** The cache of project [p] with [b.md] in it, not yet saved. *)
Definition cache_of_b : Cache.Cache :=
  Cache.mkCache "cache/p.json" {[ "b.md" := Scenario.entry_of "b.md" Scenario.b_md ]} true.

(** [a.md] and [b.md] cached. *)
Definition cache_of_ab : Cache.Cache :=
  Cache.mkCache "cache/p.json"
    (<[ "a.md" := Scenario.entry_of "a.md" Scenario.a_md ]>
       {[ "b.md" := Scenario.entry_of "b.md" Scenario.b_md ]}) false.

Definition found_b : Indexer.discoveredFile := Indexer.mkDiscovered "/src/b.md" "b.md".

(** [b.md] queued for processing, and its chunks. *)
Definition queued_b : Indexer.fileToProcess :=
  Indexer.mkFileToProcess "/src/b.md" "b.md" (Scenario.hash_of Scenario.b_md).

Definition b_chunks : list Chunker.Chunk :=
  MarkdownChunker.Chunk Chunker.DefaultConfig Scenario.b_md
    (Chunker.mkFileMetadata "b.md" "markdown" "" "p").

(** [a.md] found and queued as well. *)
Definition found_a : Indexer.discoveredFile := Indexer.mkDiscovered "/src/a.md" "a.md".

Definition queued_a : Indexer.fileToProcess :=
  Indexer.mkFileToProcess "/src/a.md" "a.md" (Scenario.hash_of Scenario.a_md).

(** A run over [a.md] and [b.md] that is cancelled once the first result
    has arrived: the second file gives none, and the embedding provider
    returns the context's error. *)
Definition cancelled_ab : Indexer.Env :=
  Indexer.mkEnv "cache" Chunker.DefaultConfig 32 Scenario.noParser
    (Some [found_a; found_b])
    (<[ "/src/a.md" := Scenario.a_md ]> {[ "/src/b.md" := Scenario.b_md ]})
    (fun _ => None)
    (fun _ => true) (fun _ => true) (fun _ => true)
    (Cache.mkSaveIO true true true) true
    (fun m => (map_to_list m).*1) (take 1).

(** An embedding provider that fails on the second batch it is given
    here, with batches of one text. *)
Definition second_fails : Indexer.Env :=
  Indexer.mkEnv "cache" Chunker.DefaultConfig 1 Scenario.noParser
    (Some []) ∅
    (fun texts => if decide (texts = ["two"]) then None
                  else Some (map (fun _ => [0%Z]) texts))
    (fun _ => true) (fun _ => true) (fun _ => true)
    (Cache.mkSaveIO true true true) true
    (fun m => (map_to_list m).*1) (fun l => l).

Definition text_chunk (text : string) : Chunker.Chunk :=
  GenericChunker.createChunk [text] 1 1 (Chunker.mkFileMetadata "t.txt" "text" "" "p").

(** An OpenAI reply that lists the second embedding first. *)
Definition shuffled : list (Z * Embedder.Vector) := [(1, [2]); (0, [1])].

Definition post_shuffled (texts : list string)
    : Embedder.Reply Embedder.openAIEmbedResponse :=
  Embedder.Response 200 (Some (Embedder.mkOpenAIEmbedResponse shuffled None)).

(** A project file that gives the required fields only, and a global
    configuration file that gives nothing. *)
Definition project : Config.ProjectConfig :=
  Config.mkProjectConfig "my-project" "" "my-project" [".go"] []
    (Config.mkProjectChunkingConfig "" "" 0 0 0) (Config.mkProjectMetadata "" []).

Definition no_match : Config.Matcher := fun _ _ => Some false.

Definition empty_config : Config.Config :=
  Config.mkConfig (Config.mkEmbeddingConfig "" "" "" 0 0 "" "")
    (Config.mkVectorDBConfig "" "" "" "") (Config.mkProjectsConfig "" "")
    (Chunker.mkChunkingConfig 0 0 0 false) (Config.mkCacheConfig "" "")
    (Config.mkServerConfig 0 "" "" "") (Config.mkLoggingConfig "" "").

End Cases.

(** * Part II: properties *)

(** ** SHA-256 and hexadecimal output *)

(** Known-answer tests of FIPS 180-4. *)
Example sha256_abc :
  Bytes.hex (SHA256.sum_string "abc")
  = "ba7816bf8f01cfea414140de5dae2223b00361a396177a9cb410ff61f20015ad".
Proof. vm_compute. reflexivity. Qed.

Example sha256_empty :
  Bytes.hex (SHA256.sum_string "")
  = "e3b0c44298fc1c149afbf4c8996fb92427ae41e4649b934ca495991b7852b855".
Proof. vm_compute. reflexivity. Qed.

Example sha256_two_blocks :
  Bytes.hex (SHA256.sum_string
     "abcdbcdecdefdefgefghfghighijhijkijkljklmklmnlmnomnopnopq")
  = "248d6a61d20638b8e5c026930c3e6039a33ce45964ff2167f6ecedd419db06c1".
Proof. vm_compute. reflexivity. Qed.

Lemma sum_length (msg : list Z) : length (SHA256.sum msg) = 32%nat.
Proof. reflexivity. Qed.

Lemma be_bytes_are_bytes (n : nat) (x : Z) : Forall Bytes.is_byte (SHA256.be_bytes n x).
Proof.
  unfold SHA256.be_bytes. apply Forall_forall. intros b Hb.
  apply list_elem_of_In, in_map_iff in Hb as (i & <- & _).
  unfold Bytes.is_byte. apply Z.mod_pos_bound. lia.
Qed.

Lemma sum_bytes (msg : list Z) : Forall Bytes.is_byte (SHA256.sum msg).
Proof.
  unfold SHA256.sum, SHA256.digest. cbn [flat_map].
  repeat (apply Forall_app; split); try apply be_bytes_are_bytes. constructor.
Qed.

Lemma hexdigit_lower (d : Z) :
  0 <= d < 16 -> Bytes.is_lower_hex (Bytes.hexdigit d) = true.
Proof.
  intros H.
  assert (d = 0 \/ d = 1 \/ d = 2 \/ d = 3 \/ d = 4 \/ d = 5 \/ d = 6 \/ d = 7 \/
          d = 8 \/ d = 9 \/ d = 10 \/ d = 11 \/ d = 12 \/ d = 13 \/ d = 14 \/ d = 15)
    as Hd by lia.
  repeat (destruct Hd as [-> | Hd]; [reflexivity |]). subst. reflexivity.
Qed.

Lemma hex_lower (bs : list Z) :
  Forall Bytes.is_byte bs ->
  Forall (fun c => Bytes.is_lower_hex c = true) (String.list_ascii_of_string (Bytes.hex bs)).
Proof.
  induction 1 as [| b bs Hb _ IH]; cbn [Bytes.hex String.list_ascii_of_string].
  - constructor.
  - unfold Bytes.is_byte in Hb.
    constructor; [| constructor; [| exact IH]]; apply hexdigit_lower.
    + split; [apply Z.div_pos; lia | apply Z.div_lt_upper_bound; lia].
    + apply Z.mod_pos_bound; lia.
Qed.

Lemma hex_length (bs : list Z) : String.length (Bytes.hex bs) = (2 * length bs)%nat.
Proof. induction bs as [| b bs IH]; cbn [Bytes.hex String.length length]; lia. Qed.

(** ** Vector-store keys *)

Example stringToUUID_abc :
  VectorDB.stringToUUID "abc" = "ba7816bf-8f01-cfea-4141-40de5dae2223".
Proof. vm_compute. reflexivity. Qed.

Lemma list_of_length_32 (l : list Z) :
  length l = 32%nat ->
  exists b0 b1 b2 b3 b4 b5 b6 b7 b8 b9 b10 b11 b12 b13 b14 b15 rest,
    l = [b0; b1; b2; b3; b4; b5; b6; b7; b8; b9; b10; b11; b12; b13; b14; b15] ++ rest.
Proof.
  intros H.
  do 16 (destruct l as [| ? l]; [discriminate H |]).
  repeat eexists.
Qed.

(** C7. The vector-store key of a chunk id is the first 16 bytes of
    SHA-256(id) in lowercase hexadecimal laid out 8-4-4-4-12 (36
    characters); [QdrantClient.Upsert] and [QdrantClient.Delete] both
    address a chunk id by that key, so deleting an id and upserting a point
    with the same id address the same key. *)
Theorem vector_key_is_sha256_prefix
    (id : string) (points : list VectorDB.Point) (ids : list string) :
  let digest16 := take 16 (SHA256.sum_string id) in
  VectorDB.stringToUUID id = VectorDB.layout_8_4_4_4_12 (Bytes.hex digest16) /\
  length digest16 = 16%nat /\
  String.length (VectorDB.stringToUUID id) = 36%nat /\
  Forall (fun c => Bytes.is_lower_hex c = true)
         (String.list_ascii_of_string (Bytes.hex digest16)) /\
  from_option VectorDB.keys [] (VectorDB.Upsert points)
    = map (fun p => VectorDB.stringToUUID (VectorDB.ID p)) points /\
  from_option VectorDB.keys [] (VectorDB.Delete ids) = map VectorDB.stringToUUID ids.
Proof.
  cbv zeta.
  pose proof (sum_length (Bytes.of_string id)) as Hlen.
  pose proof (sum_bytes (Bytes.of_string id)) as Hbytes.
  unfold VectorDB.stringToUUID, SHA256.sum_string.
  destruct (list_of_length_32 _ Hlen)
    as (b0 & b1 & b2 & b3 & b4 & b5 & b6 & b7 & b8 & b9 & b10 & b11 & b12 & b13 &
        b14 & b15 & rest & Heq).
  rewrite Heq in *. clear Heq Hlen.
  split; [reflexivity |]. split; [reflexivity |]. split; [reflexivity |].
  split; [| split].
  - apply hex_lower. cbn [take app]. apply Forall_app in Hbytes as [H16 _]. exact H16.
  - destruct points; [reflexivity |]. cbn [VectorDB.Upsert from_option VectorDB.keys].
    rewrite map_map. reflexivity.
  - destruct ids; reflexivity.
Qed.


(** ** The retrieval handler *)

Lemma clampTopK_range (topK : Z) : 1 <= Api.clampTopK topK <= 20.
Proof.
  unfold Api.clampTopK.
  destruct (topK <=? 0) eqn:H0; [reflexivity || (simpl; lia) |].
  destruct (20 <? topK) eqn:H20; lia.
Qed.


(** A request that passes validation and whose embedding succeeds does
    reach the vector store, with the clamped value. *)
Example retrieve_runs_search :
  let prov := Api.mkProviders (fun _ => Some [1]) (fun _ => Some []) in
  map (fun topK =>
         (Api.handleRetrieve prov
            (inr (Api.mkRetrieveRequest "p1" "login" topK None)) 7).2)
      [0; -3; 3; 20; 21]
  = map (fun k =>
           [Api.CallEmbed "login";
            Api.CallSearch (VectorDB.mkSearchQuery [1] k (VectorDB.mkFilter "p1" "" "" ""))])
        [5; 5; 3; 20; 20].
Proof. reflexivity. Qed.


Lemma error_object_not_well_formed (message : string) :
  ~ Api.wellFormedError (Api.Object {[ "error" := message ]}).
Proof.
  intros (_ & (code & Hcode & _) & _).
  rewrite lookup_singleton_ne in Hcode; [discriminate | discriminate].
Qed.

(** Every response of the handler other than a 200 is built by
    [writeError], whose object has the single key [error]. *)
Lemma retrieve_error_body
    (prov : Api.Providers) (decoded : string + Api.RetrieveRequest) (elapsed : Z) :
  let r := (Api.handleRetrieve prov decoded elapsed).1 in
  Api.status r = Api.StatusOK \/
  exists message, Api.body r = Api.Object {[ "error" := message ]}.
Proof.
  unfold Api.handleRetrieve, Api.writeError.
  destruct decoded as [err | req]; [right; eexists; reflexivity |].
  destruct (String.eqb (Api.req_ProjectID req) ""); [right; eexists; reflexivity |].
  destruct (String.eqb (Api.req_Query req) ""); [right; eexists; reflexivity |].
  destruct (Api.Embed prov (Api.req_Query req)) as [v |];
    [| right; eexists; reflexivity].
  destruct (Api.Search prov _); [left | right; eexists]; reflexivity.
Qed.

(** C9 (the code departs from the claim). The four error responses of
    POST /retrieve: unparsable body, missing project_id, missing query
    (400), embedding failure and search failure (500).  Each body is the
    object [{"error": message}]: it has no [code] field, so it is not of
    the shape [{error, code, request_id?}]. *)
Theorem retrieve_errors_carry_no_code :
  let failing : Api.Providers := Api.mkProviders (fun _ => None) (fun _ => None) in
  let embedding : Api.Providers := Api.mkProviders (fun _ => Some [1]) (fun _ => None) in
  let responses :=
    [ (Api.handleRetrieve failing (inl "unexpected EOF") 0).1;
      (Api.handleRetrieve failing (inr (Api.mkRetrieveRequest "" "q" 0 None)) 0).1;
      (Api.handleRetrieve failing (inr (Api.mkRetrieveRequest "p1" "" 0 None)) 0).1;
      (Api.handleRetrieve failing (inr (Api.mkRetrieveRequest "p1" "q" 0 None)) 0).1;
      (Api.handleRetrieve embedding (inr (Api.mkRetrieveRequest "p1" "q" 0 None)) 0).1 ] in
  responses =
    [ Api.mkResponse 400 (Api.Object {[ "error" := "invalid request body: unexpected EOF" ]});
      Api.mkResponse 400 (Api.Object {[ "error" := "project_id is required" ]});
      Api.mkResponse 400 (Api.Object {[ "error" := "query is required" ]});
      Api.mkResponse 500 (Api.Object {[ "error" := "failed to process query" ]});
      Api.mkResponse 500 (Api.Object {[ "error" := "search failed" ]}) ] /\
  Forall (fun r => ~ Api.wellFormedError (Api.body r)) responses.
Proof.
  cbv zeta. split; [reflexivity |].
  repeat constructor; apply error_object_not_well_formed.
Qed.

(** ** The cache and its dirty flag *)

Lemma Save_clean (c : Cache.Cache) (projectID : string) (now : Cache.Time)
    (io : Cache.SaveIO) (fs : Cache.FS) :
  Cache.dirty c = false -> Cache.Save c projectID now io fs = (None, fs).
Proof. intros H. unfold Cache.Save. rewrite H. reflexivity. Qed.

Lemma Save_dirty (c : Cache.Cache) (projectID : string) (now : Cache.Time)
    (fs : Cache.FS) :
  Cache.dirty c = true ->
  Cache.Save c projectID now (Cache.mkSaveIO true true true) fs
  = (None,
     <[Cache.path c := Cache.CacheJSON (Cache.mkCacheFile projectID now (Cache.entries c))]>
       (delete (Cache.path c +:+ ".tmp")
          (<[Cache.path c +:+ ".tmp" :=
               Cache.CacheJSON (Cache.mkCacheFile projectID now (Cache.entries c))]> fs))).
Proof. intros H. unfold Cache.Save. rewrite H. reflexivity. Qed.

Lemma NewCache_clean (cacheDir projectID : string) (fs : Cache.FS) (c : Cache.Cache) :
  Cache.NewCache cacheDir projectID fs = Some c ->
  Cache.dirty c = false /\ Cache.path c = Cache.cachePath cacheDir projectID.
Proof.
  unfold Cache.NewCache.
  destruct (fs !! Cache.cachePath cacheDir projectID) as [[cf | |] |];
    intros H; inversion H; split; reflexivity.
Qed.

Lemma apply_dirty (c : Cache.Cache) (op : Cache.Op) : Cache.dirty (Cache.apply c op) = true.
Proof. destruct op; reflexivity. Qed.

Lemma dirty_after (ops : list Cache.Op) (c : Cache.Cache) :
  Cache.dirty (fold_left Cache.apply ops c)
  = match ops with [] => Cache.dirty c | _ :: _ => true end.
Proof.
  revert c. induction ops as [| op ops IH]; intros c; [reflexivity |].
  cbn [fold_left]. rewrite IH. destruct ops; [apply apply_dirty | reflexivity].
Qed.

Lemma path_after (ops : list Cache.Op) (c : Cache.Cache) :
  Cache.path (fold_left Cache.apply ops c) = Cache.path c.
Proof.
  revert c. induction ops as [| op ops IH]; intros c; [reflexivity |].
  cbn [fold_left]. rewrite IH. destruct op; reflexivity.
Qed.

(** ** Runs of the indexer that change nothing *)

Lemma partition_all_skipped (env : Indexer.Env) (cache : Cache.Cache)
    (files : list Indexer.discoveredFile) :
  Forall (Indexer.skipped_as_unchanged env cache) files ->
  forall result acc,
    Indexer.partition env false cache files result acc
    = (Indexer.mkIndexResult (Indexer.FilesScanned result) (Indexer.FilesIndexed result)
         (Indexer.FilesSkipped result + length files) (Indexer.FilesDeleted result)
         (Indexer.ChunksCreated result) (Indexer.ChunksDeleted result)
         (Indexer.OversizedChunks result) (Indexer.Errors result),
       acc).
Proof.
  induction 1 as [| file files (h & Hh & Hc) _ IH]; intros result acc.
  - cbn [Indexer.partition length]. rewrite Nat.add_0_r. destruct result; reflexivity.
  - cbn [Indexer.partition length]. rewrite Hh, Hc. cbn [negb andb].
    rewrite IH. cbn. repeat f_equal. lia.
Qed.

Lemma filter_none {A : Type} (P : A -> Prop) `{forall x, Decision (P x)} (l : list A) :
  (forall x, x ∈ l -> ~ P x) -> filter P l = [].
Proof.
  induction l as [| x l IH]; intros Hl; [reflexivity |].
  rewrite filter_cons. destruct (decide (P x)) as [Hp | _].
  - exfalso. apply (Hl x); [left | exact Hp].
  - apply IH. intros y Hy. apply Hl. right. exact Hy.
Qed.

Lemma findDeletedFiles_none (env : Indexer.Env) (cache : Cache.Cache)
    (files : list Indexer.discoveredFile) :
  Indexer.fair env ->
  (forall p, p ∈ dom (Cache.entries cache) -> p ∈ map Indexer.relPath files) ->
  Indexer.findDeletedFiles env cache files = [].
Proof.
  intros [Hrange _] Hsub. unfold Indexer.findDeletedFiles.
  apply filter_none. intros p Hp Hnot. apply Hnot, Hsub.
  rewrite (Hrange (Cache.entries cache)) in Hp.
  apply list_elem_of_fmap in Hp as ([k v] & -> & Hkv).
  apply elem_of_map_to_list in Hkv. apply elem_of_dom. eauto.
Qed.

(** C10 (as amended). [Cache.Save] writes nothing and returns nil unless
    [Set], [Delete] or [Clear] ran since the cache was loaded.  Hence an
    incremental run in which every discovered file is skipped as unchanged
    and every cached path is still among the discovered files leaves the
    cache directory as it was, makes no provider call and does not read
    the clock. *)
Theorem clean_cache_is_not_rewritten :
  (forall c projectID now io fs,
      Cache.dirty c = false -> Cache.Save c projectID now io fs = (None, fs)) /\
  (forall cacheDir projectID fs c ops,
      Cache.NewCache cacheDir projectID fs = Some c ->
      Cache.dirty (fold_left Cache.apply ops c)
      = match ops with [] => false | _ :: _ => true end) /\
  (forall env projectID st cache files,
      Indexer.fair env ->
      Cache.NewCache (Indexer.cacheDir env) projectID (Indexer.fs st) = Some cache ->
      Indexer.walk env = Some files ->
      Forall (Indexer.skipped_as_unchanged env cache) files ->
      (forall p, p ∈ dom (Cache.entries cache) -> p ∈ map Indexer.relPath files) ->
      Indexer.IndexProject env projectID false st
      = (Indexer.Returns
           (Indexer.mkIndexResult (length files) 0 (length files) 0 0 0 [] []),
         Indexer.mkState cache (Indexer.fs st) (Indexer.clock st) (Indexer.calls st))).
Proof.
  split; [exact Save_clean |]. split.
  - intros cacheDir projectID fs c ops Hc. rewrite dirty_after.
    destruct (NewCache_clean _ _ _ _ Hc) as [-> _]. reflexivity.
  - intros env projectID st cache files Hfair Hc Hwalk Hskip Hsub.
    unfold Indexer.IndexProject. rewrite Hc, Hwalk. cbn [andb negb].
    cbn [Indexer.cache Indexer.fs Indexer.clock Indexer.calls].
    rewrite (findDeletedFiles_none env cache files Hfair Hsub).
    cbn [Indexer.reap].
    rewrite (partition_all_skipped env cache files Hskip).
    cbn [Indexer.processFiles Indexer.FilesScanned Indexer.FilesSkipped
         Indexer.FilesDeleted Indexer.ChunksDeleted Indexer.Errors Indexer.FilesIndexed
         Indexer.ChunksCreated Indexer.OversizedChunks Indexer.filesIndexed
         Indexer.chunksCreated Indexer.oversizedChunks Indexer.errors app
         Indexer.cache Indexer.fs Indexer.clock Indexer.calls].
    destruct (NewCache_clean _ _ _ _ Hc) as [Hd _].
    rewrite (Save_clean cache projectID _ _ _ Hd), Hd. reflexivity.
Qed.

(** The amended claim at work: [b.md] is cached and unchanged. *)
Lemma clean_cache_is_not_rewritten_witness :
  exists cache,
    Cache.NewCache "cache" "p" Scenario.cache_b = Some cache /\
    Indexer.IndexProject Scenario.only_b "p" false (Scenario.start Scenario.cache_b)
    = (Indexer.Returns (Indexer.mkIndexResult 1 0 1 0 0 0 [] []),
       Indexer.mkState cache Scenario.cache_b 100 []).
Proof.
  eexists. split; [reflexivity |].
  destruct clean_cache_is_not_rewritten as (_ & _ & Hrun).
  apply (Hrun Scenario.only_b "p" (Scenario.start Scenario.cache_b) _
           [Indexer.mkDiscovered "/src/b.md" "b.md"]).
  - split; intros; reflexivity.
  - reflexivity.
  - reflexivity.
  - constructor; [| constructor]. eexists. split; vm_compute; reflexivity.
  - intros p Hp. cbn [Cache.entries Cache.Files] in Hp.
    apply elem_of_dom in Hp as [e He].
    apply lookup_singleton_Some in He as [<- _]. left.
Defined.

(** C10 (counterexample). [a.md] and [b.md] are cached; [a.md] has since
    been removed from the tree.  The one discovered file is skipped as
    unchanged, yet the run rewrites the cache file: reaping the stale entry
    calls [cache.Delete], which sets the dirty flag. *)
Lemma stale_entry_rewrites_cache :
  exists cache result st',
    Cache.NewCache "cache" "p" Scenario.cache_ab = Some cache /\
    Forall (Indexer.skipped_as_unchanged Scenario.only_b cache)
           [Indexer.mkDiscovered "/src/b.md" "b.md"] /\
    Indexer.IndexProject Scenario.only_b "p" false (Scenario.start Scenario.cache_ab)
    = (Indexer.Returns result, st') /\
    Indexer.FilesSkipped result = Indexer.FilesScanned result /\
    Indexer.fs st' !! "cache/p.json"
    = Some (Cache.CacheJSON
              (Cache.mkCacheFile "p" 100
                 {[ "b.md" := Scenario.entry_of "b.md" Scenario.b_md ]})) /\
    Indexer.fs st' <> Scenario.cache_ab.
Proof.
  eexists. eexists. eexists.
  split; [reflexivity |].
  split; [constructor; [| constructor]; eexists; split; vm_compute; reflexivity |].
  split; [vm_compute; reflexivity |].
  split; [reflexivity |].
  split; [vm_compute; reflexivity |].
  intros Heq.
  apply (f_equal (fun m => m !! "cache/p.json")) in Heq.
  vm_compute in Heq. discriminate Heq.
Qed.

(** ** Chunk-level change detection *)

(** C1 (the code departs from the claim). A Go file with functions [A]
    and [B] is indexed; then [B] is edited and the project is indexed
    again.  The second run embeds and upserts the unchanged chunk of [A]
    together with the new chunk of [B], and deletes nothing: the id of the
    old chunk of [B], which the cache held, stays in the vector store.
    The cache entry holds chunk ids only. *)
Theorem unchanged_chunk_is_embedded_again :
  Scenario.chunk_ids_of Scenario.first_run "m.go"
    = [ "p:m.go:A:b6bf845c"; "p:m.go:B:ef9a569d" ] /\
  Scenario.chunk_ids_of Scenario.second_run "m.go"
    = [ "p:m.go:A:b6bf845c"; "p:m.go:B:5b404b9d" ] /\
  Scenario.embedded (Indexer.calls Scenario.second_run.2)
    = [ Scenario.func_A; Scenario.func_B' ] /\
  Scenario.upserted (Indexer.calls Scenario.second_run.2)
    = [ "p:m.go:A:b6bf845c"; "p:m.go:B:5b404b9d" ] /\
  Scenario.deleted (Indexer.calls Scenario.second_run.2) = [].
Proof. vm_compute. repeat split. Qed.

(** ** Line ranges *)

(** C4 (the code departs from the claim). Two inputs on which distinct
    chunks of one file share lines, with merging switched off.
    TypeScript: the end of the arrow function [f] is clamped to the line
    before [g]'s declaration, and the start of [g] is then moved up over
    its comment, so both chunks contain line 2.  Go: the two types of a
    parenthesised declaration both take the range of the whole
    declaration. *)
Theorem chunks_share_lines :
  map Scenario.range
      (TypeScriptChunker.Chunk Scenario.no_merge Scenario.regexp_arrow_ts
         Scenario.arrow_ts (Chunker.mkFileMetadata "a.ts" "typescript" "" "p"))
    = [ ("f", 1%nat, 2%nat); ("g", 2%nat, 3%nat) ] /\
  Scenario.disjoint
      (TypeScriptChunker.Chunk Scenario.no_merge Scenario.regexp_arrow_ts
         Scenario.arrow_ts (Chunker.mkFileMetadata "a.ts" "typescript" "" "p"))
    = false /\
  map Scenario.range
      (GoChunker.Chunk Scenario.no_merge Scenario.parse_types Scenario.types_go
         (Chunker.mkFileMetadata "t.go" "go" "" "p"))
    = [ ("A", 3%nat, 6%nat); ("B", 3%nat, 6%nat) ] /\
  Scenario.disjoint
      (GoChunker.Chunk Scenario.no_merge Scenario.parse_types Scenario.types_go
         (Chunker.mkFileMetadata "t.go" "go" "" "p"))
    = false.
Proof. vm_compute. repeat split. Qed.

(** ** Sorting *)

Section sort_facts.
Context {A : Type} (key : A -> nat).

Lemma insert_perm (x : A) (l : list A) : Sort.insert key x l ≡ₚ x :: l.
Proof.
  induction l as [| y l IH]; cbn [Sort.insert]; [reflexivity |].
  destruct (key x <? key y)%nat; [reflexivity |].
  rewrite IH. apply perm_swap.
Qed.

Lemma insert_sorted (x : A) (l : list A) :
  Sort.sorted_by key l -> Sort.sorted_by key (Sort.insert key x l).
Proof.
  induction l as [| y l IH]; cbn [Sort.insert Sort.sorted_by].
  - intros _. split; [constructor | exact I].
  - intros [Hy Hl]. destruct (key x <? key y)%nat eqn:E.
    + apply Nat.ltb_lt in E. cbn [Sort.sorted_by]. repeat split; try assumption.
      constructor; [lia |]. eapply Forall_impl; [exact Hy |]. cbn. intros z Hz. lia.
    + apply Nat.ltb_ge in E. cbn [Sort.sorted_by]. split; [| apply IH, Hl].
      eapply Permutation_Forall; [symmetry; apply insert_perm |].
      constructor; [exact E | exact Hy].
Qed.

Lemma fold_insert_perm (l acc : list A) :
  fold_left (fun acc x => Sort.insert key x acc) l acc ≡ₚ l ++ acc.
Proof.
  revert acc. induction l as [| x l IH]; intros acc; cbn [fold_left app]; [reflexivity |].
  rewrite IH, insert_perm. symmetry. apply Permutation_middle.
Qed.

Lemma fold_insert_sorted (l acc : list A) :
  Sort.sorted_by key acc ->
  Sort.sorted_by key (fold_left (fun acc x => Sort.insert key x acc) l acc).
Proof.
  revert acc. induction l as [| x l IH]; intros acc Hacc; cbn [fold_left]; [exact Hacc |].
  apply IH, insert_sorted, Hacc.
Qed.

Lemma Slice_perm (l : list A) : Sort.Slice key l ≡ₚ l.
Proof. unfold Sort.Slice. rewrite fold_insert_perm, app_nil_r. reflexivity. Qed.

Lemma Slice_sorted (l : list A) : Sort.sorted_by key (Sort.Slice key l).
Proof. apply fold_insert_sorted. exact I. Qed.

(** With pairwise distinct keys there is one sorted arrangement. *)
Lemma sorted_by_unique (l1 l2 : list A) :
  Sort.sorted_by key l1 -> Sort.sorted_by key l2 -> l1 ≡ₚ l2 ->
  NoDup (map key l1) -> l1 = l2.
Proof.
  revert l2. induction l1 as [| x l1 IH]; intros l2 H1 H2 Hp Hnd.
  - apply Permutation_nil in Hp. congruence.
  - destruct l2 as [| y l2]; [symmetry in Hp; apply Permutation_nil in Hp; discriminate |].
    cbn [Sort.sorted_by] in H1, H2. destruct H1 as [Hx H1], H2 as [Hy H2].
    cbn [map] in Hnd. apply NoDup_cons in Hnd as [Hxk Hnd].
    assert (Hxy : x = y).
    { assert (Hyin : y ∈ x :: l1) by (rewrite Hp; left).
      apply elem_of_cons in Hyin as [-> | Hyin]; [reflexivity |].
      assert (Hxin : x ∈ y :: l2) by (rewrite <- Hp; left).
      apply elem_of_cons in Hxin as [-> | Hxin]; [reflexivity |].
      exfalso. apply Hxk.
      assert (key x = key y) as ->.
      { rewrite Forall_forall in Hx, Hy. specialize (Hx y Hyin). specialize (Hy x Hxin).
        lia. }
      apply list_elem_of_fmap. exists y. split; [reflexivity | exact Hyin]. }
    subst y. f_equal. apply IH; try assumption.
    eapply Permutation_cons_inv. exact Hp.
Qed.

(** On distinct keys the sorted slice does not depend on the order the
    slice was filled in. *)
Lemma Slice_order_irrelevant (l1 l2 : list A) :
  l1 ≡ₚ l2 -> NoDup (map key l1) -> Sort.Slice key l1 = Sort.Slice key l2.
Proof.
  intros Hp Hnd. apply sorted_by_unique; try apply Slice_sorted.
  - rewrite !Slice_perm. exact Hp.
  - assert (map key (Sort.Slice key l1) ≡ₚ map key l1) as ->
      by apply Permutation_map, Slice_perm.
    exact Hnd.
Qed.

End sort_facts.

(** ** Determinism of chunking *)

Lemma byLine_keys (priority : string -> nat) (matches : list RegexChunker.symbolMatch) :
  forall k v, RegexChunker.byLine priority matches !! k = Some v ->
              RegexChunker.lineNum v = k.
Proof.
  unfold RegexChunker.byLine.
  assert (H : forall (m : gmap nat RegexChunker.symbolMatch),
             (forall k v, m !! k = Some v -> RegexChunker.lineNum v = k) ->
             forall k v,
               fold_left
                 (fun byLine x =>
                    match byLine !! RegexChunker.lineNum x with
                    | Some existing =>
                        if (priority (RegexChunker.m_symbolType x)
                            <? priority (RegexChunker.m_symbolType existing))%nat
                        then <[RegexChunker.lineNum x := x]> byLine
                        else byLine
                    | None => <[RegexChunker.lineNum x := x]> byLine
                    end) matches m !! k = Some v ->
               RegexChunker.lineNum v = k).
  { induction matches as [| x ms IH]; intros m Hm k v; cbn [fold_left]; [apply Hm |].
    apply IH. clear k v. intros k v.
    assert (Hins : <[RegexChunker.lineNum x := x]> m !! k = Some v ->
                   RegexChunker.lineNum v = k).
    { intros [[<- <-] | [_ Hk]]%lookup_insert_Some; [reflexivity | apply Hm, Hk]. }
    destruct (m !! RegexChunker.lineNum x) as [existing |]; [| exact Hins].
    destruct (_ <? _)%nat; [exact Hins | apply Hm]. }
  apply H. intros k v Hkv. rewrite lookup_empty in Hkv. discriminate.
Qed.

Lemma ranges_over_distinct_lines (priority : string -> nat)
    (matches result : list RegexChunker.symbolMatch) :
  RegexChunker.ranges_over (RegexChunker.byLine priority matches) result ->
  NoDup (map RegexChunker.lineNum result).
Proof.
  unfold RegexChunker.ranges_over. intros Hr.
  assert (map RegexChunker.lineNum result
          ≡ₚ map RegexChunker.lineNum
               (map_to_list (RegexChunker.byLine priority matches)).*2) as ->
    by apply Permutation_map, Hr.
  assert (map RegexChunker.lineNum (map_to_list (RegexChunker.byLine priority matches)).*2
          = (map_to_list (RegexChunker.byLine priority matches)).*1) as ->.
  { pose proof (byLine_keys priority matches) as Hk.
    assert (Hall : forall kv, kv ∈ map_to_list (RegexChunker.byLine priority matches) ->
                              RegexChunker.lineNum kv.2 = kv.1).
    { intros [k v] Hkv. apply elem_of_map_to_list in Hkv. apply Hk, Hkv. }
    revert Hall. generalize (map_to_list (RegexChunker.byLine priority matches)).
    intros l. induction l as [| kv l IH]; intros Hall; [reflexivity |].
    cbn [fmap list_fmap map]. f_equal.
    - apply Hall. left.
    - apply IH. intros kv' Hkv'. apply Hall. right. exact Hkv'. }
  apply NoDup_fst_map_to_list.
Qed.

Lemma ranges_over_sorted_once (priority : string -> nat)
    (matches r1 r2 : list RegexChunker.symbolMatch) :
  RegexChunker.ranges_over (RegexChunker.byLine priority matches) r1 ->
  RegexChunker.ranges_over (RegexChunker.byLine priority matches) r2 ->
  r1 ≡ₚ r2 /\ Sort.Slice RegexChunker.lineNum r1 = Sort.Slice RegexChunker.lineNum r2.
Proof.
  intros H1 H2.
  assert (Hp : r1 ≡ₚ r2) by (unfold RegexChunker.ranges_over in *; rewrite H1, H2; reflexivity).
  split; [exact Hp |].
  apply Slice_order_irrelevant; [exact Hp |].
  eapply ranges_over_distinct_lines, H1.
Qed.

Lemma PHP_ChunkFrom_order (cfg : Chunker.ChunkingConfig) (re : PHPChunker.Regexp)
    (content : string) (metadata : Chunker.FileMetadata)
    (r1 r2 : list RegexChunker.symbolMatch) :
  RegexChunker.ranges_over (PHPChunker.deduplicateMatches (PHPChunker.allMatches re content)) r1 ->
  RegexChunker.ranges_over (PHPChunker.deduplicateMatches (PHPChunker.allMatches re content)) r2 ->
  PHPChunker.ChunkFrom cfg re content metadata r1
  = PHPChunker.ChunkFrom cfg re content metadata r2.
Proof.
  intros H1 H2.
  destruct (ranges_over_sorted_once _ _ _ _ H1 H2) as [Hp Hs].
  unfold PHPChunker.ChunkFrom.
  destruct r1 as [| x1 r1], r2 as [| x2 r2].
  - reflexivity.
  - apply Permutation_nil in Hp. discriminate.
  - symmetry in Hp. apply Permutation_nil in Hp. discriminate.
  - rewrite Hs. reflexivity.
Qed.

Lemma TS_ChunkFrom_order (cfg : Chunker.ChunkingConfig) (re : TypeScriptChunker.Regexp)
    (content : string) (metadata : Chunker.FileMetadata)
    (r1 r2 : list RegexChunker.symbolMatch) :
  RegexChunker.ranges_over
    (TypeScriptChunker.deduplicateMatches (TypeScriptChunker.allMatches re content)) r1 ->
  RegexChunker.ranges_over
    (TypeScriptChunker.deduplicateMatches (TypeScriptChunker.allMatches re content)) r2 ->
  TypeScriptChunker.ChunkFrom cfg content metadata r1
  = TypeScriptChunker.ChunkFrom cfg content metadata r2.
Proof.
  intros H1 H2.
  destruct (ranges_over_sorted_once _ _ _ _ H1 H2) as [Hp Hs].
  unfold TypeScriptChunker.ChunkFrom.
  destruct r1 as [| x1 r1], r2 as [| x2 r2].
  - reflexivity.
  - apply Permutation_nil in Hp. discriminate.
  - symmetry in Hp. apply Permutation_nil in Hp. discriminate.
  - rewrite Hs. reflexivity.
Qed.

(** Every chunker returns: [Chunkers.run] is one of the results. *)
Lemma chunk_returns (cfg : Chunker.ChunkingConfig) (eng : Chunkers.Engines)
    (ch : Chunkers.Kind) (content : string) (metadata : Chunker.FileMetadata) :
  Chunkers.may_return cfg eng ch content metadata
    (Chunkers.run cfg eng ch content metadata).
Proof.
  destruct ch; cbn [Chunkers.may_return Chunkers.run]; try reflexivity.
  - eexists. split; [| reflexivity]. unfold RegexChunker.ranges_over. reflexivity.
  - eexists. split; [| reflexivity]. unfold RegexChunker.ranges_over. reflexivity.
Qed.

(** C2. For every chunker and every fixed input (file bytes, metadata,
    configuration), any two results of [Chunk] are the same sequence of
    chunks, hence of (id, content_hash, start_line, end_line) tuples: the
    order in which the regex chunkers' de-duplication visits its map is
    erased by the sort on line numbers, which are distinct after
    de-duplication. *)
Theorem chunking_is_deterministic
    (cfg : Chunker.ChunkingConfig) (eng : Chunkers.Engines) (ch : Chunkers.Kind)
    (content : string) (metadata : Chunker.FileMetadata)
    (out1 out2 : list Chunker.Chunk) :
  Chunkers.may_return cfg eng ch content metadata out1 ->
  Chunkers.may_return cfg eng ch content metadata out2 ->
  out1 = out2 /\ map Chunker.key out1 = map Chunker.key out2.
Proof.
  intros H1 H2.
  assert (out1 = out2) as ->; [| split; reflexivity].
  destruct ch; cbn [Chunkers.may_return] in H1, H2; try congruence.
  - destruct H1 as (r1 & Hr1 & ->), H2 as (r2 & Hr2 & ->).
    apply PHP_ChunkFrom_order; assumption.
  - destruct H1 as (r1 & Hr1 & ->), H2 as (r2 & Hr2 & ->).
    eapply TS_ChunkFrom_order; eassumption.
Qed.

(** Two visiting orders of the de-duplication map of [a.ts], one result. *)
Lemma chunking_is_deterministic_witness :
  TypeScriptChunker.ChunkFrom Scenario.no_merge Scenario.arrow_ts Scenario.a_ts
    [Scenario.match_f; Scenario.match_g]
  = TypeScriptChunker.ChunkFrom Scenario.no_merge Scenario.arrow_ts Scenario.a_ts
      [Scenario.match_g; Scenario.match_f] /\
  map Chunker.key
    (TypeScriptChunker.ChunkFrom Scenario.no_merge Scenario.arrow_ts Scenario.a_ts
       [Scenario.match_f; Scenario.match_g])
  = map Chunker.key
      (TypeScriptChunker.ChunkFrom Scenario.no_merge Scenario.arrow_ts Scenario.a_ts
         [Scenario.match_g; Scenario.match_f]).
Proof.
  apply (chunking_is_deterministic Scenario.no_merge Scenario.engines Chunkers.TypeScript
           Scenario.arrow_ts Scenario.a_ts).
  - exists [Scenario.match_f; Scenario.match_g]. split; [| reflexivity].
    unfold RegexChunker.ranges_over. vm_compute. apply perm_swap.
  - exists [Scenario.match_g; Scenario.match_f]. split; [| reflexivity].
    unfold RegexChunker.ranges_over. vm_compute. reflexivity.
Defined.

(** ** Token counts *)






















(** ** The oversized-chunk report *)





(** ** The fallback for files without symbols *)

Lemma Split_nl_length (s : string) :
  length (Strings.Split_nl s) = (Strings.Count_nl s + 1)%nat.
Proof.
  induction s as [| c s IH]; cbn [Strings.Split_nl Strings.Count_nl]; [reflexivity |].
  destruct (Ascii.eqb c Strings.nl); cbn [length]; [lia |].
  destruct (Strings.Split_nl s) as [| l ls]; cbn [length] in *; lia.
Qed.

Lemma Split_nl_nonempty (s : string) : Strings.Split_nl s <> [].
Proof.
  intros H. apply (f_equal length) in H. rewrite Split_nl_length in H.
  cbn [length] in H. lia.
Qed.

Lemma chunkAsFile_whole_file (ch : Chunkers.Kind) (content : string)
    (metadata : Chunker.FileMetadata) :
  Chunkers.whole_file (if Chunkers.falls_back ch then "file"
                       else match ch with Chunkers.Markdown => "document" | _ => "file" end)
                      content (Chunkers.fallback ch content metadata).
Proof.
  unfold Chunkers.whole_file.
  destruct ch; cbn [Chunkers.fallback Chunkers.falls_back]; eexists;
    (split; [reflexivity |]); cbn; rewrite ?Split_nl_length; auto.
Qed.

Lemma ranges_over_empty (r : list RegexChunker.symbolMatch) :
  RegexChunker.ranges_over (RegexChunker.byLine (fun _ => 0%nat) []) r -> r = [].
Proof.
  unfold RegexChunker.ranges_over. cbn [RegexChunker.byLine fold_left].
  rewrite map_to_list_empty. intros H. apply Permutation_nil. symmetry. exact H.
Qed.

Lemma no_symbols_fallback (cfg : Chunker.ChunkingConfig) (eng : Chunkers.Engines)
    (ch : Chunkers.Kind) (content : string) (metadata : Chunker.FileMetadata)
    (out : list Chunker.Chunk) :
  Chunkers.falls_back ch = true ->
  Chunkers.no_symbols eng ch content metadata ->
  Chunkers.may_return cfg eng ch content metadata out ->
  out = Chunkers.fallback ch content metadata.
Proof.
  destruct ch; cbn [Chunkers.falls_back Chunkers.no_symbols Chunkers.may_return
                    Chunkers.fallback]; try discriminate; intros _ Hno.
  - intros ->. unfold GoChunker.Chunk.
    destruct (Chunkers.goParser eng _ _) as [file |]; [| reflexivity].
    rewrite Hno. reflexivity.
  - intros (r & Hr & ->). rewrite Hno in Hr.
    apply ranges_over_empty in Hr. subst r. reflexivity.
  - intros (r & Hr & ->). rewrite Hno in Hr.
    apply ranges_over_empty in Hr. subst r. reflexivity.
Qed.

(** Once a section is open, lines that are not headings extend it and
    close nothing. *)
Lemma md_sectionsLoop_plain (lines : list string) :
  Forall (fun line => MarkdownChunker.headingPattern line = None) lines ->
  forall lineNum sections cur,
  exists cur',
    MarkdownChunker.sectionsLoop lines lineNum sections (Some cur) = (sections, Some cur') /\
    MarkdownChunker.heading cur' = MarkdownChunker.heading cur /\
    MarkdownChunker.startLine cur' = MarkdownChunker.startLine cur.
Proof.
  induction 1 as [| line rest Hline _ IH]; intros lineNum sections cur;
    cbn [MarkdownChunker.sectionsLoop].
  - exists cur. auto.
  - rewrite Hline.
    destruct (IH (S lineNum) sections
                (MarkdownChunker.mkSection (MarkdownChunker.heading cur)
                   (MarkdownChunker.level cur) (MarkdownChunker.startLine cur)
                   (MarkdownChunker.endLine cur)
                   (MarkdownChunker.content cur +:+ MarkdownChunker.NL +:+ line)
                   (MarkdownChunker.tokens cur)))
      as (cur' & Heq & Hh & Hs).
    exists cur'. auto.
Qed.

(** A file without headings is one section, the implicit introduction. *)
Lemma md_plain_sections (lines : list string) :
  lines <> [] ->
  Forall (fun line => MarkdownChunker.headingPattern line = None) lines ->
  exists sec,
    MarkdownChunker.extractSections lines = [sec] /\
    MarkdownChunker.heading sec = "(intro)" /\
    MarkdownChunker.startLine sec = 1%nat /\
    MarkdownChunker.endLine sec = length lines.
Proof.
  intros Hne Hplain. destruct lines as [| line rest]; [congruence |].
  apply Forall_cons in Hplain as [Hline Hrest].
  unfold MarkdownChunker.extractSections. cbn [MarkdownChunker.sectionsLoop].
  rewrite Hline.
  destruct (md_sectionsLoop_plain rest Hrest 2 []
              (MarkdownChunker.mkSection "(intro)" 0 1 0 line 0))
    as (cur' & -> & Hh & Hs).
  eexists. split; [reflexivity |]. cbn. auto.
Qed.

(** The loop always leaves a section open after the first line, so
    [extractSections] never returns an empty slice and [Chunk] never
    reaches [chunkAsFile]. *)
Lemma md_sectionsLoop_open (lines : list string) :
  forall lineNum sections cur,
    lines <> [] \/ cur <> None ->
    (MarkdownChunker.sectionsLoop lines lineNum sections cur).2 <> None.
Proof.
  induction lines as [| line rest IH]; intros lineNum sections cur Hor;
    cbn [MarkdownChunker.sectionsLoop].
  - destruct Hor as [H | H]; [congruence | exact H].
  - destruct (MarkdownChunker.headingPattern line) as [[level heading] |].
    + apply IH. right. discriminate.
    + destruct cur; apply IH; right; discriminate.
Qed.

Lemma md_sections_nonempty (content : string) :
  MarkdownChunker.extractSections (Strings.Split_nl content) <> [].
Proof.
  unfold MarkdownChunker.extractSections.
  pose proof (md_sectionsLoop_open (Strings.Split_nl content) 1 [] None
                (or_introl (Split_nl_nonempty content))) as H.
  destruct (MarkdownChunker.sectionsLoop (Strings.Split_nl content) 1 [] None)
    as [sections cur]. cbn [snd] in H.
  destruct cur as [c |]; [| congruence].
  intros Hnil. apply app_eq_nil in Hnil as [_ Hnil]. discriminate.
Qed.

Lemma md_plain_chunk (cfg : Chunker.ChunkingConfig) (content : string)
    (metadata : Chunker.FileMetadata) :
  Forall (fun line => MarkdownChunker.headingPattern line = None)
         (Strings.Split_nl content) ->
  exists c,
    MarkdownChunker.Chunk cfg content metadata = [c] /\
    Chunker.Symbol c = "(intro)" /\ Chunker.SymbolType c = "heading" /\
    Chunker.StartLine c = 1%nat /\
    Chunker.EndLine c = length (Strings.Split_nl content).
Proof.
  intros Hplain.
  destruct (md_plain_sections _ (Split_nl_nonempty content) Hplain)
    as (sec & Hsec & Hh & Hs & He).
  unfold MarkdownChunker.Chunk. rewrite Hsec.
  exists (MarkdownChunker.toChunk metadata sec).
  split; [destruct (Chunker.MergeSmallChunks cfg); reflexivity |].
  cbn. auto.
Qed.

(** C3 (counterexample). A Markdown file without a heading has no symbol
    to extract, and [Chunk] emits one chunk of type [heading] for it, not
    of type [file]; the fallback written for the Markdown chunker would
    emit type [document]. *)
Lemma markdown_without_headings_is_not_a_file_chunk :
  Chunkers.no_symbols Scenario.engines Chunkers.Markdown "plain text"
    (Chunker.mkFileMetadata "notes.md" "markdown" "" "p") /\
  Chunkers.may_return Chunker.DefaultConfig Scenario.engines Chunkers.Markdown "plain text"
    (Chunker.mkFileMetadata "notes.md" "markdown" "" "p")
    (MarkdownChunker.Chunk Chunker.DefaultConfig "plain text"
       (Chunker.mkFileMetadata "notes.md" "markdown" "" "p")) /\
  map Scenario.range
      (MarkdownChunker.Chunk Chunker.DefaultConfig "plain text"
         (Chunker.mkFileMetadata "notes.md" "markdown" "" "p"))
    = [ ("(intro)", 1%nat, 1%nat) ] /\
  map Chunker.SymbolType
      (MarkdownChunker.Chunk Chunker.DefaultConfig "plain text"
         (Chunker.mkFileMetadata "notes.md" "markdown" "" "p"))
    = [ "heading" ] /\
  map Chunker.SymbolType
      (Chunkers.fallback Chunkers.Markdown "plain text"
         (Chunker.mkFileMetadata "notes.md" "markdown" "" "p"))
    = [ "document" ] /\
  ~ Chunkers.whole_file "file" "plain text"
      (MarkdownChunker.Chunk Chunker.DefaultConfig "plain text"
         (Chunker.mkFileMetadata "notes.md" "markdown" "" "p")).
Proof.
  split; [repeat constructor |].
  split; [reflexivity |].
  split; [vm_compute; reflexivity |].
  split; [vm_compute; reflexivity |].
  split; [vm_compute; reflexivity |].
  intros (c & Hc & Ht & _).
  apply (f_equal (map Chunker.SymbolType)) in Hc.
  cbn [map] in Hc. rewrite Ht in Hc. vm_compute in Hc. discriminate Hc.
Qed.

(** C3 (as amended). When symbol extraction yields no symbols (for Go,
    including parser failure), the Go, PHP and TypeScript chunkers emit
    exactly one chunk, of type [file], with start line 1 and the file's
    line count as end line.  The Markdown chunker emits for a file without
    headings exactly one chunk, the section [(intro)] of type [heading],
    over the same lines; it always extracts at least one section, so the
    fallback written for it, which yields type [document], is never
    taken. *)
Theorem fallback_is_one_whole_file_chunk :
  (forall cfg eng ch content metadata out,
      Chunkers.falls_back ch = true ->
      Chunkers.no_symbols eng ch content metadata ->
      Chunkers.may_return cfg eng ch content metadata out ->
      out = Chunkers.fallback ch content metadata /\
      Chunkers.whole_file "file" content out) /\
  (forall cfg eng content metadata out,
      Chunkers.no_symbols eng Chunkers.Markdown content metadata ->
      Chunkers.may_return cfg eng Chunkers.Markdown content metadata out ->
      Chunkers.whole_file "heading" content out /\ map Chunker.Symbol out = [ "(intro)" ]) /\
  (forall content metadata,
      MarkdownChunker.extractSections (Strings.Split_nl content) <> [] /\
      Chunkers.whole_file "document" content
        (Chunkers.fallback Chunkers.Markdown content metadata)).
Proof.
  split; [| split].
  - intros cfg eng ch content metadata out Hfb Hno Hret.
    pose proof (no_symbols_fallback _ _ _ _ _ _ Hfb Hno Hret) as ->.
    split; [reflexivity |].
    pose proof (chunkAsFile_whole_file ch content metadata) as H.
    rewrite Hfb in H. exact H.
  - intros cfg eng content metadata out Hno ->.
    destruct (md_plain_chunk cfg content metadata Hno) as (c & -> & Hsym & Hty & Hs & He).
    split; [exists c; auto |]. cbn [map]. rewrite Hsym. reflexivity.
  - intros content metadata. split; [apply md_sections_nonempty |].
    apply (chunkAsFile_whole_file Chunkers.Markdown).
Qed.

(** The amended claim on a Go file that does not parse. *)
Lemma fallback_is_one_whole_file_chunk_witness :
  Chunkers.whole_file "file" "package"
    (GoChunker.Chunk Chunker.DefaultConfig Scenario.noParser "package"
       (Chunker.mkFileMetadata "broken.go" "go" "" "p")).
Proof.
  destruct fallback_is_one_whole_file_chunk as (Hfile & _).
  apply (Hfile Chunker.DefaultConfig
           (Chunkers.mkEngines Scenario.noParser (fun _ _ => []) (fun _ _ => []))
           Chunkers.Go "package" (Chunker.mkFileMetadata "broken.go" "go" "" "p")).
  - reflexivity.
  - exact I.
  - reflexivity.
Defined.

(** ** Small-chunk merging *)

Lemma go_mergeLoop_smalls (cfg : Chunker.ChunkingConfig) (smalls : list GoChunker.goSymbol) :
  Forall (fun s => GoChunker.small cfg s = true) smalls ->
  forall rest result pending,
    GoChunker.mergeLoop cfg (smalls ++ rest) result pending
    = GoChunker.mergeLoop cfg rest result (pending ++ smalls).
Proof.
  induction 1 as [| s smalls Hs _ IH]; intros rest result pending; cbn [app].
  - rewrite app_nil_r. reflexivity.
  - cbn [GoChunker.mergeLoop]. unfold GoChunker.small in Hs. rewrite Hs, IH.
    rewrite <- app_assoc. reflexivity.
Qed.

Lemma go_mergeLoop_large (cfg : Chunker.ChunkingConfig) (large : GoChunker.goSymbol)
    (rest result pending : list GoChunker.goSymbol) :
  GoChunker.small cfg large = false ->
  GoChunker.mergeLoop cfg (large :: rest) result pending
  = GoChunker.mergeLoop cfg rest (result ++ [GoChunker.attach large pending]) [].
Proof.
  intros H. cbn [GoChunker.mergeLoop]. unfold GoChunker.small in H. rewrite H. reflexivity.
Qed.

Lemma length_gt_1 {A : Type} (l : list A) (x y : A) (l' : list A) :
  l = x :: y :: l' -> (length l <=? 1)%nat = false.
Proof. intros ->. reflexivity. Qed.

Lemma regex_accumulate_keeps (first : RegexChunker.symbol) (smalls : list RegexChunker.symbol) :
  RegexChunker.symbolType (RegexChunker.accumulate first smalls)
    = RegexChunker.symbolType first /\
  RegexChunker.startLine (RegexChunker.accumulate first smalls)
    = RegexChunker.startLine first.
Proof.
  unfold RegexChunker.accumulate. revert first.
  induction smalls as [| s smalls IH]; intros first; cbn [fold_left]; [auto |].
  destruct (IH (RegexChunker.absorb first s)) as [-> ->]. auto.
Qed.

Lemma regex_mergeLoop_smalls (cfg : Chunker.ChunkingConfig)
    (smalls : list RegexChunker.symbol) :
  Forall (fun s => RegexChunker.small cfg s = true) smalls ->
  forall rest result p,
    RegexChunker.mergeLoop cfg (smalls ++ rest) result (Some p)
    = RegexChunker.mergeLoop cfg rest result (Some (RegexChunker.accumulate p smalls)).
Proof.
  induction 1 as [| s smalls Hs _ IH]; intros rest result p; cbn [app]; [reflexivity |].
  cbn [RegexChunker.mergeLoop]. unfold RegexChunker.small in Hs. rewrite Hs, IH.
  reflexivity.
Qed.

Lemma regex_mergeLoop_run (cfg : Chunker.ChunkingConfig)
    (first : RegexChunker.symbol) (smalls : list RegexChunker.symbol) :
  RegexChunker.small cfg first = true ->
  Forall (fun s => RegexChunker.small cfg s = true) smalls ->
  forall rest result,
    RegexChunker.mergeLoop cfg (first :: smalls ++ rest) result None
    = RegexChunker.mergeLoop cfg rest result (Some (RegexChunker.accumulate first smalls)).
Proof.
  intros Hf Hs rest result. cbn [RegexChunker.mergeLoop].
  unfold RegexChunker.small in Hf. rewrite Hf.
  apply regex_mergeLoop_smalls, Hs.
Qed.

Lemma regex_mergeLoop_large (cfg : Chunker.ChunkingConfig) (large : RegexChunker.symbol)
    (rest result : list RegexChunker.symbol) :
  RegexChunker.small cfg large = false ->
  RegexChunker.mergeLoop cfg (large :: rest) result None
  = RegexChunker.mergeLoop cfg rest (result ++ [large]) None.
Proof.
  intros H. cbn [RegexChunker.mergeLoop]. unfold RegexChunker.small in H. rewrite H.
  reflexivity.
Qed.

(** C5. The chunkers do not follow the merge policy.  With a window of
    10 to 12 tokens, a helper of 2 tokens followed by a function of 11:
    the policy flushes the helper as a [combined] chunk and leaves the
    function alone; the Go chunker merges the two into one chunk of 13
    tokens, above [max_tokens], and the PHP/TypeScript chunkers flush the
    helper under its own type, not as [combined].  With the helper after
    the function, the policy attaches it to the function (as the Go
    chunker does); the PHP/TypeScript chunkers emit it alone, a chunk of
    2 tokens below [min_tokens]. *)
Lemma merging_departs_from_the_policy :
  map GoChunker.shape (MergePolicy.go Scenario.narrow [Scenario.go_helper; Scenario.go_main])
    = [ ("combined", 1%nat, 1%nat); ("function", 3%nat, 9%nat) ] /\
  map GoChunker.shape
      (GoChunker.mergeSmallSymbols Scenario.narrow [Scenario.go_helper; Scenario.go_main])
    = [ ("function", 1%nat, 9%nat) ] /\
  map GoChunker.tokens
      (GoChunker.mergeSmallSymbols Scenario.narrow [Scenario.go_helper; Scenario.go_main])
    = [ 13%nat ] /\
  map RegexChunker.shape
      (MergePolicy.regex Scenario.narrow [Scenario.php_helper; Scenario.php_main])
    = [ ("combined", 1%nat, 1%nat); ("function", 3%nat, 9%nat) ] /\
  map RegexChunker.shape
      (RegexChunker.mergeSmallSymbols Scenario.narrow [Scenario.php_helper; Scenario.php_main])
    = [ ("function", 1%nat, 1%nat); ("function", 3%nat, 9%nat) ] /\
  map RegexChunker.shape
      (MergePolicy.regex Scenario.narrow [Scenario.php_main; Scenario.php_tail])
    = [ ("function", 3%nat, 11%nat) ] /\
  map RegexChunker.shape
      (RegexChunker.mergeSmallSymbols Scenario.narrow [Scenario.php_main; Scenario.php_tail])
    = [ ("function", 3%nat, 9%nat); ("function", 11%nat, 11%nat) ].
Proof. vm_compute. repeat split. Qed.

(** What the merge loops of the code do.  Under-sized symbols accumulate
    in one pending buffer.  Go chunker: an over-sized symbol always takes the pending
    symbols in ([mergeInto], no comparison with [max_tokens]); at the end
    of the file a remaining pending is attached to the last emitted large
    symbol, or emitted alone as a [combined] chunk when there is none.
    PHP and TypeScript chunkers: pending is prefixed onto an over-sized
    symbol when [pending.tokens + sym.tokens <= max_tokens] and is otherwise
    flushed as a chunk of its own, which keeps the type and start line of
    its first symbol; at the end of the file a remaining pending is emitted
    alone in that same form. *)
Theorem small_chunk_merging :
  (forall cfg smalls large rest result,
      Forall (fun s => GoChunker.small cfg s = true) smalls ->
      GoChunker.small cfg large = false ->
      GoChunker.mergeLoop cfg (smalls ++ large :: rest) result []
      = GoChunker.mergeLoop cfg rest (result ++ [GoChunker.attach large smalls]) []) /\
  (forall cfg small smalls large,
      Forall (fun s => GoChunker.small cfg s = true) (small :: smalls) ->
      GoChunker.small cfg large = false ->
      GoChunker.mergeSmallSymbols cfg (small :: smalls ++ [large])
        = [GoChunker.mergeInto large (small :: smalls)] /\
      GoChunker.mergeSmallSymbols cfg (large :: small :: smalls)
        = [GoChunker.mergeInto large (small :: smalls)]) /\
  (forall cfg small1 small2 smalls,
      Forall (fun s => GoChunker.small cfg s = true) (small1 :: small2 :: smalls) ->
      GoChunker.mergeSmallSymbols cfg (small1 :: small2 :: smalls)
        = [GoChunker.combineSymbols (small1 :: small2 :: smalls)] /\
      GoChunker.symbolType (GoChunker.combineSymbols (small1 :: small2 :: smalls))
        = "combined") /\
  (forall cfg small smalls large rest result,
      Forall (fun s => RegexChunker.small cfg s = true) (small :: smalls) ->
      RegexChunker.small cfg large = false ->
      RegexChunker.mergeLoop cfg (small :: smalls ++ large :: rest) result None
      = RegexChunker.mergeLoop cfg rest
          (result ++
             if Z.of_nat (RegexChunker.tokens (RegexChunker.accumulate small smalls))
                + Z.of_nat (RegexChunker.tokens large) <=? Chunker.MaxTokens cfg
             then [RegexChunker.prefixed (RegexChunker.accumulate small smalls) large]
             else [RegexChunker.accumulate small smalls; large])
          None) /\
  (forall cfg small smalls large,
      Forall (fun s => RegexChunker.small cfg s = true) (small :: smalls) ->
      RegexChunker.small cfg large = false ->
      RegexChunker.mergeSmallSymbols cfg (small :: smalls ++ [large])
        = (if Z.of_nat (RegexChunker.tokens (RegexChunker.accumulate small smalls))
              + Z.of_nat (RegexChunker.tokens large) <=? Chunker.MaxTokens cfg
           then [RegexChunker.prefixed (RegexChunker.accumulate small smalls) large]
           else [RegexChunker.accumulate small smalls; large]) /\
      RegexChunker.mergeSmallSymbols cfg (large :: small :: smalls)
        = [large; RegexChunker.accumulate small smalls] /\
      RegexChunker.symbolType (RegexChunker.accumulate small smalls)
        = RegexChunker.symbolType small /\
      RegexChunker.startLine (RegexChunker.accumulate small smalls)
        = RegexChunker.startLine small).
Proof.
  split; [| split; [| split; [| split]]].
  - intros cfg smalls large rest result Hs Hl.
    rewrite go_mergeLoop_smalls by exact Hs.
    rewrite go_mergeLoop_large by exact Hl. reflexivity.
  - intros cfg small smalls large Hs Hl. split.
    + unfold GoChunker.mergeSmallSymbols.
      rewrite (length_gt_1 _ small (hd large (smalls ++ [large]))
                 (tl (smalls ++ [large]))) by (destruct smalls; reflexivity).
      change (small :: smalls ++ [large]) with ((small :: smalls) ++ [large]).
      rewrite go_mergeLoop_smalls by exact Hs.
      rewrite go_mergeLoop_large by exact Hl. reflexivity.
    + unfold GoChunker.mergeSmallSymbols.
      rewrite (length_gt_1 _ large small smalls) by reflexivity.
      rewrite go_mergeLoop_large by exact Hl.
      rewrite <- (app_nil_r (small :: smalls)) at 1.
      rewrite go_mergeLoop_smalls by exact Hs. reflexivity.
  - intros cfg small1 small2 smalls Hs. split; [| reflexivity].
    unfold GoChunker.mergeSmallSymbols.
    rewrite (length_gt_1 _ small1 small2 smalls) by reflexivity.
    rewrite <- (app_nil_r (small1 :: small2 :: smalls)) at 1.
    rewrite go_mergeLoop_smalls by exact Hs. reflexivity.
  - intros cfg small smalls large rest result Hs Hl.
    apply Forall_cons in Hs as [Hs Hss].
    rewrite regex_mergeLoop_run by assumption.
    cbn [RegexChunker.mergeLoop]. unfold RegexChunker.small in Hl. rewrite Hl.
    destruct (_ <=? _); reflexivity.
  - intros cfg small smalls large Hs Hl.
    apply Forall_cons in Hs as [Hs Hss].
    split; [| split; [| apply regex_accumulate_keeps]].
    + unfold RegexChunker.mergeSmallSymbols.
      rewrite (length_gt_1 _ small (hd large (smalls ++ [large]))
                 (tl (smalls ++ [large]))) by (destruct smalls; reflexivity).
      rewrite regex_mergeLoop_run by assumption.
      cbn [RegexChunker.mergeLoop]. unfold RegexChunker.small in Hl. rewrite Hl.
      destruct (_ <=? _); reflexivity.
    + unfold RegexChunker.mergeSmallSymbols.
      rewrite (length_gt_1 _ large small smalls) by reflexivity.
      rewrite regex_mergeLoop_large by exact Hl.
      replace (small :: smalls) with (small :: smalls ++ [])
        by (rewrite app_nil_r; reflexivity).
      rewrite regex_mergeLoop_run by assumption. reflexivity.
Qed.

(** The Go merge on the helper and the function above. *)
Lemma small_chunk_merging_witness :
  GoChunker.mergeSmallSymbols Scenario.narrow [Scenario.go_helper; Scenario.go_main]
    = [GoChunker.mergeInto Scenario.go_main [Scenario.go_helper]] /\
  GoChunker.mergeSmallSymbols Scenario.narrow [Scenario.go_main; Scenario.go_helper]
    = [GoChunker.mergeInto Scenario.go_main [Scenario.go_helper]].
Proof.
  destruct small_chunk_merging as (_ & Hgo & _).
  apply (Hgo Scenario.narrow Scenario.go_helper [] Scenario.go_main).
  - constructor; [reflexivity | constructor].
  - reflexivity.
Defined.

(** * Part II, continued: the rest of the code *)

(** ** Lines *)

Lemma Join_cons (x : string) (rest : list string) (sep : string) :
  rest <> [] -> Strings.Join (x :: rest) sep = x +:+ sep +:+ Strings.Join rest sep.
Proof. destruct rest; [congruence | reflexivity]. Qed.

Lemma Join_Split_nl (s : string) :
  Strings.Join (Strings.Split_nl s) (String Strings.nl EmptyString) = s.
Proof.
  induction s as [| c s IH]; [reflexivity |].
  cbn [Strings.Split_nl].
  destruct (Ascii.eqb c Strings.nl) eqn:E.
  - apply Ascii.eqb_eq in E. subst c.
    rewrite Join_cons by apply Split_nl_nonempty. rewrite IH. reflexivity.
  - destruct (Strings.Split_nl s) as [| l ls] eqn:Hs.
    + exfalso. eapply Split_nl_nonempty. exact Hs.
    + destruct ls as [| l' ls'].
      * cbn [Strings.Join] in *. rewrite IH. reflexivity.
      * rewrite Join_cons by discriminate. rewrite Join_cons in IH by discriminate.
        rewrite <- IH. reflexivity.
Qed.

Lemma Split_nl_no_nl (s : string) :
  Forall (fun l => Strings.Count_nl l = 0%nat) (Strings.Split_nl s).
Proof.
  induction s as [| c s IH]; cbn [Strings.Split_nl].
  - constructor; [reflexivity | constructor].
  - destruct (Ascii.eqb c Strings.nl) eqn:E.
    + constructor; [reflexivity | exact IH].
    + destruct (Strings.Split_nl s) as [| l ls]; [repeat constructor; cbn; rewrite E; reflexivity |].
      inversion IH as [| ? ? Hl Hls]; subst.
      constructor; [| exact Hls]. cbn [Strings.Count_nl]. rewrite E, Hl. reflexivity.
Qed.

Lemma Split_nl_app_line (l rest : string) :
  Strings.Count_nl l = 0%nat ->
  Strings.Split_nl (l +:+ String Strings.nl rest) = l :: Strings.Split_nl rest.
Proof.
  induction l as [| c l IH]; intros H.
  - reflexivity.
  - cbn [Strings.Count_nl] in H.
    change (String c l +:+ String Strings.nl rest)
      with (String c (l +:+ String Strings.nl rest)).
    cbn [Strings.Split_nl].
    destruct (Ascii.eqb c Strings.nl) eqn:E; [discriminate |].
    rewrite IH by (cbn in H; lia). reflexivity.
Qed.

Lemma Split_nl_line (l : string) :
  Strings.Count_nl l = 0%nat -> Strings.Split_nl l = [l].
Proof.
  induction l as [| c l IH]; intros H; [reflexivity |].
  cbn [Strings.Count_nl] in H. cbn [Strings.Split_nl].
  destruct (Ascii.eqb c Strings.nl) eqn:E; [discriminate |].
  rewrite IH by (cbn in H; lia). reflexivity.
Qed.

Lemma Split_nl_Join (lines : list string) :
  lines <> [] ->
  Forall (fun l => Strings.Count_nl l = 0%nat) lines ->
  Strings.Split_nl (Strings.Join lines (String Strings.nl EmptyString)) = lines.
Proof.
  induction lines as [| l ls IH]; [congruence |].
  intros _ H. inversion H as [| ? ? Hl Hls]; subst.
  destruct ls as [| l' ls'].
  - cbn [Strings.Join]. apply Split_nl_line, Hl.
  - rewrite Join_cons by discriminate.
    change (l +:+ String Strings.nl "" +:+ ?r) with (l +:+ String Strings.nl r).
    rewrite Split_nl_app_line by exact Hl. rewrite IH; [reflexivity | discriminate | exact Hls].
Qed.

Lemma imap_seq_numbers (f : nat -> nat) (l : list string) :
  map Lines.Number (imap (fun i x => Lines.mkLine (f i) x) l) = map f (seq 0 (length l)).
Proof.
  revert f. induction l as [| x l IH]; intros f; [reflexivity |].
  cbn [imap map length seq Lines.Number]. f_equal.
  rewrite <- seq_shift, map_map. apply (IH (f ∘ S)).
Qed.

(** X1. [JoinLines] undoes [SplitIntoLines]; the lines are numbered 1, 2,
    ... up to one more than the number of newlines, and no line holds a
    newline. *)
Theorem lines_round_trip (content : string) :
  Lines.JoinLines (Lines.SplitIntoLines content) = content /\
  map Lines.Number (Lines.SplitIntoLines content)
    = seq 1 (Strings.Count_nl content + 1) /\
  Forall (fun l => Strings.Count_nl (Lines.Content l) = 0%nat)
         (Lines.SplitIntoLines content).
Proof.
  unfold Lines.JoinLines, Lines.SplitIntoLines.
  assert (Hc : forall (l : list string) (f : nat -> nat),
             map Lines.Content (imap (fun i x => Lines.mkLine (f i) x) l) = l).
  { induction l as [| x l IH]; intros f; [reflexivity |].
    cbn [imap map Lines.Content]. f_equal. apply (IH (f ∘ S)). }
  split; [| split].
  - rewrite (Hc _ (fun i => (i + 1)%nat)). apply Join_Split_nl.
  - rewrite (imap_seq_numbers (fun i => (i + 1)%nat)), Split_nl_length.
    rewrite <- (seq_shift _ 0), map_ext with (g := S); [reflexivity |].
    intros i. lia.
  - apply Forall_forall. intros l Hl.
    apply (list_elem_of_fmap_2 Lines.Content) in Hl.
    change (Lines.Content l ∈ map Lines.Content
              (imap (fun i x => Lines.mkLine (i + 1) x) (Strings.Split_nl content))) in Hl.
    rewrite (Hc _ (fun i => (i + 1)%nat)) in Hl.
    pose proof (Split_nl_no_nl content) as H. rewrite Forall_forall in H. apply H, Hl.
Qed.

(** X2. [extractLines] returns exactly the lines [a] to [b] of the file,
    and the whole file for the range 1 to N. *)
Theorem extractLines_gives_the_lines (content : string) (a b : nat) :
  (1 <= a)%nat -> (a <= b)%nat -> (b <= length (Strings.Split_nl content))%nat ->
  Strings.Split_nl (Chunker.extractLines (Strings.Split_nl content) a b)
    = take (b - a + 1) (drop (a - 1) (Strings.Split_nl content)) /\
  Chunker.extractLines (Strings.Split_nl content) 1 (length (Strings.Split_nl content))
    = content.
Proof.
  intros Ha Hab Hb. unfold Chunker.extractLines.
  pose proof (Split_nl_no_nl content) as Hnl.
  set (lines := Strings.Split_nl content) in *.
  split.
  - destruct (a <? 1)%nat eqn:E1; [apply Nat.ltb_lt in E1; lia |].
    destruct (length lines <? b)%nat eqn:E2; [apply Nat.ltb_lt in E2; lia |].
    destruct (b <? a)%nat eqn:E3; [apply Nat.ltb_lt in E3; lia |].
    replace (b - (a - 1))%nat with (b - a + 1)%nat by lia.
    apply Split_nl_Join.
    + intros H. apply (f_equal length) in H.
      rewrite length_take, length_drop in H. cbn [length] in H. lia.
    + apply Forall_take, Forall_drop, Hnl.
  - pose proof (Split_nl_length content) as Hlen. fold lines in Hlen.
    change (1 <? 1)%nat with false. cbv iota.
    rewrite Nat.ltb_irrefl.
    destruct (length lines <? 1)%nat eqn:E; [apply Nat.ltb_lt in E; lia |].
    cbn [Nat.sub drop]. rewrite Nat.sub_0_r, firstn_all.
    apply Join_Split_nl.
Qed.

(** Lines 3 to 5 of the Go file [m.go]. *)
Lemma extractLines_gives_the_lines_witness :
  Strings.Split_nl
    (Chunker.extractLines (Strings.Split_nl (Scenario.m_go Scenario.func_B)) 3 5)
    = take (5 - 3 + 1) (drop (3 - 1) (Strings.Split_nl (Scenario.m_go Scenario.func_B))) /\
  Chunker.extractLines (Strings.Split_nl (Scenario.m_go Scenario.func_B)) 1
    (length (Strings.Split_nl (Scenario.m_go Scenario.func_B)))
    = Scenario.m_go Scenario.func_B.
Proof.
  apply (extractLines_gives_the_lines (Scenario.m_go Scenario.func_B) 3 5).
  - lia.
  - lia.
  - vm_compute. lia.
Defined.

(** ** Strings *)

Lemma append_cons (x : ascii) (a b : string) : String x a +:+ b = String x (a +:+ b).
Proof. reflexivity. Qed.

Lemma append_assoc (a b c : string) : (a +:+ b) +:+ c = a +:+ b +:+ c.
Proof.
  induction a as [| x a IH]; [reflexivity |]. rewrite !append_cons, IH. reflexivity.
Qed.

Lemma append_nil_r (a : string) : a +:+ "" = a.
Proof.
  induction a as [| x a IH]; [reflexivity |]. rewrite append_cons, IH. reflexivity.
Qed.

Lemma length_append (a b : string) :
  String.length (a +:+ b) = (String.length a + String.length b)%nat.
Proof.
  induction a as [| x a IH]; [reflexivity |].
  rewrite append_cons. cbn [String.length]. rewrite IH. reflexivity.
Qed.

Lemma Join_app (l1 l2 : list string) (sep : string) :
  l1 <> [] -> l2 <> [] ->
  Strings.Join (l1 ++ l2) sep = Strings.Join l1 sep +:+ sep +:+ Strings.Join l2 sep.
Proof.
  induction l1 as [| x l1 IH]; [congruence |]. intros _ H2.
  destruct l1 as [| y l1].
  - cbn [app]. rewrite Join_cons by exact H2. reflexivity.
  - change ((x :: y :: l1) ++ l2) with (x :: (y :: l1) ++ l2).
    rewrite Join_cons by (cbn; discriminate). rewrite IH; [| discriminate | exact H2].
    rewrite (Join_cons x (y :: l1)) by discriminate. rewrite !append_assoc. reflexivity.
Qed.

Lemma Join_concat (groups : list (list string)) (sep : string) :
  Forall (fun g => g <> []) groups ->
  Strings.Join (map (fun g => Strings.Join g sep) groups) sep
    = Strings.Join (concat groups) sep.
Proof.
  induction groups as [| g gs IH]; [reflexivity |]. intros H.
  inversion H as [| ? ? Hg Hgs]; subst.
  destruct gs as [| g' gs'].
  - cbn [map concat Strings.Join]. rewrite app_nil_r. reflexivity.
  - cbn [map]. rewrite Join_cons by discriminate.
    change (Strings.Join g' sep :: map (fun g => Strings.Join g sep) gs')
      with (map (fun g => Strings.Join g sep) (g' :: gs')).
    rewrite IH by exact Hgs.
    change (concat (g :: g' :: gs')) with (g ++ concat (g' :: gs')).
    rewrite (Join_app g (concat (g' :: gs'))); [reflexivity | exact Hg |].
    inversion Hgs; subst. destruct g'; [congruence | discriminate].
Qed.

(** ** Line ranges *)

Lemma tiles_snoc (ranges : list (nat * nat)) (a s e : nat) :
  Layout.tiles a (s - 1) ranges -> (1 <= s)%nat -> (s <= e)%nat ->
  Layout.tiles a e (ranges ++ [(s, e)]).
Proof.
  revert a. induction ranges as [| [s0 e0] rest IH]; intros a H Hs He.
  - cbn in *. lia.
  - cbn [Layout.tiles app] in *. destruct H as (H1 & H2 & H3).
    split; [exact H1 |]. split; [exact H2 |]. apply IH; assumption.
Qed.

Lemma lineTokens_app (l1 l2 : list string) :
  Layout.lineTokens (l1 ++ l2) = (Layout.lineTokens l1 + Layout.lineTokens l2)%nat.
Proof.
  unfold Layout.lineTokens. induction l1 as [| x l1 IH]; [reflexivity |].
  cbn [app foldr]. rewrite IH. lia.
Qed.

Lemma length_Join_lineTokens (lines : list string) :
  (4 * Layout.lineTokens lines <= String.length (Strings.Join lines GenericChunker.NL))%nat.
Proof.
  induction lines as [| l ls IH]; [cbn; lia |].
  unfold Layout.lineTokens in *. cbn [foldr].
  assert (4 * Chunker.EstimateTokens l <= String.length l)%nat as Hl.
  { unfold Chunker.EstimateTokens.
    pose proof (Nat.Div0.mul_div_le (String.length l) 4). lia. }
  destruct ls as [| l' ls'].
  - cbn [Strings.Join foldr] in *. lia.
  - rewrite Join_cons by discriminate. rewrite !length_append. lia.
Qed.

(** ** The generic chunker *)

(** What holds of every fragment: its content has as many lines as its
    line range, and it is one line or within the token ceiling. *)
Lemma generic_chunkLoop_inv (cfg : Chunker.ChunkingConfig) (md : Chunker.FileMetadata)
    (P : Chunker.Chunk -> Prop) :
  (forall cur s e,
      cur <> [] -> Forall (fun l => Strings.Count_nl l = 0%nat) cur ->
      (s + length cur = e + 1)%nat ->
      ((length cur <= 1)%nat \/ Z.of_nat (Layout.lineTokens cur) <= Chunker.MaxTokens cfg) ->
      P (GenericChunker.createChunk cur s e md)) ->
  forall lines done chunks cur start,
    Forall (fun l => Strings.Count_nl l = 0%nat) lines ->
    Forall (fun l => Strings.Count_nl l = 0%nat) cur ->
    (1 <= start)%nat -> (start + length cur = length done + 1)%nat ->
    Layout.tiles 1 (start - 1) (map Layout.chunkRange chunks) ->
    concat (map (fun c => Strings.Split_nl (Chunker.Content c)) chunks) ++ cur = done ->
    Forall P chunks ->
    ((length cur <= 1)%nat \/ Z.of_nat (Layout.lineTokens cur) <= Chunker.MaxTokens cfg) ->
    match GenericChunker.chunkLoop cfg md lines (length done) chunks cur
            (Layout.lineTokens cur) start with
    | (chunks', cur', start') =>
        Forall (fun l => Strings.Count_nl l = 0%nat) cur' /\
        (1 <= start')%nat /\
        (start' + length cur' = length done + length lines + 1)%nat /\
        Layout.tiles 1 (start' - 1) (map Layout.chunkRange chunks') /\
        concat (map (fun c => Strings.Split_nl (Chunker.Content c)) chunks') ++ cur'
          = done ++ lines /\
        Forall P chunks' /\
        ((length cur' <= 1)%nat \/
         Z.of_nat (Layout.lineTokens cur') <= Chunker.MaxTokens cfg)
    end.
Proof.
  intros HP lines.
  induction lines as [| line rest IH]; intros done chunks cur start Hl Hc Hs Hlen Ht Hd Hch Hb.
  - cbn [GenericChunker.chunkLoop length]. rewrite app_nil_r, Nat.add_0_r. tauto.
  - cbn [GenericChunker.chunkLoop].
    apply Forall_cons in Hl as [Hline Hrest].
    destruct ((Chunker.MaxTokens cfg <?
                 Z.of_nat (Layout.lineTokens cur) + Z.of_nat (Chunker.EstimateTokens line))
              && (0 <? length cur)%nat) eqn:E.
    + apply andb_true_iff in E as [_ E]. apply Nat.ltb_lt in E.
      assert (cur <> []) as Hne by (destruct cur; [cbn in E; lia | discriminate]).
      assert (Strings.Split_nl
                (Chunker.Content (GenericChunker.createChunk cur start (length done) md))
              = cur) as Hsplit.
      { cbn [GenericChunker.createChunk Chunker.Content]. apply Split_nl_Join; assumption. }
      assert (length (done ++ [line]) = S (length done)) as Hdl
        by (rewrite length_app; cbn; lia).
      assert (Layout.lineTokens [line] = Chunker.EstimateTokens line) as Hlt
        by (unfold Layout.lineTokens; cbn; lia).
      rewrite <- Hdl, <- Hlt.
      replace (length done + 1)%nat with (length (done ++ [line])) by lia.
      assert (Forall (fun l => Strings.Count_nl l = 0%nat) [line]) as A1
        by (constructor; [exact Hline | constructor]).
      assert (1 <= length (done ++ [line]))%nat as A2 by lia.
      assert (length (done ++ [line]) + length [line] = length (done ++ [line]) + 1)%nat
        as A3 by (cbn [length]; lia).
      assert (Layout.tiles 1 (length (done ++ [line]) - 1)
                (map Layout.chunkRange
                   (chunks ++ [GenericChunker.createChunk cur start (length done) md])))
        as A4.
      { rewrite map_app.
        change (map Layout.chunkRange [GenericChunker.createChunk cur start (length done) md])
          with [(start, length done)].
        rewrite Hdl. replace (S (length done) - 1)%nat with (length done) by lia.
        apply tiles_snoc; [exact Ht | exact Hs | lia]. }
      assert (concat (map (fun c => Strings.Split_nl (Chunker.Content c))
                        (chunks ++ [GenericChunker.createChunk cur start (length done) md]))
              ++ [line] = done ++ [line]) as A5.
      { rewrite map_app, concat_app. cbn [map concat]. rewrite Hsplit, app_nil_r.
        rewrite Hd. reflexivity. }
      assert (Forall P (chunks ++ [GenericChunker.createChunk cur start (length done) md]))
        as A6.
      { apply Forall_app. split; [exact Hch |]. constructor; [| constructor].
        apply HP; [exact Hne | exact Hc | lia | exact Hb]. }
      assert ((length [line] <= 1)%nat \/
              Z.of_nat (Layout.lineTokens [line]) <= Chunker.MaxTokens cfg) as A7
        by (left; cbn; lia).
      pose proof (IH (done ++ [line]) _ [line] (length (done ++ [line]))
                    Hrest A1 A2 A3 A4 A5 A6 A7) as IH'.
      destruct (GenericChunker.chunkLoop cfg md rest (length (done ++ [line])) _ _ _ _)
        as [[chunks' cur'] start'].
      rewrite <- app_assoc in IH'. cbn [app] in IH'. cbn [length].
      rewrite Hdl in IH'.
      replace (length done + S (length rest) + 1)%nat
        with (S (length done) + length rest + 1)%nat by lia.
      exact IH'.
    + assert (length (done ++ [line]) = S (length done)) as Hdl
        by (rewrite length_app; cbn; lia).
      assert (Layout.lineTokens (cur ++ [line])
              = (Layout.lineTokens cur + Chunker.EstimateTokens line)%nat) as Hlt
        by (rewrite lineTokens_app; unfold Layout.lineTokens; cbn; lia).
      rewrite <- Hdl, <- Hlt.
      assert (Forall (fun l => Strings.Count_nl l = 0%nat) (cur ++ [line])) as A1
        by (apply Forall_app; split; [exact Hc |]; constructor; [exact Hline | constructor]).
      assert (start + length (cur ++ [line]) = length (done ++ [line]) + 1)%nat as A3
        by (rewrite !length_app; cbn [length]; lia).
      assert (concat (map (fun c => Strings.Split_nl (Chunker.Content c)) chunks)
              ++ cur ++ [line] = done ++ [line]) as A5
        by (rewrite app_assoc, Hd; reflexivity).
      assert ((length (cur ++ [line]) <= 1)%nat \/
              Z.of_nat (Layout.lineTokens (cur ++ [line])) <= Chunker.MaxTokens cfg) as A7.
      { apply andb_false_iff in E as [E | E].
        - right. apply Z.ltb_ge in E. rewrite Hlt. lia.
        - left. apply Nat.ltb_ge in E. rewrite length_app. cbn [length]. lia. }
      pose proof (IH (done ++ [line]) chunks (cur ++ [line]) start
                    Hrest A1 Hs A3 Ht A5 Hch A7) as IH'.
      destruct (GenericChunker.chunkLoop cfg md rest (length (done ++ [line])) _ _ _ _)
        as [[chunks' cur'] start'].
      rewrite <- app_assoc in IH'. cbn [app] in IH'. cbn [length].
      rewrite Hdl in IH'.
      replace (length done + S (length rest) + 1)%nat
        with (S (length done) + length rest + 1)%nat by lia.
      exact IH'.
Qed.

Lemma Join_snoc (l : list string) (x sep : string) :
  l <> [] -> Strings.Join (l ++ [x]) sep = Strings.Join l sep +:+ sep +:+ x.
Proof. intros H. rewrite Join_app; [reflexivity | exact H | discriminate]. Qed.

Lemma Join_snoc_append (l : list string) (x y sep : string) :
  Strings.Join (l ++ [x +:+ sep +:+ y]) sep = Strings.Join (l ++ [x]) sep +:+ sep +:+ y.
Proof.
  destruct l as [| z l]; [reflexivity |].
  rewrite !Join_snoc by discriminate. rewrite !append_assoc. reflexivity.
Qed.

Lemma tiles_lower (ranges : list (nat * nat)) (a b : nat) :
  Layout.tiles a b ranges -> Forall (fun r => (a <= r.1)%nat) ranges.
Proof.
  revert a. induction ranges as [| [s e] rest IH]; intros a H; [constructor |].
  cbn [Layout.tiles] in H. destruct H as (-> & Hse & H).
  constructor; [cbn; lia |].
  eapply Forall_impl; [apply (IH _ H) |]. cbn. intros r Hr. lia.
Qed.

(** Chunks that tile a range of lines do not share a line. *)
Lemma tiles_disjoint (chunks : list Chunker.Chunk) (a b : nat) :
  Layout.tiles a b (map Layout.chunkRange chunks) -> Scenario.disjoint chunks = true.
Proof.
  revert a. induction chunks as [| c rest IH]; intros a H; [reflexivity |].
  cbn [map Layout.tiles Layout.chunkRange Scenario.disjoint] in *.
  destruct H as (_ & Hse & H).
  apply andb_true_iff. split; [| apply (IH _ H)].
  apply tiles_lower in H. apply forallb_forall. intros d Hd.
  rewrite Forall_forall in H.
  assert (S (Chunker.EndLine c) <= Chunker.StartLine d)%nat as Hlt.
  { apply (H (Layout.chunkRange d)). apply list_elem_of_fmap_2. apply list_elem_of_In, Hd. }
  unfold Chunker.overlaps. apply negb_true_iff, andb_false_iff. right.
  apply Nat.leb_gt. lia.
Qed.

Lemma tiles_merge (l r : list (nat * nat)) (a b s1 e1 s2 e2 : nat) :
  Layout.tiles a b (l ++ (s1, e1) :: (s2, e2) :: r) ->
  Layout.tiles a b (l ++ (s1, e2) :: r).
Proof.
  revert a. induction l as [| [s e] l IH]; intros a H.
  - cbn [app Layout.tiles] in *. destruct H as (H1 & H2 & H3 & H4 & H5).
    split; [exact H1 |]. split; [lia | exact H5].
  - cbn [app Layout.tiles] in *. destruct H as (H1 & H2 & H3).
    split; [exact H1 |]. split; [exact H2 |]. apply IH, H3.
Qed.

(** ** Markdown sections *)

Lemma md_sectionsLoop_inv (lines : list string) :
  forall (done : list string) (sections : list MarkdownChunker.mdSection)
         (cur : option MarkdownChunker.mdSection),
    match cur with
    | None => done = [] /\ sections = []
    | Some c =>
        (1 <= MarkdownChunker.startLine c <= length done)%nat /\
        Layout.tiles 1 (MarkdownChunker.startLine c - 1)
          (map Layout.sectionRange sections) /\
        Strings.Join (map MarkdownChunker.content sections ++ [MarkdownChunker.content c])
          MarkdownChunker.NL = Strings.Join done MarkdownChunker.NL
    end ->
    match MarkdownChunker.sectionsLoop lines (S (length done)) sections cur with
    | (sections', cur') =>
        match cur' with
        | None => done ++ lines = [] /\ sections' = []
        | Some c =>
            (1 <= MarkdownChunker.startLine c <= length (done ++ lines))%nat /\
            Layout.tiles 1 (MarkdownChunker.startLine c - 1)
              (map Layout.sectionRange sections') /\
            Strings.Join
              (map MarkdownChunker.content sections' ++ [MarkdownChunker.content c])
              MarkdownChunker.NL = Strings.Join (done ++ lines) MarkdownChunker.NL
        end
    end.
Proof.
  induction lines as [| line rest IH]; intros done sections cur H.
  - cbn [MarkdownChunker.sectionsLoop]. rewrite app_nil_r. exact H.
  - cbn [MarkdownChunker.sectionsLoop].
    assert (length (done ++ [line]) = S (length done)) as Hdl
      by (rewrite length_app; cbn; lia).
    replace (done ++ line :: rest) with ((done ++ [line]) ++ rest)
      by (rewrite <- app_assoc; reflexivity).
    rewrite <- Hdl.
    destruct (MarkdownChunker.headingPattern line) as [[level heading] |].
    + apply IH. cbn [MarkdownChunker.startLine MarkdownChunker.content].
      split; [lia |].
      destruct cur as [c |].
      * destruct H as (Hs & Ht & Hj).
        rewrite !map_app. cbn [map Layout.sectionRange MarkdownChunker.startLine
                               MarkdownChunker.endLine MarkdownChunker.content].
        rewrite Hdl. split.
        -- replace (S (length done) - 1)%nat with (length done) by lia.
           unfold Layout.sectionRange at 2.
           cbn [MarkdownChunker.startLine MarkdownChunker.endLine].
           apply tiles_snoc; [exact Ht | lia | lia].
        -- rewrite (Join_snoc _ line) by (destruct (map MarkdownChunker.content sections);
                                          discriminate).
           rewrite Hj. rewrite Join_snoc; [reflexivity |].
           destruct done; [cbn in Hs; lia | discriminate].
      * destruct H as (-> & ->). cbn. split; [reflexivity | reflexivity].
    + destruct cur as [c |].
      * apply IH. cbn [MarkdownChunker.startLine MarkdownChunker.content].
        destruct H as (Hs & Ht & Hj).
        split; [lia |]. split; [exact Ht |].
        unfold MarkdownChunker.NL at 1.
        rewrite (Join_snoc_append _ _ line). fold MarkdownChunker.NL. rewrite Hj.
        rewrite Join_snoc; [reflexivity |].
        destruct done; [cbn in Hs; lia | discriminate].
      * apply IH. cbn [MarkdownChunker.startLine MarkdownChunker.content].
        destruct H as (-> & ->). cbn. split; [lia |]. split; reflexivity.
Qed.

Lemma md_extractSections_inv (lines : list string) :
  Layout.tiles 1 (length lines)
    (map Layout.sectionRange (MarkdownChunker.extractSections lines)) /\
  Strings.Join (map MarkdownChunker.content (MarkdownChunker.extractSections lines))
    MarkdownChunker.NL = Strings.Join lines MarkdownChunker.NL.
Proof.
  unfold MarkdownChunker.extractSections.
  pose proof (md_sectionsLoop_inv lines [] [] None (conj eq_refl eq_refl)) as H.
  cbn [length app] in H.
  destruct (MarkdownChunker.sectionsLoop lines 1 [] None) as [sections [c |]].
  - destruct H as (Hs & Ht & Hj).
    rewrite !map_app.
    cbn [map Layout.sectionRange MarkdownChunker.startLine MarkdownChunker.endLine
         MarkdownChunker.content].
    split; [| exact Hj]. unfold Layout.sectionRange at 2.
    cbn [MarkdownChunker.startLine MarkdownChunker.endLine].
    apply tiles_snoc; [exact Ht | lia | lia].
  - destruct H as (-> & ->). split; reflexivity.
Qed.

Lemma generic_chunks_inv (cfg : Chunker.ChunkingConfig) (content : string)
    (md : Chunker.FileMetadata) :
  let out := GenericChunker.Chunk cfg content md in
  Layout.tiles 1 (length (Strings.Split_nl content)) (map Layout.chunkRange out) /\
  concat (map (fun c => Strings.Split_nl (Chunker.Content c)) out)
    = Strings.Split_nl content /\
  Forall (fun c =>
            (Chunker.StartLine c + length (Strings.Split_nl (Chunker.Content c))
             = Chunker.EndLine c + 1)%nat /\
            ((length (Strings.Split_nl (Chunker.Content c)) <= 1)%nat \/
             Z.of_nat (Layout.lineTokens (Strings.Split_nl (Chunker.Content c)))
             <= Chunker.MaxTokens cfg)) out.
Proof.
  cbv zeta. unfold GenericChunker.Chunk.
  destruct (Z.of_nat (Chunker.EstimateTokens content) <=? Chunker.MaxTokens cfg) eqn:E.
  - cbn [GenericChunker.singleChunk map Layout.chunkRange Chunker.StartLine Chunker.EndLine
         Chunker.Content concat Layout.tiles].
    rewrite app_nil_r, Split_nl_length.
    split; [split; [reflexivity | split; [lia | reflexivity]] |].
    split; [reflexivity |].
    unfold GenericChunker.singleChunk. constructor; [| constructor].
    cbn [Chunker.StartLine Chunker.EndLine Chunker.Content]. rewrite Split_nl_length.
    split; [lia |]. right.
    apply Z.leb_le in E.
    pose proof (length_Join_lineTokens (Strings.Split_nl content)) as H.
    unfold GenericChunker.NL in H. rewrite Join_Split_nl in H.
    unfold Chunker.EstimateTokens in E.
    assert (Layout.lineTokens (Strings.Split_nl content) <= String.length content / 4)%nat.
    { apply Nat.div_le_lower_bound; lia. }
    lia.
  - pose proof (generic_chunkLoop_inv cfg md
                  (fun c =>
                     (Chunker.StartLine c + length (Strings.Split_nl (Chunker.Content c))
                      = Chunker.EndLine c + 1)%nat /\
                     ((length (Strings.Split_nl (Chunker.Content c)) <= 1)%nat \/
                      Z.of_nat (Layout.lineTokens (Strings.Split_nl (Chunker.Content c)))
                      <= Chunker.MaxTokens cfg))) as Inv.
    assert (HP : forall cur s e,
               cur <> [] -> Forall (fun l => Strings.Count_nl l = 0%nat) cur ->
               (s + length cur = e + 1)%nat ->
               ((length cur <= 1)%nat \/
                Z.of_nat (Layout.lineTokens cur) <= Chunker.MaxTokens cfg) ->
               (Chunker.StartLine (GenericChunker.createChunk cur s e md) +
                length (Strings.Split_nl
                          (Chunker.Content (GenericChunker.createChunk cur s e md)))
                = Chunker.EndLine (GenericChunker.createChunk cur s e md) + 1)%nat /\
               ((length (Strings.Split_nl
                           (Chunker.Content (GenericChunker.createChunk cur s e md)))
                 <= 1)%nat \/
                Z.of_nat (Layout.lineTokens
                            (Strings.Split_nl
                               (Chunker.Content (GenericChunker.createChunk cur s e md))))
                <= Chunker.MaxTokens cfg)).
    { intros cur s e Hne Hnl Hlen Hb.
      cbn [GenericChunker.createChunk Chunker.Content Chunker.StartLine Chunker.EndLine].
      unfold GenericChunker.NL. rewrite Split_nl_Join by assumption. tauto. }
    specialize (Inv HP (Strings.Split_nl content) [] [] [] 1%nat (Split_nl_no_nl content)).
    cbn [length map concat app Layout.tiles Nat.sub Nat.add] in Inv.
    change (Layout.lineTokens []) with 0%nat in Inv.
    specialize (Inv ltac:(constructor) ltac:(lia) eq_refl eq_refl eq_refl ltac:(constructor)
                    ltac:(left; lia)).
    destruct (GenericChunker.chunkLoop cfg md (Strings.Split_nl content) 0 [] [] 0 1)
      as [[chunks cur] start].
    destruct Inv as (Hnl & Hs & Hlen & Ht & Hd & Hch & Hb).
    destruct (0 <? length cur)%nat eqn:E0.
    + apply Nat.ltb_lt in E0.
      assert (cur <> []) as Hne by (destruct cur; [cbn in E0; lia | discriminate]).
      assert (Strings.Split_nl
                (Chunker.Content
                   (GenericChunker.createChunk cur start
                      (length (Strings.Split_nl content)) md)) = cur) as Hsplit.
      { cbn [GenericChunker.createChunk Chunker.Content]. apply Split_nl_Join; assumption. }
      rewrite !map_app, concat_app. cbn [map concat]. rewrite Hsplit, app_nil_r.
      split; [| split; [exact Hd |]].
      * change (map Layout.chunkRange
                  [GenericChunker.createChunk cur start
                     (length (Strings.Split_nl content)) md])
          with [(start, length (Strings.Split_nl content))].
        apply tiles_snoc; [exact Ht | exact Hs | cbn [Chunker.StartLine Chunker.EndLine GenericChunker.createChunk]; lia].
      * apply Forall_app. split; [exact Hch |]. constructor; [| constructor].
        apply HP; [exact Hne | exact Hnl | lia | exact Hb].
    + apply Nat.ltb_ge in E0. assert (cur = []) as -> by (destruct cur; [reflexivity | cbn in E0; lia]).
      rewrite app_nil_r in Hd. cbn [length] in Hlen.
      replace (length (Strings.Split_nl content)) with (start - 1)%nat by lia.
      split; [exact Ht | split; [exact Hd | exact Hch]].
Qed.

(** X3. The chunks of the generic chunker tile the file: the first starts
    at line 1, each next one starts on the line after the previous one
    ends, and the last ends at the last line, so no two of them share a
    line; each chunk's content has as many lines as its range, and their
    contents joined by newlines are the file. *)
Theorem generic_chunks_tile_the_file (cfg : Chunker.ChunkingConfig) (content : string)
    (metadata : Chunker.FileMetadata) :
  let out := GenericChunker.Chunk cfg content metadata in
  Layout.tiles 1 (length (Strings.Split_nl content)) (map Layout.chunkRange out) /\
  Scenario.disjoint out = true /\
  Strings.Join (map Chunker.Content out) GenericChunker.NL = content /\
  Forall (fun c =>
            (Chunker.StartLine c + length (Strings.Split_nl (Chunker.Content c))
             = Chunker.EndLine c + 1)%nat) out.
Proof.
  cbv zeta. destruct (generic_chunks_inv cfg content metadata) as (Ht & Hd & Hch).
  split; [exact Ht |]. split; [eapply tiles_disjoint, Ht |]. split.
  - rewrite <- (Join_Split_nl content) at 2. unfold GenericChunker.NL.
    rewrite <- Hd, <- Join_concat.
    + rewrite map_map. f_equal. apply map_ext. intros c. symmetry. apply Join_Split_nl.
    + apply Forall_forall. intros g Hg. apply list_elem_of_fmap in Hg as (c & -> & _).
      apply Split_nl_nonempty.
  - eapply Forall_impl; [exact Hch |]. intros c [H _]. exact H.
Qed.

(** X4. A chunk of the generic chunker holds a single line, or lines
    whose per-line token estimates sum to at most [max_tokens]. *)
Theorem generic_chunks_within_max_tokens (cfg : Chunker.ChunkingConfig) (content : string)
    (metadata : Chunker.FileMetadata) :
  Forall (fun c =>
            length (Strings.Split_nl (Chunker.Content c)) = 1%nat \/
            Z.of_nat (Layout.lineTokens (Strings.Split_nl (Chunker.Content c)))
            <= Chunker.MaxTokens cfg)
         (GenericChunker.Chunk cfg content metadata).
Proof.
  destruct (generic_chunks_inv cfg content metadata) as (_ & _ & Hch).
  eapply Forall_impl; [exact Hch |]. intros c [_ [H | H]]; [left | right; exact H].
  pose proof (Split_nl_length (Chunker.Content c)). lia.
Qed.

Lemma md_mergeLoop_tiles (cfg : Chunker.ChunkingConfig) (a b : nat) :
  forall (rest : list MarkdownChunker.mdSection) (i : nat) (sec : MarkdownChunker.mdSection)
         (result : list MarkdownChunker.mdSection),
    Layout.tiles a b (map Layout.sectionRange (result ++ sec :: rest)) ->
    Layout.tiles a b
      (map Layout.sectionRange (MarkdownChunker.mergeLoop cfg i sec rest result)).
Proof.
  induction rest as [| next rest IH]; intros i sec result H.
  - cbn [MarkdownChunker.mergeLoop].
    destruct ((Z.of_nat (MarkdownChunker.tokens sec) <? Chunker.MinTokens cfg)
              && (0 <? i)%nat && (0 <? length result)%nat) eqn:E; [| exact H].
    destruct result as [| prev init _] using rev_ind.
    { rewrite andb_false_r in E. discriminate. }
    rewrite last_snoc, removelast_last.
    rewrite <- app_assoc in H. rewrite !map_app in *. cbn [map app] in *.
    unfold Layout.sectionRange at 2.
    cbn [MarkdownChunker.startLine MarkdownChunker.endLine].
    apply (tiles_merge _ [] _ _ _ (MarkdownChunker.endLine prev)
             (MarkdownChunker.startLine sec)). exact H.
  - cbn [MarkdownChunker.mergeLoop].
    destruct ((Z.of_nat (MarkdownChunker.tokens sec) <? Chunker.MinTokens cfg)
              && (0 <? i)%nat && (0 <? length result)%nat) eqn:E.
    + destruct result as [| prev init _] using rev_ind.
      { rewrite andb_false_r in E. discriminate. }
      rewrite last_snoc, removelast_last. apply IH.
      rewrite <- !app_assoc in *. rewrite !map_app in *. cbn [map app] in *.
      unfold Layout.sectionRange at 2.
      cbn [MarkdownChunker.startLine MarkdownChunker.endLine].
      apply (tiles_merge _ _ _ _ _ (MarkdownChunker.endLine prev)
               (MarkdownChunker.startLine sec)). exact H.
    + destruct (Z.of_nat (MarkdownChunker.tokens sec) <? Chunker.MinTokens cfg).
      * apply IH. rewrite !map_app in *. cbn [map app] in *.
        unfold Layout.sectionRange at 2.
        cbn [MarkdownChunker.startLine MarkdownChunker.endLine].
        apply (tiles_merge _ _ _ _ _ (MarkdownChunker.endLine sec)
                 (MarkdownChunker.startLine next)). exact H.
      * apply IH. rewrite <- app_assoc. exact H.
Qed.

Lemma md_mergeSmallSections_tiles (cfg : Chunker.ChunkingConfig) (a b : nat)
    (sections : list MarkdownChunker.mdSection) :
  Layout.tiles a b (map Layout.sectionRange sections) ->
  Layout.tiles a b
    (map Layout.sectionRange (MarkdownChunker.mergeSmallSections cfg sections)).
Proof.
  intros H. unfold MarkdownChunker.mergeSmallSections.
  destruct (length sections <=? 1)%nat; [exact H |].
  destruct sections as [| sec rest]; [exact H |].
  apply md_mergeLoop_tiles. exact H.
Qed.

(** X5. The chunks of the Markdown chunker tile the file, with or without
    merging: the first starts at line 1, each next one starts on the line
    after the previous one ends, and the last ends at the last line; so no
    two of them share a line.  Without merging, their contents joined by
    newlines are the file. *)
Theorem markdown_chunks_tile_the_file (cfg : Chunker.ChunkingConfig) (content : string)
    (metadata : Chunker.FileMetadata) :
  let out := MarkdownChunker.Chunk cfg content metadata in
  Layout.tiles 1 (length (Strings.Split_nl content)) (map Layout.chunkRange out) /\
  Scenario.disjoint out = true /\
  (Chunker.MergeSmallChunks cfg = false ->
   Strings.Join (map Chunker.Content out) MarkdownChunker.NL = content).
Proof.
  cbv zeta.
  assert (Layout.tiles 1 (length (Strings.Split_nl content))
            (map Layout.chunkRange (MarkdownChunker.Chunk cfg content metadata))) as Ht.
  { unfold MarkdownChunker.Chunk.
    destruct (md_extractSections_inv (Strings.Split_nl content)) as [Ht _].
    destruct (MarkdownChunker.extractSections (Strings.Split_nl content))
      as [| sec rest] eqn:Hsecs.
    - cbn [MarkdownChunker.chunkAsFile map Layout.chunkRange Chunker.StartLine
           Chunker.EndLine Layout.tiles].
      pose proof (Split_nl_length content). split; [reflexivity | split; [lia | reflexivity]].
    - rewrite map_map.
      rewrite (map_ext _ Layout.sectionRange) by reflexivity.
      destruct (Chunker.MergeSmallChunks cfg); [| exact Ht].
      apply md_mergeSmallSections_tiles, Ht. }
  split; [exact Ht |]. split; [eapply tiles_disjoint, Ht |].
  intros Hm. unfold MarkdownChunker.Chunk. rewrite Hm.
  destruct (md_extractSections_inv (Strings.Split_nl content)) as [_ Hj].
  destruct (MarkdownChunker.extractSections (Strings.Split_nl content))
    as [| sec rest] eqn:Hsecs.
  - reflexivity.
  - rewrite map_map. rewrite (map_ext _ MarkdownChunker.content) by reflexivity.
    rewrite Hj. apply Join_Split_nl.
Qed.

(** ** The heading pattern *)

Lemma md_hashes_spec (s : string) :
  s = Scenario.fill (MarkdownChunker.hashes s).1 "#"%char +:+ (MarkdownChunker.hashes s).2.
Proof.
  induction s as [| c s IH]; [reflexivity |].
  cbn [MarkdownChunker.hashes].
  destruct (Ascii.eqb c "#") eqn:E.
  - apply Ascii.eqb_eq in E. subst c.
    destruct (MarkdownChunker.hashes s) as [n r]. cbn [fst snd] in *.
    cbn [Scenario.fill]. rewrite append_cons, <- IH. reflexivity.
  - reflexivity.
Qed.

Lemma md_hashes_fill (n : nat) (c : ascii) (r : string) :
  Ascii.eqb c "#" = false ->
  MarkdownChunker.hashes (Scenario.fill n "#"%char +:+ String c r) = (n, String c r).
Proof.
  intros Hc. induction n as [| n IH].
  - cbn [Scenario.fill]. change ("" +:+ String c r) with (String c r).
    cbn [MarkdownChunker.hashes]. rewrite Hc. reflexivity.
  - cbn [Scenario.fill]. rewrite append_cons. cbn [MarkdownChunker.hashes].
    rewrite IH. reflexivity.
Qed.

Lemma md_spaces_spec (s : string) :
  forall (last : option ascii) (k : nat),
    exists ws,
      s = ws +:+ (MarkdownChunker.spaces s last k).2 /\
      Forall (fun c => MarkdownChunker.is_s c = true) (String.list_ascii_of_string ws) /\
      (MarkdownChunker.spaces s last k).1.2 = (k + String.length ws)%nat /\
      ((ws = EmptyString /\ (MarkdownChunker.spaces s last k).1.1 = last) \/
       (exists ws0 c, ws = ws0 +:+ String c EmptyString /\
                      (MarkdownChunker.spaces s last k).1.1 = Some c)).
Proof.
  induction s as [| c s IH]; intros last k.
  - exists EmptyString. cbn. repeat split; [constructor | lia | left; split; reflexivity].
  - cbn [MarkdownChunker.spaces]. destruct (MarkdownChunker.is_s c) eqn:E.
    + destruct (IH (Some c) (S k)) as (ws & Hs & Hws & Hk & Hl).
      exists (String c ws). rewrite append_cons, <- Hs.
      split; [reflexivity |]. split; [constructor; assumption |].
      split; [rewrite Hk; cbn [String.length]; lia |]. right.
      destruct Hl as [[-> Hl] | (ws0 & c' & -> & Hl)].
      * exists EmptyString, c. split; [reflexivity | exact Hl].
      * exists (String c ws0), c'. split; [reflexivity | exact Hl].
    + exists EmptyString. cbn. repeat split; [constructor | lia | left; split; reflexivity].
Qed.

Lemma md_spaces_app (ws t : string) :
  Forall (fun c => MarkdownChunker.is_s c = true) (String.list_ascii_of_string ws) ->
  ws <> EmptyString ->
  forall (last : option ascii) (k : nat),
    exists c, MarkdownChunker.spaces (ws +:+ t) last k
              = MarkdownChunker.spaces t (Some c) (k + String.length ws).
Proof.
  induction ws as [| c ws IH]; [congruence |]. intros Hws _ last k.
  cbn [String.list_ascii_of_string] in Hws. apply Forall_cons in Hws as [Hc Hws].
  rewrite append_cons. cbn [MarkdownChunker.spaces]. rewrite Hc.
  destruct ws as [| c' ws'].
  - exists c. change ("" +:+ t) with t. cbn [String.length]. f_equal. lia.
  - destruct (IH Hws ltac:(discriminate) (Some c) (S k)) as (c0 & H).
    exists c0. rewrite H. f_equal. cbn [String.length]. lia.
Qed.

Lemma md_is_s_not_hash (c : ascii) :
  MarkdownChunker.is_s c = true -> Ascii.eqb c "#" = false.
Proof.
  unfold MarkdownChunker.is_s. intros H.
  destruct (Ascii.eqb c "#") eqn:E; [| reflexivity].
  apply Ascii.eqb_eq in E. subst c. discriminate H.
Qed.

(** X6. A line is a heading exactly when it is one to six [#], then white
    space, then at least one more character; the heading text returned is
    what follows the white space (or its last character, when the line
    ends in the white space). *)
Theorem heading_pattern_matches (line : string) :
  (forall n h,
      MarkdownChunker.headingPattern line = Some (n, h) ->
      (1 <= n <= 6)%nat /\ h <> EmptyString /\
      exists ws, ws <> EmptyString /\
                 Forall (fun c => MarkdownChunker.is_s c = true)
                        (String.list_ascii_of_string ws) /\
                 line = Scenario.fill n "#"%char +:+ ws +:+ h) /\
  (forall n ws h,
      (1 <= n <= 6)%nat -> ws <> EmptyString ->
      Forall (fun c => MarkdownChunker.is_s c = true) (String.list_ascii_of_string ws) ->
      h <> EmptyString ->
      line = Scenario.fill n "#"%char +:+ ws +:+ h ->
      exists h', MarkdownChunker.headingPattern line = Some (n, h')).
Proof.
  split.
  - intros n h H. unfold MarkdownChunker.headingPattern in H.
    pose proof (md_hashes_spec line) as Hh.
    destruct (MarkdownChunker.hashes line) as [n0 r]. cbn [fst snd] in Hh.
    destruct ((1 <=? n0)%nat && (n0 <=? 6)%nat) eqn:En; [| discriminate].
    apply andb_true_iff in En as [E1 E6]. apply Nat.leb_le in E1, E6.
    destruct (md_spaces_spec r None 0) as (ws & Hr & Hws & Hk & Hl).
    destruct (MarkdownChunker.spaces r None 0) as [[last k] rest].
    cbn [fst snd] in *.
    destruct last as [lastc |]; [| discriminate].
    destruct Hl as [[_ Hl] | (ws0 & c & -> & Hl)]; [discriminate |].
    injection Hl as ->.
    destruct (String.eqb rest EmptyString) eqn:Er; cbn [negb] in H.
    + apply String.eqb_eq in Er. subst rest.
      destruct (2 <=? k)%nat eqn:Ek; [| discriminate].
      injection H as <- <-. apply Nat.leb_le in Ek.
      split; [lia |]. split; [discriminate |].
      rewrite length_append in Hk. cbn [String.length] in Hk.
      exists ws0. split; [destruct ws0; [cbn in Hk; lia | discriminate] |].
      split.
      * clear - Hws. induction ws0 as [| x ws0 IH]; [constructor |].
        rewrite append_cons in Hws. cbn [String.list_ascii_of_string] in Hws.
        apply Forall_cons in Hws as [Hx Hws]. constructor; [exact Hx | apply IH, Hws].
      * rewrite Hh, Hr, append_nil_r. reflexivity.
    + injection H as <- <-. apply String.eqb_neq in Er.
      split; [lia |]. split; [exact Er |].
      exists (ws0 +:+ String c EmptyString).
      split; [destruct ws0; discriminate |]. split; [exact Hws |].
      rewrite Hh, Hr, append_assoc. reflexivity.
  - intros n ws h Hn Hne Hws Hh ->.
    destruct ws as [| c ws']; [congruence |].
    pose proof Hws as Hws'. cbn [String.list_ascii_of_string] in Hws'.
    apply Forall_cons in Hws' as [Hc _].
    unfold MarkdownChunker.headingPattern.
    rewrite append_cons, md_hashes_fill by (apply md_is_s_not_hash, Hc).
    destruct (Nat.leb_spec 1 n); [| lia]. destruct (Nat.leb_spec n 6); [| lia].
    cbn [andb]. rewrite <- append_cons.
    destruct (md_spaces_app (String c ws') h Hws ltac:(discriminate) None 0) as (c0 & ->).
    destruct (md_spaces_spec h (Some c0) (0 + String.length (String c ws')))
      as (ws1 & Hs & Hws1 & Hk & Hl).
    destruct (MarkdownChunker.spaces h (Some c0) (0 + String.length (String c ws')))
      as [[last k] rest].
    cbn [fst snd] in *.
    assert (exists lastc, last = Some lastc) as (lastc & ->).
    { destruct Hl as [[_ ->] | (? & ? & _ & ->)]; eexists; reflexivity. }
    destruct (String.eqb rest EmptyString) eqn:Er; cbn [negb].
    + apply String.eqb_eq in Er. subst rest. rewrite append_nil_r in Hs. subst ws1.
      assert (2 <= k)%nat as Hk2.
      { rewrite Hk. cbn [String.length]. destruct h; [congruence | cbn [String.length]; lia]. }
      destruct (Nat.leb_spec 2 k); [| lia]. eexists. reflexivity.
    + eexists. reflexivity.
Qed.

(** ** Small-symbol merging leaves large symbols alone *)

Lemma go_mergeLoop_all_large (cfg : Chunker.ChunkingConfig)
    (symbols result : list GoChunker.goSymbol) :
  Forall (fun s => GoChunker.small cfg s = false) symbols ->
  GoChunker.mergeLoop cfg symbols result [] = (result ++ symbols, []).
Proof.
  revert result. induction symbols as [| s rest IH]; intros result H.
  - cbn. rewrite app_nil_r. reflexivity.
  - apply Forall_cons in H as [Hs Hrest]. cbn [GoChunker.mergeLoop].
    unfold GoChunker.small in Hs. rewrite Hs. cbn [GoChunker.attach].
    rewrite IH by exact Hrest. rewrite <- app_assoc. reflexivity.
Qed.

Lemma regex_mergeLoop_all_large (cfg : Chunker.ChunkingConfig)
    (symbols result : list RegexChunker.symbol) :
  Forall (fun s => RegexChunker.small cfg s = false) symbols ->
  RegexChunker.mergeLoop cfg symbols result None = result ++ symbols.
Proof.
  revert result. induction symbols as [| s rest IH]; intros result H.
  - cbn. rewrite app_nil_r. reflexivity.
  - apply Forall_cons in H as [Hs Hrest]. cbn [RegexChunker.mergeLoop].
    unfold RegexChunker.small in Hs. rewrite Hs.
    rewrite IH by exact Hrest. rewrite <- app_assoc. reflexivity.
Qed.

Lemma md_mergeLoop_all_large (cfg : Chunker.ChunkingConfig) :
  forall (rest : list MarkdownChunker.mdSection) (i : nat) (sec : MarkdownChunker.mdSection)
         (result : list MarkdownChunker.mdSection),
    Forall (fun s => (Z.of_nat (MarkdownChunker.tokens s) <? Chunker.MinTokens cfg) = false)
           (sec :: rest) ->
    MarkdownChunker.mergeLoop cfg i sec rest result = result ++ sec :: rest.
Proof.
  induction rest as [| next rest IH]; intros i sec result H;
    apply Forall_cons in H as [Hs Hrest]; cbn [MarkdownChunker.mergeLoop]; rewrite Hs;
    cbn [andb]; [reflexivity |].
  rewrite IH by exact Hrest. rewrite <- app_assoc. reflexivity.
Qed.

(** X7. Small-chunk merging changes nothing when no symbol is under-sized:
    the Go, the PHP/TypeScript and the Markdown merge each return their
    input. *)
Theorem merging_keeps_large_symbols (cfg : Chunker.ChunkingConfig)
    (goSymbols : list GoChunker.goSymbol) (symbols : list RegexChunker.symbol)
    (sections : list MarkdownChunker.mdSection) :
  Forall (fun s => GoChunker.small cfg s = false) goSymbols ->
  Forall (fun s => RegexChunker.small cfg s = false) symbols ->
  Forall (fun s => (Z.of_nat (MarkdownChunker.tokens s) <? Chunker.MinTokens cfg) = false)
         sections ->
  GoChunker.mergeSmallSymbols cfg goSymbols = goSymbols /\
  RegexChunker.mergeSmallSymbols cfg symbols = symbols /\
  MarkdownChunker.mergeSmallSections cfg sections = sections.
Proof.
  intros Hg Hr Hm. split; [| split].
  - unfold GoChunker.mergeSmallSymbols.
    destruct (length goSymbols <=? 1)%nat; [reflexivity |].
    rewrite go_mergeLoop_all_large by exact Hg. reflexivity.
  - unfold RegexChunker.mergeSmallSymbols.
    destruct (length symbols <=? 1)%nat; [reflexivity |].
    rewrite regex_mergeLoop_all_large by exact Hr. reflexivity.
  - unfold MarkdownChunker.mergeSmallSections.
    destruct (length sections <=? 1)%nat; [reflexivity |].
    destruct sections as [| sec rest]; [reflexivity |].
    rewrite md_mergeLoop_all_large by exact Hm. reflexivity.
Qed.

(** Two symbols of 11 tokens each under a minimum of 10: nothing is merged. *)
Lemma merging_keeps_large_symbols_witness :
  GoChunker.mergeSmallSymbols Scenario.narrow [Scenario.go_main; Scenario.go_main]
  = [Scenario.go_main; Scenario.go_main] /\
  RegexChunker.mergeSmallSymbols Scenario.narrow [Scenario.php_main; Scenario.php_main]
  = [Scenario.php_main; Scenario.php_main] /\
  MarkdownChunker.mergeSmallSections Scenario.narrow [Cases.md_first; Cases.md_second]
  = [Cases.md_first; Cases.md_second].
Proof.
  apply merging_keeps_large_symbols; repeat constructor.
Defined.

(** ** De-duplication of matches *)

Lemma byLine_best (priority : string -> nat) (matches : list RegexChunker.symbolMatch) :
  let m := RegexChunker.byLine priority matches in
  (forall k v, m !! k = Some v ->
               v ∈ matches /\ RegexChunker.lineNum v = k /\
               forall x, x ∈ matches -> RegexChunker.lineNum x = k ->
                         (priority (RegexChunker.m_symbolType v)
                          <= priority (RegexChunker.m_symbolType x))%nat) /\
  (forall x, x ∈ matches -> is_Some (m !! RegexChunker.lineNum x)).
Proof.
  cbv zeta. unfold RegexChunker.byLine.
  assert (H : forall (rest seen : list RegexChunker.symbolMatch)
                     (m : gmap nat RegexChunker.symbolMatch),
             ((forall k v, m !! k = Some v ->
                           v ∈ seen /\ RegexChunker.lineNum v = k /\
                           forall x, x ∈ seen -> RegexChunker.lineNum x = k ->
                                     (priority (RegexChunker.m_symbolType v)
                                      <= priority (RegexChunker.m_symbolType x))%nat) /\
              (forall x, x ∈ seen -> is_Some (m !! RegexChunker.lineNum x))) ->
             let m' :=
               fold_left
                 (fun byLine x =>
                    match byLine !! RegexChunker.lineNum x with
                    | Some existing =>
                        if (priority (RegexChunker.m_symbolType x)
                            <? priority (RegexChunker.m_symbolType existing))%nat
                        then <[RegexChunker.lineNum x := x]> byLine
                        else byLine
                    | None => <[RegexChunker.lineNum x := x]> byLine
                    end) rest m in
             (forall k v, m' !! k = Some v ->
                          v ∈ seen ++ rest /\ RegexChunker.lineNum v = k /\
                          forall x, x ∈ seen ++ rest -> RegexChunker.lineNum x = k ->
                                    (priority (RegexChunker.m_symbolType v)
                                     <= priority (RegexChunker.m_symbolType x))%nat) /\
             (forall x, x ∈ seen ++ rest -> is_Some (m' !! RegexChunker.lineNum x))).
  { induction rest as [| y rest IH]; intros seen m Hm; cbv zeta; cbn [fold_left].
    - rewrite app_nil_r. exact Hm.
    - replace (seen ++ y :: rest) with ((seen ++ [y]) ++ rest)
        by (rewrite <- app_assoc; reflexivity).
      apply IH. destruct Hm as [Ha Hb].
      destruct (m !! RegexChunker.lineNum y) as [existing |] eqn:Hy.
      + destruct (Ha _ _ Hy) as (He & Hel & Hemin).
        destruct (priority (RegexChunker.m_symbolType y)
                  <? priority (RegexChunker.m_symbolType existing))%nat eqn:E.
        * apply Nat.ltb_lt in E. split.
          -- intros k v [[<- <-] | [Hne Hk]]%lookup_insert_Some.
             ++ split; [apply elem_of_app; right; left |]. split; [reflexivity |].
                intros x [Hx | ->%list_elem_of_singleton]%elem_of_app Hl; [| lia].
                specialize (Hemin x Hx Hl). lia.
             ++ destruct (Ha _ _ Hk) as (Hv & Hvl & Hvmin).
                split; [apply elem_of_app; left; exact Hv |]. split; [exact Hvl |].
                intros x [Hx | ->%list_elem_of_singleton]%elem_of_app Hl;
                  [apply Hvmin; assumption | congruence].
          -- intros x [Hx | ->%list_elem_of_singleton]%elem_of_app.
             ++ destruct (decide (RegexChunker.lineNum x = RegexChunker.lineNum y)) as [-> | Hne].
                ** rewrite lookup_insert_eq. eexists. reflexivity.
                ** rewrite lookup_insert_ne by congruence. apply Hb, Hx.
             ++ rewrite lookup_insert_eq. eexists. reflexivity.
        * apply Nat.ltb_ge in E. split.
          -- intros k v Hk. destruct (Ha _ _ Hk) as (Hv & Hvl & Hvmin).
             split; [apply elem_of_app; left; exact Hv |]. split; [exact Hvl |].
             intros x [Hx | ->%list_elem_of_singleton]%elem_of_app Hl;
               [apply Hvmin; assumption |].
             rewrite <- Hl in Hk. rewrite Hy in Hk. injection Hk as <-. exact E.
          -- intros x [Hx | ->%list_elem_of_singleton]%elem_of_app;
               [apply Hb, Hx | rewrite Hy; eexists; reflexivity].
      + split.
        * intros k v [[<- <-] | [Hne Hk]]%lookup_insert_Some.
          -- split; [apply elem_of_app; right; left |]. split; [reflexivity |].
             intros x [Hx | ->%list_elem_of_singleton]%elem_of_app Hl; [| lia].
             destruct (Hb x Hx) as [e He]. rewrite Hl, Hy in He. discriminate.
          -- destruct (Ha _ _ Hk) as (Hv & Hvl & Hvmin).
             split; [apply elem_of_app; left; exact Hv |]. split; [exact Hvl |].
             intros x [Hx | ->%list_elem_of_singleton]%elem_of_app Hl;
               [apply Hvmin; assumption | congruence].
        * intros x [Hx | ->%list_elem_of_singleton]%elem_of_app.
          -- destruct (decide (RegexChunker.lineNum x = RegexChunker.lineNum y)) as [-> | Hne].
             ++ rewrite lookup_insert_eq. eexists. reflexivity.
             ++ rewrite lookup_insert_ne by congruence. apply Hb, Hx.
          -- rewrite lookup_insert_eq. eexists. reflexivity. }
  apply (H matches [] ∅). split.
  - intros k v Hk. rewrite lookup_empty in Hk. discriminate.
  - intros x Hx. apply elem_of_nil in Hx. contradiction.
Qed.

(** X8. De-duplication keeps exactly one match for every line that has
    one: a match of the input whose priority number is the least among
    the matches on its line. *)
Theorem deduplicate_keeps_best_match_per_line (priority : string -> nat)
    (matches result : list RegexChunker.symbolMatch) :
  RegexChunker.ranges_over (RegexChunker.byLine priority matches) result ->
  NoDup (map RegexChunker.lineNum result) /\
  (forall v, v ∈ result ->
             v ∈ matches /\
             forall x, x ∈ matches -> RegexChunker.lineNum x = RegexChunker.lineNum v ->
                       (priority (RegexChunker.m_symbolType v)
                        <= priority (RegexChunker.m_symbolType x))%nat) /\
  (forall x, x ∈ matches ->
             exists v, v ∈ result /\ RegexChunker.lineNum v = RegexChunker.lineNum x).
Proof.
  intros Hr. split; [eapply ranges_over_distinct_lines, Hr |].
  destruct (byLine_best priority matches) as [Ha Hb].
  unfold RegexChunker.ranges_over in Hr. split.
  - intros v Hv. rewrite Hr in Hv.
    apply list_elem_of_fmap in Hv as ([k v'] & -> & Hkv). cbn [snd].
    apply elem_of_map_to_list in Hkv. destruct (Ha _ _ Hkv) as (Hin & Hl & Hmin).
    split; [exact Hin |]. intros x Hx Hxl. apply Hmin; [exact Hx | congruence].
  - intros x Hx. destruct (Hb x Hx) as [v Hv]. exists v.
    destruct (Ha _ _ Hv) as (_ & Hl & _). split; [| exact Hl].
    rewrite Hr. apply list_elem_of_fmap. exists (RegexChunker.lineNum x, v).
    split; [reflexivity |]. apply elem_of_map_to_list, Hv.
Qed.

(** A function and a class matched on line 1, a function on line 3: the
    class survives on line 1. *)
Lemma deduplicate_keeps_best_match_per_line_witness :
  NoDup (map RegexChunker.lineNum [Cases.match_class; Scenario.match_g]) /\
  (forall v, v ∈ [Cases.match_class; Scenario.match_g] ->
             v ∈ [Cases.match_inline; Scenario.match_g; Cases.match_class] /\
             forall x, x ∈ [Cases.match_inline; Scenario.match_g; Cases.match_class] ->
                       RegexChunker.lineNum x = RegexChunker.lineNum v ->
                       (PHPChunker.priority (RegexChunker.m_symbolType v)
                        <= PHPChunker.priority (RegexChunker.m_symbolType x))%nat) /\
  (forall x, x ∈ [Cases.match_inline; Scenario.match_g; Cases.match_class] ->
             exists v, v ∈ [Cases.match_class; Scenario.match_g] /\
                       RegexChunker.lineNum v = RegexChunker.lineNum x).
Proof.
  apply (deduplicate_keeps_best_match_per_line PHPChunker.priority
           [Cases.match_inline; Scenario.match_g; Cases.match_class]
           [Cases.match_class; Scenario.match_g]).
  unfold RegexChunker.ranges_over. vm_compute. apply perm_swap.
Defined.

(** ** Symbol boundaries of the regex chunkers *)

Lemma regex_docStart_range (lines : list string) (k r : nat) :
  RegexChunker.docStart lines k = Some r -> (1 <= r <= k)%nat.
Proof.
  induction k as [| j IH]; cbn [RegexChunker.docStart]; [discriminate |].
  destruct (Strings.Contains _ _).
  - intros [= <-]. lia.
  - intros H. apply IH in H. lia.
Qed.

Lemma regex_precedingLoop_range (marker : string) (lines : list string) :
  forall (k startLine : nat),
    (k <= startLine)%nat -> (1 <= startLine)%nat ->
    (1 <= RegexChunker.precedingLoop marker lines k startLine <= startLine)%nat.
Proof.
  induction k as [| i IH]; intros startLine Hk Hs; cbn [RegexChunker.precedingLoop]; [lia |].
  destruct (if Strings.HasSuffix _ "*/" then RegexChunker.docStart lines (S i) else None)
    as [r |] eqn:Hd.
  - destruct (Strings.HasSuffix _ "*/"); [| discriminate].
    apply regex_docStart_range in Hd. lia.
  - destruct (Strings.HasPrefix _ "//").
    { specialize (IH (i + 1)%nat ltac:(lia) ltac:(lia)). lia. }
    destruct (Strings.HasPrefix _ marker).
    { specialize (IH (i + 1)%nat ltac:(lia) ltac:(lia)). lia. }
    destruct (String.eqb _ EmptyString); [| lia].
    apply IH; lia.
Qed.

Lemma regex_scanLines_range (quote : ascii -> bool) (lines : list string) :
  forall (i : nat) (depth : Z) (foundOpen : bool) (e : nat),
    RegexChunker.scanLines quote lines i depth foundOpen = Some e ->
    (i < e <= i + length lines)%nat.
Proof.
  induction lines as [| line rest IH]; intros i depth foundOpen e;
    cbn [RegexChunker.scanLines length]; [discriminate |].
  destruct (RegexChunker.scanLine quote line None false RegexChunker.nul depth foundOpen)
    as [[d f] |].
  - intros H. apply IH in H. lia.
  - intros [= <-]. lia.
Qed.

Lemma ts_typeLines_range (lines : list string) :
  forall (i : nat) (depth : Z) (e : nat),
    TypeScriptChunker.typeLines lines i depth = Some e -> (i < e <= i + length lines)%nat.
Proof.
  induction lines as [| line rest IH]; intros i depth e;
    cbn [TypeScriptChunker.typeLines length]; [discriminate |].
  destruct (TypeScriptChunker.typeLine line depth) as [d |]; [| intros [= <-]; lia].
  destruct rest as [| next rest'].
  - cbn [TypeScriptChunker.typeLines]. discriminate.
  - destruct ((d =? 0) && TypeScriptChunker.startsDeclaration (Strings.TrimSpace next)).
    + intros [= <-]. lia.
    + intros H. apply IH in H. cbn [length] in *. lia.
Qed.

(** The end line found for a declaration on line [startLine] is never
    before that line: brace matching returns a line between [startLine]
    and the last line of the file, or the fallback [startLine + 100] (PHP)
    or [startLine + 50] (TypeScript) when no brace closes; the end of a
    type alias is between [startLine] and the last line. *)
Theorem end_line_not_before_start (lines : list string) (startLine : nat) :
  (1 <= startLine <= length lines)%nat ->
  ((startLine <= PHPChunker.findBraceEnd lines startLine <= length lines)%nat \/
   PHPChunker.findBraceEnd lines startLine = (startLine + 100)%nat) /\
  ((startLine <= TypeScriptChunker.findBraceEnd lines startLine <= length lines)%nat \/
   TypeScriptChunker.findBraceEnd lines startLine = (startLine + 50)%nat) /\
  (startLine <= TypeScriptChunker.findTypeEnd lines startLine <= length lines)%nat.
Proof.
  intros Hs.
  assert (Hb : forall quote fallback,
             (startLine <= RegexChunker.findBraceEnd quote fallback lines startLine
              <= length lines)%nat \/
             RegexChunker.findBraceEnd quote fallback lines startLine
             = (startLine + fallback)%nat).
  { intros quote fallback. unfold RegexChunker.findBraceEnd.
    destruct (RegexChunker.scanLines quote (drop (startLine - 1) lines) (startLine - 1) 0
                false) as [e |] eqn:E; [left | right; reflexivity].
    apply regex_scanLines_range in E. rewrite length_drop in E. lia. }
  split; [apply Hb |]. split; [apply Hb |].
  unfold TypeScriptChunker.findTypeEnd.
  destruct (TypeScriptChunker.typeLines (drop (startLine - 1) lines) (startLine - 1) 0)
    as [e |] eqn:E; [| lia].
  apply ts_typeLines_range in E. rewrite length_drop in E. lia.
Qed.

Lemma regex_boundaries_props (marker : string)
    (findEnd : RegexChunker.symbolMatch -> list string -> nat -> nat)
    (lines : list string) (namespace : string) :
  forall (matches : list RegexChunker.symbolMatch),
    Forall (fun m => (1 <= RegexChunker.lineNum m)%nat) matches ->
    (forall i m next, matches !! i = Some m -> matches !! S i = Some next ->
                      (RegexChunker.lineNum m < RegexChunker.lineNum next)%nat) ->
    let symbols :=
      RegexChunker.extractSymbolBoundaries marker findEnd lines matches namespace in
    length symbols = length matches /\
    forall i m s,
      matches !! i = Some m -> symbols !! i = Some s ->
      RegexChunker.name s = RegexChunker.m_name m /\
      RegexChunker.symbolType s = RegexChunker.m_symbolType m /\
      (1 <= RegexChunker.startLine s <= RegexChunker.lineNum m)%nat /\
      (RegexChunker.startLine s <= RegexChunker.endLine s)%nat /\
      (forall next, matches !! S i = Some next ->
                    (RegexChunker.endLine s < RegexChunker.lineNum next)%nat) /\
      RegexChunker.content s
        = Chunker.extractLines lines (RegexChunker.startLine s) (RegexChunker.endLine s).
Proof.
  induction matches as [| m rest IH]; intros Hpos Hsorted; cbv zeta.
  - split; [reflexivity |]. intros i m s H. rewrite lookup_nil in H. discriminate.
  - apply Forall_cons in Hpos as [Hm Hrest].
    assert (Hsorted' : forall i m next, rest !! i = Some m -> rest !! S i = Some next ->
                                        (RegexChunker.lineNum m < RegexChunker.lineNum next)%nat).
    { intros i m' next H1 H2. apply (Hsorted (S i)); assumption. }
    destruct (IH Hrest Hsorted') as [Hlen Hall]. clear IH.
    cbn [RegexChunker.extractSymbolBoundaries length]. split; [rewrite Hlen; reflexivity |].
    intros [| i] m' s Hm' Hs.
    + cbn [lookup list_lookup] in Hm', Hs. injection Hm' as <-. injection Hs as <-.
      cbn [RegexChunker.name RegexChunker.symbolType RegexChunker.startLine
           RegexChunker.endLine RegexChunker.content].
      set (start := if (1 <? RegexChunker.lineNum m)%nat
                    then RegexChunker.findPrecedingComment marker lines
                           (RegexChunker.lineNum m)
                    else RegexChunker.lineNum m).
      assert (1 <= start <= RegexChunker.lineNum m)%nat as Hstart.
      { subst start. destruct (1 <? RegexChunker.lineNum m)%nat; [| lia].
        unfold RegexChunker.findPrecedingComment.
        apply regex_precedingLoop_range; lia. }
      split; [reflexivity |]. split; [reflexivity |]. split; [exact Hstart |].
      set (e0 := findEnd m lines (RegexChunker.lineNum m)).
      set (e1 := match rest with
                 | next :: _ =>
                     if (RegexChunker.lineNum next <=? e0)%nat
                     then (RegexChunker.lineNum next - 1)%nat else e0
                 | [] => e0
                 end).
      set (e2 := if (length lines <? e1)%nat then length lines else e1).
      split; [destruct (e2 <? start)%nat eqn:E; [lia | apply Nat.ltb_ge in E; lia] |].
      split; [| reflexivity].
      intros next Hnext. cbn [lookup list_lookup] in Hnext.
      destruct rest as [| next' rest']; [discriminate |].
      cbn [lookup list_lookup] in Hnext. injection Hnext as ->.
      pose proof (Hsorted 0%nat m next eq_refl eq_refl) as Hlt.
      assert (e1 < RegexChunker.lineNum next)%nat as He1.
      { subst e1. destruct (RegexChunker.lineNum next <=? e0)%nat eqn:E;
          [lia | apply Nat.leb_gt in E; lia]. }
      assert (e2 <= e1)%nat as He2 by (subst e2; destruct (length lines <? e1)%nat eqn:E;
                                       [apply Nat.ltb_lt in E; lia | lia]).
      destruct (e2 <? start)%nat; lia.
    + cbn [lookup list_lookup] in Hm', Hs.
      destruct (Hall i m' s Hm' Hs) as (H1 & H2 & H3 & H4 & H5 & H6).
      repeat split; try assumption; try lia.
Qed.

(** X9. For matches on distinct lines in increasing order, the regex
    chunkers produce one symbol a match, in the same order, with the
    match's name and type; each symbol starts at or above its match line
    (comments may pull the start up), never ends before it starts, ends
    before the line of the next match, and holds exactly the lines of its
    range. *)
Theorem symbols_end_before_next_match (marker : string)
    (findEnd : RegexChunker.symbolMatch -> list string -> nat -> nat)
    (lines : list string) (namespace : string)
    (matches : list RegexChunker.symbolMatch) :
  Forall (fun m => (1 <= RegexChunker.lineNum m)%nat) matches ->
  (forall i m next, matches !! i = Some m -> matches !! S i = Some next ->
                    (RegexChunker.lineNum m < RegexChunker.lineNum next)%nat) ->
  let symbols :=
    RegexChunker.extractSymbolBoundaries marker findEnd lines matches namespace in
  map RegexChunker.name symbols = map RegexChunker.m_name matches /\
  map RegexChunker.symbolType symbols = map RegexChunker.m_symbolType matches /\
  forall i m s,
    matches !! i = Some m -> symbols !! i = Some s ->
    (1 <= RegexChunker.startLine s <= RegexChunker.lineNum m)%nat /\
    (RegexChunker.startLine s <= RegexChunker.endLine s)%nat /\
    (forall next, matches !! S i = Some next ->
                  (RegexChunker.endLine s < RegexChunker.lineNum next)%nat) /\
    RegexChunker.content s
      = Chunker.extractLines lines (RegexChunker.startLine s) (RegexChunker.endLine s).
Proof.
  intros Hpos Hsorted. cbv zeta.
  destruct (regex_boundaries_props marker findEnd lines namespace matches Hpos Hsorted)
    as [Hlen Hall].
  assert (Hmap : forall {B} (f : RegexChunker.symbol -> B) (g : RegexChunker.symbolMatch -> B),
             (forall i m s, matches !! i = Some m ->
                            RegexChunker.extractSymbolBoundaries marker findEnd lines matches
                              namespace !! i = Some s -> f s = g m) ->
             map f (RegexChunker.extractSymbolBoundaries marker findEnd lines matches
                      namespace) = map g matches).
  { intros B f g Hfg. apply list_eq. intros i. rewrite !list_lookup_fmap.
    destruct (matches !! i) as [m |] eqn:Hm.
    - destruct (RegexChunker.extractSymbolBoundaries marker findEnd lines matches namespace
                  !! i) as [s |] eqn:Hs.
      + cbn. f_equal. eapply Hfg; eassumption.
      + apply lookup_ge_None in Hs. apply lookup_lt_Some in Hm. lia.
    - destruct (RegexChunker.extractSymbolBoundaries marker findEnd lines matches namespace
                  !! i) as [s |] eqn:Hs; [| reflexivity].
      apply lookup_ge_None in Hm. apply lookup_lt_Some in Hs. lia. }
  split; [apply Hmap; intros i m s Hm Hs; apply (Hall i m s Hm Hs) |].
  split; [apply Hmap; intros i m s Hm Hs; apply (Hall i m s Hm Hs) |].
  intros i m s Hm Hs. destruct (Hall i m s Hm Hs) as (_ & _ & H3 & H4 & H5 & H6).
  repeat split; try assumption; try lia.
Qed.

(** The two matches of [arrow_ts], on lines 1 and 3. *)
Lemma symbols_end_before_next_match_witness :
  let lines := Strings.Split_nl Scenario.arrow_ts in
  let matches := [Scenario.match_f; Scenario.match_g] in
  let symbols := TypeScriptChunker.extractSymbolBoundaries lines matches in
  map RegexChunker.name symbols = map RegexChunker.m_name matches /\
  map RegexChunker.symbolType symbols = map RegexChunker.m_symbolType matches /\
  forall i m s,
    matches !! i = Some m -> symbols !! i = Some s ->
    (1 <= RegexChunker.startLine s <= RegexChunker.lineNum m)%nat /\
    (RegexChunker.startLine s <= RegexChunker.endLine s)%nat /\
    (forall next, matches !! S i = Some next ->
                  (RegexChunker.endLine s < RegexChunker.lineNum next)%nat) /\
    RegexChunker.content s
      = Chunker.extractLines lines (RegexChunker.startLine s) (RegexChunker.endLine s).
Proof.
  apply (symbols_end_before_next_match "@"
           (fun m => if String.eqb (RegexChunker.m_symbolType m) "type"
                     then TypeScriptChunker.findTypeEnd
                     else TypeScriptChunker.findBraceEnd)
           (Strings.Split_nl Scenario.arrow_ts) EmptyString
           [Scenario.match_f; Scenario.match_g]).
  - repeat constructor.
  - intros [| [| i]] m next Hm Hnext; try discriminate Hnext.
    injection Hm as <-. injection Hnext as <-. vm_compute. lia.
Defined.

(** ** Chunk ids and hashes *)

Lemma HashContent_length (content : string) :
  String.length (Chunker.HashContent content) = 64%nat.
Proof.
  unfold Chunker.HashContent, SHA256.sum_string. rewrite hex_length, sum_length. reflexivity.
Qed.

Lemma ReplaceAll1_gone (s : string) (old new : ascii) :
  old <> new ->
  Forall (fun c => c <> old) (String.list_ascii_of_string (Strings.ReplaceAll1 s old new)).
Proof.
  intros Hne. induction s as [| c s IH]; [constructor |].
  cbn [Strings.ReplaceAll1 String.list_ascii_of_string]. constructor; [| exact IH].
  destruct (Ascii.eqb c old) eqn:E; [congruence |]. apply Ascii.eqb_neq, E.
Qed.

Lemma ReplaceAll1_nonempty (s : string) (old new : ascii) :
  s <> EmptyString -> Strings.ReplaceAll1 s old new <> EmptyString.
Proof. destruct s; [congruence | discriminate]. Qed.

(** The shape of a chunk id made from a content hash. *)
Lemma GenerateChunkID_format (projectID filePath symbol content : string) :
  exists symbolPart,
    symbolPart <> EmptyString /\
    Forall (fun c => c <> ":"%char) (String.list_ascii_of_string symbolPart) /\
    Chunker.GenerateChunkID projectID filePath symbol (Chunker.HashContent content)
    = projectID +:+ ":" +:+ filePath +:+ ":" +:+ symbolPart +:+ ":" +:+
      String.substring 0 8 (Chunker.HashContent content).
Proof.
  unfold Chunker.GenerateChunkID. rewrite HashContent_length.
  change (8 <? 64)%nat with true. cbv iota. unfold Strings.slice. cbn [Nat.sub].
  eexists. split; [| split; [| reflexivity]].
  - apply ReplaceAll1_nonempty. destruct (String.eqb symbol EmptyString) eqn:E;
      [discriminate | apply String.eqb_neq, E].
  - apply ReplaceAll1_gone. discriminate.
Qed.

(** What every chunk carries. *)
Lemma chunk_origin_intro (metadata : Chunker.FileMetadata) (symbol content : string)
    (sym symbolType : string) (startLine endLine tokens : nat) (language module : string) :
  let c := Chunker.mkChunk
             (Chunker.GenerateChunkID (Chunker.md_ProjectID metadata)
                (Chunker.md_FilePath metadata) symbol (Chunker.HashContent content))
             content sym symbolType startLine endLine tokens (Chunker.HashContent content)
             (Chunker.md_FilePath metadata) language module
             (Chunker.md_ProjectID metadata) in
  Chunker.ContentHash c = Chunker.HashContent (Chunker.Content c) /\
  String.length (Chunker.ContentHash c) = 64%nat /\
  (exists symbolPart,
      symbolPart <> EmptyString /\
      Forall (fun c => c <> ":"%char) (String.list_ascii_of_string symbolPart) /\
      Chunker.ID c
      = Chunker.md_ProjectID metadata +:+ ":" +:+ Chunker.md_FilePath metadata +:+ ":" +:+
        symbolPart +:+ ":" +:+ String.substring 0 8 (Chunker.ContentHash c)) /\
  Chunker.FilePath c = Chunker.md_FilePath metadata /\
  Chunker.ProjectID c = Chunker.md_ProjectID metadata.
Proof.
  cbv zeta. cbn [Chunker.ContentHash Chunker.Content Chunker.ID Chunker.FilePath
                 Chunker.ProjectID].
  split; [reflexivity |]. split; [apply HashContent_length |].
  split; [apply GenerateChunkID_format |]. split; reflexivity.
Qed.

(** X10. Whatever a chunker returns, every chunk's content hash is the
    SHA-256 of its content (64 hexadecimal digits), its id is
    [project:path:symbol:hash8] with a non-empty symbol part free of colons
    and the first eight digits of that hash, and its file path and project
    id are those of the metadata. *)
Theorem chunks_carry_hash_and_origin
    (cfg : Chunker.ChunkingConfig) (eng : Chunkers.Engines) (ch : Chunkers.Kind)
    (content : string) (metadata : Chunker.FileMetadata) (out : list Chunker.Chunk) :
  Chunkers.may_return cfg eng ch content metadata out ->
  Forall (fun c =>
            Chunker.ContentHash c = Chunker.HashContent (Chunker.Content c) /\
            String.length (Chunker.ContentHash c) = 64%nat /\
            (exists symbolPart,
                symbolPart <> EmptyString /\
                Forall (fun c => c <> ":"%char) (String.list_ascii_of_string symbolPart) /\
                Chunker.ID c
                = Chunker.md_ProjectID metadata +:+ ":" +:+
                  Chunker.md_FilePath metadata +:+ ":" +:+ symbolPart +:+ ":" +:+
                  String.substring 0 8 (Chunker.ContentHash c)) /\
            Chunker.FilePath c = Chunker.md_FilePath metadata /\
            Chunker.ProjectID c = Chunker.md_ProjectID metadata) out.
Proof.
  assert (Hmap : forall {A} (f : A -> Chunker.Chunk) (l : list A) (P : Chunker.Chunk -> Prop),
             (forall x, P (f x)) -> Forall P (map f l)).
  { intros A f l P H. apply Forall_forall. intros c Hc.
    apply list_elem_of_fmap in Hc as (x & -> & _). apply H. }
  assert (Hone : forall (c : Chunker.Chunk) (P : Chunker.Chunk -> Prop), P c -> Forall P [c])
    by (intros; constructor; [assumption | constructor]).
  destruct ch; cbn [Chunkers.may_return].
  - intros ->. unfold GoChunker.Chunk.
    destruct (Chunkers.goParser eng _ _) as [file |];
      [| apply Hone, chunk_origin_intro].
    destruct (GoChunker.extractSymbols file content); [apply Hone, chunk_origin_intro |].
    apply Hmap. intros sym. apply chunk_origin_intro.
  - intros (matches & _ & ->). unfold PHPChunker.ChunkFrom.
    destruct matches; [apply Hone, chunk_origin_intro |].
    apply Hmap. intros sym. apply chunk_origin_intro.
  - intros (matches & _ & ->). unfold TypeScriptChunker.ChunkFrom.
    destruct matches; [apply Hone, chunk_origin_intro |].
    apply Hmap. intros sym. apply chunk_origin_intro.
  - intros ->. unfold MarkdownChunker.Chunk.
    destruct (MarkdownChunker.extractSections _); [apply Hone, chunk_origin_intro |].
    apply Hmap. intros sym. apply chunk_origin_intro.
  - intros ->. unfold GenericChunker.Chunk.
    destruct (_ <=? _); [apply Hone, chunk_origin_intro |].
    match goal with |- Forall ?P _ => set (Q := P) end.
    assert (HQ : forall cur s e, Q (GenericChunker.createChunk cur s e metadata))
      by (intros; apply chunk_origin_intro).
    pose proof (generic_chunkLoop_inv cfg metadata Q (fun cur s e _ _ _ _ => HQ cur s e)
                  (Strings.Split_nl content) [] [] [] 1%nat (Split_nl_no_nl content)
                  ltac:(constructor) ltac:(lia) eq_refl eq_refl eq_refl ltac:(constructor)
                  ltac:(left; cbn; lia)) as Inv.
    cbn [length] in Inv. change (Layout.lineTokens []) with 0%nat in Inv.
    destruct (GenericChunker.chunkLoop cfg metadata (Strings.Split_nl content) 0 [] [] 0 1)
      as [[chunks cur] start].
    destruct Inv as (_ & _ & _ & _ & _ & Hch & _).
    destruct (0 <? length cur)%nat; [| exact Hch].
    apply Forall_app. split; [exact Hch | apply Hone, HQ].
Qed.

(** The chunks of [arrow_ts], its map visited in the other order. *)
Lemma chunks_carry_hash_and_origin_witness :
  Forall (fun c =>
            Chunker.ContentHash c = Chunker.HashContent (Chunker.Content c) /\
            String.length (Chunker.ContentHash c) = 64%nat /\
            (exists symbolPart,
                symbolPart <> EmptyString /\
                Forall (fun c => c <> ":"%char) (String.list_ascii_of_string symbolPart) /\
                Chunker.ID c
                = Chunker.md_ProjectID Scenario.a_ts +:+ ":" +:+
                  Chunker.md_FilePath Scenario.a_ts +:+ ":" +:+ symbolPart +:+ ":" +:+
                  String.substring 0 8 (Chunker.ContentHash c)) /\
            Chunker.FilePath c = Chunker.md_FilePath Scenario.a_ts /\
            Chunker.ProjectID c = Chunker.md_ProjectID Scenario.a_ts)
         (TypeScriptChunker.ChunkFrom Scenario.no_merge Scenario.arrow_ts Scenario.a_ts
            [Scenario.match_f; Scenario.match_g]).
Proof.
  apply (chunks_carry_hash_and_origin Scenario.no_merge Scenario.engines Chunkers.TypeScript
           Scenario.arrow_ts Scenario.a_ts).
  exists [Scenario.match_f; Scenario.match_g]. split; [| reflexivity].
  unfold RegexChunker.ranges_over. vm_compute. apply perm_swap.
Defined.

(** ** The cache as a map *)

(** X11. [Set] then [Get] returns the entry set and leaves other paths as
    they were; [Delete] removes its path only; [HasChanged] is false
    exactly when the path is cached with that very hash, so a path just
    set with a hash has not changed and a path just deleted has. *)
Theorem cache_set_get_delete (c : Cache.Cache) (f f' : string) (e : Cache.CacheEntry)
    (h : string) :
  Cache.Get (Cache.Set_ c f e) f' = (if decide (f' = f) then Some e else Cache.Get c f') /\
  Cache.Get (Cache.Delete c f) f' = (if decide (f' = f) then None else Cache.Get c f') /\
  Cache.Get (Cache.Clear c) f' = None /\
  (Cache.HasChanged c f h = false <->
   exists e', Cache.Get c f = Some e' /\ Cache.ContentHash e' = h) /\
  Cache.HasChanged (Cache.Set_ c f e) f (Cache.ContentHash e) = false /\
  Cache.HasChanged (Cache.Delete c f) f h = true /\
  Cache.GetChunkIDs (Cache.Set_ c f e) f = Cache.ChunkIDs e /\
  Cache.GetChunkIDs (Cache.Delete c f) f = [].
Proof.
  unfold Cache.HasChanged, Cache.GetChunkIDs, Cache.Get, Cache.Set_, Cache.Delete,
    Cache.Clear. cbn [Cache.entries].
  split; [| split; [| split; [| split; [| split; [| split; [| split]]]]]].
  - destruct (decide (f' = f)) as [-> | Hne];
      [apply lookup_insert_eq | apply lookup_insert_ne; congruence].
  - destruct (decide (f' = f)) as [-> | Hne];
      [apply lookup_delete_eq | apply lookup_delete_ne; congruence].
  - apply lookup_empty.
  - destruct (Cache.entries c !! f) as [e' |]; split.
    + intros H. apply negb_false_iff, String.eqb_eq in H. eauto.
    + intros (e'' & [= <-] & <-). apply negb_false_iff, String.eqb_refl.
    + discriminate.
    + intros (e'' & H & _). discriminate.
  - rewrite lookup_insert_eq. apply negb_false_iff, String.eqb_refl.
  - rewrite lookup_delete_eq. reflexivity.
  - rewrite lookup_insert_eq. reflexivity.
  - rewrite lookup_delete_eq. reflexivity.
Qed.

(** ** Saving and loading *)

Lemma tmp_path_differs (p : string) : p <> p +:+ ".tmp".
Proof.
  intros H. apply (f_equal String.length) in H. rewrite length_append in H.
  cbn [String.length] in H. lia.
Qed.



(** X13. A save that fails (the directory cannot be made, the temporary
    file cannot be written, or the rename fails) returns an error and
    leaves the cache file as it was; a save with no failure returns no
    error. *)
Theorem failed_save_keeps_cache_file (c : Cache.Cache) (projectID : string)
    (now : Cache.Time) (io : Cache.SaveIO) (fs : Cache.FS) :
  Cache.dirty c = true ->
  let r := Cache.Save c projectID now io fs in
  (r.1 = None <->
   Cache.mkdir_ok io && Cache.write_ok io && Cache.rename_ok io = true) /\
  (r.1 <> None -> r.2 !! Cache.path c = fs !! Cache.path c).
Proof.
  intros Hd. cbv zeta. unfold Cache.Save. unfold Cache.FS in *. rewrite Hd. cbn [negb].
  destruct (Cache.mkdir_ok io), (Cache.write_ok io), (Cache.rename_ok io);
    cbn [negb andb fst snd]; (split; [split; (congruence || reflexivity || discriminate) |]);
    try reflexivity; try congruence.
  intros _.
  rewrite lookup_delete_ne by (intros H; symmetry in H; revert H; apply tmp_path_differs).
  apply lookup_insert_ne. intros H. symmetry in H. revert H. apply tmp_path_differs.
Qed.

(** The rename fails: the cache file of the earlier run stays. *)
Lemma failed_save_keeps_cache_file_witness :
  let r := Cache.Save Cases.cache_of_b "p" 7%nat (Cache.mkSaveIO true true false)
             Scenario.cache_b in
  (r.1 = None <-> true && true && false = true) /\
  (r.1 <> None ->
   r.2 !! Cache.path Cases.cache_of_b = Scenario.cache_b !! Cache.path Cases.cache_of_b).
Proof.
  apply (failed_save_keeps_cache_file Cases.cache_of_b "p" 7%nat
           (Cache.mkSaveIO true true false) Scenario.cache_b).
  reflexivity.
Defined.

(** ** Cache statistics *)

Lemma chunk_count_delete (m : gmap string Cache.CacheEntry) (f : string) :
  (map_fold (fun _ entry n => (n + length (Cache.ChunkIDs entry))%nat) 0%nat (delete f m)
   + match m !! f with Some e => length (Cache.ChunkIDs e) | None => 0 end)%nat
  = map_fold (fun _ entry n => (n + length (Cache.ChunkIDs entry))%nat) 0%nat m.
Proof.
  destruct (m !! f) as [e |] eqn:E.
  - pose proof (map_fold_delete_L
                  (fun (_ : string) entry n => (n + length (Cache.ChunkIDs entry))%nat)
                  0%nat f e m) as H.
    rewrite H; [reflexivity | | exact E].
    intros. lia.
  - rewrite delete_id by exact E. lia.
Qed.

(** X14. [Stats] counts the cached paths and their chunk ids: setting an
    entry adds one path unless the path was cached already and replaces the
    path's former chunk ids in the chunk count; deleting a path takes its
    count and its chunk ids away; a cleared cache counts nothing. *)
Theorem cache_stats_follow_updates (c : Cache.Cache) (f : string) (e : Cache.CacheEntry) :
  Cache.Stats (Cache.Clear c) = Cache.mkCacheStats 0 0 /\
  Cache.FileCount (Cache.Stats (Cache.Set_ c f e))
    = (Cache.FileCount (Cache.Stats c)
       + match Cache.Get c f with Some _ => 0 | None => 1 end)%nat /\
  (Cache.ChunkCount (Cache.Stats (Cache.Set_ c f e)) + length (Cache.GetChunkIDs c f))%nat
    = (Cache.ChunkCount (Cache.Stats c) + length (Cache.ChunkIDs e))%nat /\
  (Cache.FileCount (Cache.Stats (Cache.Delete c f))
   + match Cache.Get c f with Some _ => 1 | None => 0 end)%nat
    = Cache.FileCount (Cache.Stats c) /\
  (Cache.ChunkCount (Cache.Stats (Cache.Delete c f)) + length (Cache.GetChunkIDs c f))%nat
    = Cache.ChunkCount (Cache.Stats c).
Proof.
  unfold Cache.Stats, Cache.Set_, Cache.Delete, Cache.Clear, Cache.GetChunkIDs, Cache.Get.
  cbn [Cache.entries Cache.FileCount Cache.ChunkCount].
  pose proof (chunk_count_delete (Cache.entries c) f) as Hdel.
  split; [rewrite map_size_empty, map_fold_empty; reflexivity |].
  split; [| split; [| split]].
  - rewrite map_size_insert. destruct (Cache.entries c !! f); cbn; lia.
  - rewrite <- insert_delete_eq.
    rewrite (map_fold_insert_L
               (fun (_ : string) entry n => (n + length (Cache.ChunkIDs entry))%nat)
               0%nat f e);
      [| intros; lia | apply lookup_delete_eq].
    destruct (Cache.entries c !! f); cbn [length] in *; lia.
  - destruct (Cache.entries c !! f) as [e' |] eqn:E.
    + rewrite map_size_delete_Some by (rewrite E; eauto).
      assert (size (Cache.entries c) <> 0)%nat; [| lia].
      intros H0. apply map_size_empty_inv in H0. rewrite H0, lookup_empty in E.
      discriminate.
    + rewrite map_size_delete_None by exact E. lia.
  - destruct (Cache.entries c !! f); cbn [length] in *; lia.
Qed.

(** X15. [GetAllFiles] lists exactly the cached paths, each once; their
    number is the file count of [Stats]. *)
Theorem all_files_are_the_cached_paths (c : Cache.Cache) (files : list string) :
  Cache.GetAllFiles_returns c files ->
  NoDup files /\
  (forall f, f ∈ files <-> is_Some (Cache.Get c f)) /\
  length files = Cache.FileCount (Cache.Stats c).
Proof.
  unfold Cache.GetAllFiles_returns, Cache.Get. intros H.
  split; [rewrite H; apply NoDup_fst_map_to_list |]. split.
  - intros f. rewrite H. split.
    + intros ([k v] & -> & Hkv)%list_elem_of_fmap. apply elem_of_map_to_list in Hkv.
      cbn [fst]. rewrite Hkv. eauto.
    + intros [v Hv]. apply list_elem_of_fmap. exists (f, v).
      split; [reflexivity | apply elem_of_map_to_list, Hv].
  - rewrite H, length_fmap. cbn [Cache.Stats Cache.FileCount].
    apply length_map_to_list.
Qed.

(** The cache of [a.md] and [b.md], visited [b.md] first. *)
Lemma all_files_are_the_cached_paths_witness :
  NoDup ["b.md"; "a.md"] /\
  (forall f, f ∈ ["b.md"; "a.md"] <-> is_Some (Cache.Get Cases.cache_of_ab f)) /\
  length ["b.md"; "a.md"] = Cache.FileCount (Cache.Stats Cases.cache_of_ab).
Proof.
  apply (all_files_are_the_cached_paths Cases.cache_of_ab ["b.md"; "a.md"]).
  unfold Cache.GetAllFiles_returns. vm_compute.
  first [reflexivity | apply perm_swap].
Defined.

(** ** Stale files *)

(** X16. With the cache map visited in some order, [findDeletedFiles]
    returns exactly the cached paths that are not among the discovered
    files, each once. *)
Theorem deleted_files_are_cached_and_gone (env : Indexer.Env) (cache : Cache.Cache)
    (currentFiles : list Indexer.discoveredFile) :
  Indexer.fair env ->
  NoDup (Indexer.findDeletedFiles env cache currentFiles) /\
  forall f, f ∈ Indexer.findDeletedFiles env cache currentFiles <->
            is_Some (Cache.Get cache f) /\ f ∉ map Indexer.relPath currentFiles.
Proof.
  intros [Hr _]. unfold Indexer.findDeletedFiles. split.
  - apply NoDup_filter. rewrite Hr. apply NoDup_fst_map_to_list.
  - intros f. rewrite list_elem_of_filter, Hr. unfold Cache.Get. split.
    + intros [Hn ([k v] & -> & Hkv)%list_elem_of_fmap].
      apply elem_of_map_to_list in Hkv. cbn [fst] in *. split; [rewrite Hkv; eauto | exact Hn].
    + intros [[v Hv] Hn]. split; [exact Hn |].
      apply list_elem_of_fmap. exists (f, v). split; [reflexivity |].
      apply elem_of_map_to_list, Hv.
Qed.

(** [a.md] and [b.md] are cached, [b.md] alone is discovered. *)
Lemma deleted_files_are_cached_and_gone_witness :
  NoDup (Indexer.findDeletedFiles Scenario.only_b Cases.cache_of_ab [Cases.found_b]) /\
  forall f, f ∈ Indexer.findDeletedFiles Scenario.only_b Cases.cache_of_ab [Cases.found_b]
            <-> is_Some (Cache.Get Cases.cache_of_ab f) /\
                f ∉ map Indexer.relPath [Cases.found_b].
Proof.
  apply (deleted_files_are_cached_and_gone Scenario.only_b Cases.cache_of_ab
           [Cases.found_b]).
  split; intros; reflexivity.
Defined.

(** ** The change partition *)

Lemma fileErrors_app (l1 l2 : list Indexer.Error) :
  Accounting.fileErrors (l1 ++ l2)
  = (Accounting.fileErrors l1 + Accounting.fileErrors l2)%nat.
Proof. unfold Accounting.fileErrors. rewrite filter_app, length_app. reflexivity. Qed.

Lemma partition_props (env : Indexer.Env) (fullIndex : bool) (cache : Cache.Cache) :
  forall (files : list Indexer.discoveredFile) (result : Indexer.IndexResult)
         (toProcess : list Indexer.fileToProcess),
    let r := Indexer.partition env fullIndex cache files result toProcess in
    (Indexer.FilesSkipped r.1 + length r.2 + Accounting.fileErrors (Indexer.Errors r.1)
     = Indexer.FilesSkipped result + length toProcess
       + Accounting.fileErrors (Indexer.Errors result) + length files)%nat /\
    (fullIndex = true -> Indexer.FilesSkipped r.1 = Indexer.FilesSkipped result) /\
    Indexer.FilesScanned r.1 = Indexer.FilesScanned result /\
    Indexer.FilesDeleted r.1 = Indexer.FilesDeleted result /\
    Indexer.ChunksDeleted r.1 = Indexer.ChunksDeleted result /\
    (exists new,
        r.2 = toProcess ++ new /\
        Forall (fun f =>
                  Indexer.hashFile env (Indexer.ftp_absPath f) = Some (Indexer.contentHash f) /\
                  Indexer.mkDiscovered (Indexer.ftp_absPath f) (Indexer.ftp_relPath f) ∈ files /\
                  (fullIndex = false ->
                   Cache.HasChanged cache (Indexer.ftp_relPath f) (Indexer.contentHash f)
                   = true)) new).
Proof.
  induction files as [| file rest IH]; intros result toProcess; cbv zeta.
  - cbn [Indexer.partition fst snd length]. repeat split; try lia.
    exists []. rewrite app_nil_r. split; [reflexivity | constructor].
  - cbn [Indexer.partition].
    destruct (Indexer.hashFile env (Indexer.absPath file)) as [h |] eqn:Hh.
    + destruct (negb fullIndex && negb (Cache.HasChanged cache (Indexer.relPath file) h))
        eqn:E.
      * specialize (IH (Indexer.mkIndexResult (Indexer.FilesScanned result)
                          (Indexer.FilesIndexed result) (S (Indexer.FilesSkipped result))
                          (Indexer.FilesDeleted result) (Indexer.ChunksCreated result)
                          (Indexer.ChunksDeleted result) (Indexer.OversizedChunks result)
                          (Indexer.Errors result)) toProcess).
        cbv zeta in IH. cbn [Indexer.FilesSkipped Indexer.Errors Indexer.FilesScanned
                             Indexer.FilesDeleted Indexer.ChunksDeleted] in IH.
        destruct IH as (H1 & H2 & H3 & H4 & H5 & new & H6 & H7).
        split; [cbn [length]; lia |].
        split; [intros ->; discriminate E |].
        split; [exact H3 |]. split; [exact H4 |]. split; [exact H5 |].
        exists new. split; [exact H6 |].
        eapply Forall_impl; [exact H7 |]. intros f (A & B & C).
        split; [exact A |]. split; [right; exact B | exact C].
      * specialize (IH result
                      (toProcess ++ [Indexer.mkFileToProcess (Indexer.absPath file)
                                       (Indexer.relPath file) h])).
        cbv zeta in IH. destruct IH as (H1 & H2 & H3 & H4 & H5 & new & H6 & H7).
        rewrite length_app in H1. cbn [length] in *.
        split; [lia |]. split; [exact H2 |].
        split; [exact H3 |]. split; [exact H4 |]. split; [exact H5 |].
        exists (Indexer.mkFileToProcess (Indexer.absPath file) (Indexer.relPath file) h
                  :: new).
        split; [rewrite H6, <- app_assoc; reflexivity |].
        constructor.
        -- cbn [Indexer.ftp_absPath Indexer.ftp_relPath Indexer.contentHash].
           split; [exact Hh |]. split; [destruct file; left |].
           intros ->. cbn [negb andb] in E. apply negb_false_iff in E. exact E.
        -- eapply Forall_impl; [exact H7 |]. intros f (A & B & C).
           split; [exact A |]. split; [right; exact B | exact C].
    + specialize (IH (Indexer.mkIndexResult (Indexer.FilesScanned result)
                        (Indexer.FilesIndexed result) (Indexer.FilesSkipped result)
                        (Indexer.FilesDeleted result) (Indexer.ChunksCreated result)
                        (Indexer.ChunksDeleted result) (Indexer.OversizedChunks result)
                        (Indexer.Errors result ++ [Indexer.ErrHash (Indexer.relPath file)]))
                    toProcess).
      cbv zeta in IH. cbn [Indexer.FilesSkipped Indexer.Errors Indexer.FilesScanned
                           Indexer.FilesDeleted Indexer.ChunksDeleted] in IH.
      destruct IH as (H1 & H2 & H3 & H4 & H5 & new & H6 & H7).
      rewrite fileErrors_app in H1.
      change (Accounting.fileErrors [Indexer.ErrHash (Indexer.relPath file)]) with 1%nat in H1.
      split; [cbn [length]; lia |]. split; [exact H2 |].
      split; [exact H3 |]. split; [exact H4 |]. split; [exact H5 |].
      exists new. split; [exact H6 |].
      eapply Forall_impl; [exact H7 |]. intros f (A & B & C).
      split; [exact A |]. split; [right; exact B | exact C].
Qed.

Lemma partition_errors (env : Indexer.Env) (fullIndex : bool) (cache : Cache.Cache) :
  forall (files : list Indexer.discoveredFile) (result : Indexer.IndexResult)
         (toProcess : list Indexer.fileToProcess),
    Forall (fun e => Accounting.fileError e = true) (Indexer.Errors result) ->
    Forall (fun e => Accounting.fileError e = true)
           (Indexer.Errors (Indexer.partition env fullIndex cache files result toProcess).1).
Proof.
  induction files as [| file rest IH]; intros r tp Hr; [exact Hr |].
  cbn [Indexer.partition].
  destruct (Indexer.hashFile env (Indexer.absPath file)) as [h |].
  - destruct (negb fullIndex && _); apply IH; exact Hr.
  - apply IH. cbn [Indexer.Errors]. apply Forall_app. split; [exact Hr |].
    constructor; [reflexivity | constructor].
Qed.

Lemma fileErrors_all (errors : list Indexer.Error) :
  Forall (fun e => Accounting.fileError e = true) errors ->
  Accounting.fileErrors errors = length errors.
Proof.
  unfold Accounting.fileErrors. induction errors as [| e rest IH]; [reflexivity |].
  intros [He Hrest]%Forall_cons. rewrite filter_cons_True by (rewrite He; exact I).
  cbn [length]. rewrite IH by exact Hrest. reflexivity.
Qed.

(** X17. The change partition accounts for every discovered file exactly
    once: it is skipped, queued for processing, or reported with a hash
    error.  A queued file carries the hash of its present content, and in
    an incremental run that hash differs from the cached one (or the path
    is not cached); a full run skips nothing. *)
Theorem partition_accounts_for_every_file (env : Indexer.Env) (fullIndex : bool)
    (cache : Cache.Cache) (files : list Indexer.discoveredFile) :
  let r := Indexer.partition env fullIndex cache files
             (Indexer.mkIndexResult (length files) 0 0 0 0 0 [] []) [] in
  (Indexer.FilesSkipped r.1 + length r.2 + length (Indexer.Errors r.1) = length files)%nat /\
  (fullIndex = true -> Indexer.FilesSkipped r.1 = 0%nat) /\
  Forall (fun f =>
            Indexer.hashFile env (Indexer.ftp_absPath f) = Some (Indexer.contentHash f) /\
            Indexer.mkDiscovered (Indexer.ftp_absPath f) (Indexer.ftp_relPath f) ∈ files /\
            (fullIndex = false ->
             Cache.HasChanged cache (Indexer.ftp_relPath f) (Indexer.contentHash f) = true))
         r.2.
Proof.
  cbv zeta.
  destruct (partition_props env fullIndex cache files
              (Indexer.mkIndexResult (length files) 0 0 0 0 0 [] []) [])
    as (H1 & H2 & _ & _ & _ & new & H6 & H7).
  pose proof (partition_errors env fullIndex cache files
                (Indexer.mkIndexResult (length files) 0 0 0 0 0 [] []) []
                ltac:(constructor)) as He.
  apply fileErrors_all in He.
  cbn [Indexer.FilesSkipped Indexer.Errors length app] in *.
  change (Accounting.fileErrors []) with 0%nat in H1.
  split; [lia |]. split; [exact H2 | rewrite H6; exact H7].
Qed.

(** ** Reaping stale files *)

Lemma reap_props (env : Indexer.Env) :
  forall (deleted : list string) (result : Indexer.IndexResult) (st : Indexer.State),
    let r := Indexer.reap env deleted result st in
    Indexer.FilesDeleted r.1 = (Indexer.FilesDeleted result + length deleted)%nat /\
    (forall f, Cache.Get (Indexer.cache r.2) f
               = if decide (f ∈ deleted) then None else Cache.Get (Indexer.cache st) f) /\
    Indexer.fs r.2 = Indexer.fs st /\
    Indexer.clock r.2 = Indexer.clock st /\
    Cache.path (Indexer.cache r.2) = Cache.path (Indexer.cache st) /\
    (deleted <> [] -> Cache.dirty (Indexer.cache r.2) = true) /\
    (deleted = [] -> r = (result, st)) /\
    Indexer.FilesScanned r.1 = Indexer.FilesScanned result /\
    Indexer.FilesSkipped r.1 = Indexer.FilesSkipped result /\
    Indexer.FilesIndexed r.1 = Indexer.FilesIndexed result /\
    Accounting.fileErrors (Indexer.Errors r.1) = Accounting.fileErrors (Indexer.Errors result) /\
    Accounting.batches (Indexer.calls r.2) = Accounting.batches (Indexer.calls st) /\
    Accounting.upserts (Indexer.calls r.2) = Accounting.upserts (Indexer.calls st).
Proof.
  induction deleted as [| filePath rest IH]; intros result st; cbv zeta.
  - cbn [Indexer.reap fst snd length]. rewrite Nat.add_0_r.
    repeat split; try reflexivity; try congruence.
  - cbn [Indexer.reap].
    set (res1 := match Cache.GetChunkIDs (Indexer.cache st) filePath with
                 | [] => (result, Indexer.calls st)
                 | _ :: _ => _
                 end).
    assert (Hres : Indexer.FilesDeleted res1.1 = Indexer.FilesDeleted result /\
                   Indexer.FilesScanned res1.1 = Indexer.FilesScanned result /\
                   Indexer.FilesSkipped res1.1 = Indexer.FilesSkipped result /\
                   Indexer.FilesIndexed res1.1 = Indexer.FilesIndexed result /\
                   Accounting.fileErrors (Indexer.Errors res1.1)
                   = Accounting.fileErrors (Indexer.Errors result) /\
                   Accounting.batches res1.2 = Accounting.batches (Indexer.calls st) /\
                   Accounting.upserts res1.2 = Accounting.upserts (Indexer.calls st)).
    { subst res1. destruct (Cache.GetChunkIDs (Indexer.cache st) filePath) as [| id ids];
        [repeat split; reflexivity |].
      assert (forall calls,
                 Accounting.batches (calls ++ [Indexer.VdbDelete (id :: ids)])
                 = Accounting.batches calls /\
                 Accounting.upserts (calls ++ [Indexer.VdbDelete (id :: ids)])
                 = Accounting.upserts calls) as Hc.
      { intros calls. unfold Accounting.batches, Accounting.upserts.
        rewrite !flat_map_app. cbn [flat_map]. rewrite !app_nil_r. split; reflexivity. }
      destruct (Indexer.vdbDelete env (id :: ids));
        cbn [fst snd Indexer.FilesDeleted Indexer.FilesScanned Indexer.FilesSkipped
             Indexer.FilesIndexed Indexer.Errors];
        rewrite ?fileErrors_app; repeat split; try reflexivity; try apply Hc.
      change (Accounting.fileErrors [Indexer.ErrDeleteChunks filePath]) with 0%nat. lia. }
    destruct res1 as [result1 calls1]. cbn [fst snd] in Hres.
    destruct Hres as (R1 & R2 & R3 & R4 & R5 & R6 & R7).
    match goal with
    | |- context [Indexer.reap env rest ?r ?s] => specialize (IH r s)
    end.
    cbv zeta in IH.
    cbn [Indexer.FilesDeleted Indexer.FilesScanned Indexer.FilesSkipped Indexer.FilesIndexed
         Indexer.Errors Indexer.cache Indexer.fs Indexer.clock Indexer.calls] in IH.
    destruct IH as (H1 & H2 & H3 & H4 & H5 & H6 & H7 & H8 & H9 & H10 & H11 & H12 & H13).
    split; [rewrite H1; cbn [length]; lia |].
    split.
    { intros f. rewrite H2.
      destruct (decide (f ∈ rest)) as [Hin | Hnin].
      - rewrite decide_True by (right; exact Hin). reflexivity.
      - unfold Cache.Get, Cache.Delete. cbn [Cache.entries].
        destruct (decide (f = filePath)) as [-> | Hne].
        + rewrite decide_True by left. apply lookup_delete_eq.
        + rewrite decide_False; [apply lookup_delete_ne; congruence |].
          intros [? | ?]%elem_of_cons; contradiction. }
    split; [exact H3 |]. split; [exact H4 |]. split; [exact H5 |].
    split.
    { intros _. destruct rest as [| x rest'].
      - rewrite (H7 eq_refl). reflexivity.
      - apply H6. discriminate. }
    split; [discriminate |].
    split; [congruence |]. split; [congruence |]. split; [congruence |].
    split; [congruence |]. split; congruence.
Qed.

(** X18. After the stale files are reaped, none of them is cached and
    every other path is cached as before, also when the vector store
    refused a deletion; the count of deleted files grows by their number,
    and nothing on disk changes yet. *)
Theorem reaped_paths_leave_the_cache (env : Indexer.Env) (deleted : list string)
    (result : Indexer.IndexResult) (st : Indexer.State) :
  let r := Indexer.reap env deleted result st in
  Indexer.FilesDeleted r.1 = (Indexer.FilesDeleted result + length deleted)%nat /\
  (forall f, Cache.Get (Indexer.cache r.2) f
             = if decide (f ∈ deleted) then None else Cache.Get (Indexer.cache st) f) /\
  Indexer.fs r.2 = Indexer.fs st /\
  (deleted <> [] -> Cache.dirty (Indexer.cache r.2) = true).
Proof.
  cbv zeta. destruct (reap_props env deleted result st) as (H1 & H2 & H3 & _ & _ & H6 & _).
  repeat split; assumption.
Qed.

(** ** Embedding in batches *)

Lemma batches_snoc (calls : list Indexer.Call) (batch : list string) :
  Accounting.batches (calls ++ [Indexer.EmbedBatch batch])
  = Accounting.batches calls ++ [batch] /\
  Accounting.upserts (calls ++ [Indexer.EmbedBatch batch]) = Accounting.upserts calls.
Proof.
  unfold Accounting.batches, Accounting.upserts. rewrite !flat_map_app. cbn [flat_map].
  rewrite !app_nil_r. split; reflexivity.
Qed.

Lemma embedLoop_props (env : Indexer.Env) :
  (0 < Indexer.batchSize env)%nat ->
  forall (fuel : nat) (texts : list string) (allVectors : list VectorDB.Vector)
         (calls : list Indexer.Call),
    (length texts <= fuel)%nat ->
    let r := Indexer.embedLoop env fuel texts allVectors calls in
    exists newBatches rest,
      Accounting.batches r.2 = Accounting.batches calls ++ newBatches /\
      Accounting.upserts r.2 = Accounting.upserts calls /\
      concat newBatches ++ rest = texts /\
      Forall (fun b => (0 < length b <= Indexer.batchSize env)%nat) newBatches /\
      match r.1 with
      | Indexer.Returns vectors =>
          rest = [] /\
          exists answers,
            Forall2 (fun b v => Indexer.embedBatch env b = Some v) newBatches answers /\
            vectors = allVectors ++ concat answers
      | Indexer.Fails e =>
          e = Indexer.ErrEmbedBatch /\
          exists sent failed,
            newBatches = sent ++ [failed] /\
            Forall (fun b => is_Some (Indexer.embedBatch env b)) sent /\
            Indexer.embedBatch env failed = None
      | Indexer.Panics | Indexer.Diverges => False
      end.
Proof.
  intros Hbs. induction fuel as [| fuel IH]; intros texts allVectors calls Hlen; cbv zeta.
  - destruct texts; [| cbn in Hlen; lia]. cbn [Indexer.embedLoop fst snd].
    exists [], []. rewrite !app_nil_r. repeat split; try constructor.
    exists []. split; [constructor | rewrite app_nil_r; reflexivity].
  - destruct texts as [| t texts'].
    { cbn [Indexer.embedLoop fst snd].
      exists [], []. rewrite !app_nil_r. repeat split; try constructor.
      exists []. split; [constructor | rewrite app_nil_r; reflexivity]. }
    cbn [Indexer.embedLoop].
    set (texts := t :: texts') in *.
    set (batch := take (Indexer.batchSize env) texts).
    destruct (batches_snoc calls batch) as [Hb Hu].
    assert (0 < length batch <= Indexer.batchSize env)%nat as Hbatch.
    { subst batch. rewrite length_take. subst texts. cbn [length] in *. lia. }
    destruct (Indexer.embedBatch env batch) as [vectors |] eqn:Hemb.
    + specialize (IH (drop (Indexer.batchSize env) texts) (allVectors ++ vectors)
                    (calls ++ [Indexer.EmbedBatch batch])).
      cbv zeta in IH.
      destruct IH as (nb & rest & H1 & H2 & H3 & H4 & H5).
      { rewrite length_drop. subst texts. cbn [length] in *. lia. }
      exists (batch :: nb), rest.
      split; [rewrite H1, Hb, <- app_assoc; reflexivity |].
      split; [rewrite H2, Hu; reflexivity |].
      split; [cbn [concat]; rewrite <- app_assoc, H3; apply take_drop |].
      split; [constructor; assumption |].
      destruct (Indexer.embedLoop env fuel _ _ _).1 as [vs | e | |];
        try exact H5.
      * destruct H5 as (-> & answers & Ha & ->).
        split; [reflexivity |]. exists (vectors :: answers).
        split; [constructor; assumption |].
        cbn [concat]. rewrite app_assoc. reflexivity.
      * destruct H5 as (-> & sent & failed & -> & Hsent & Hfailed).
        split; [reflexivity |]. exists (batch :: sent), failed.
        split; [reflexivity |]. split; [| exact Hfailed].
        constructor; [rewrite Hemb; eexists; reflexivity | exact Hsent].
    + cbn [fst snd]. exists [batch], (drop (Indexer.batchSize env) texts).
      split; [exact Hb |]. split; [exact Hu |].
      split; [cbn [concat]; rewrite app_nil_r; apply take_drop |].
      split; [constructor; [assumption | constructor] |].
      split; [reflexivity |]. exists [], batch.
      split; [reflexivity |]. split; [constructor | exact Hemb].
Qed.

Lemma Forall2_embedded (env : Indexer.Env) (batches : list (list string))
    (answers : list (list VectorDB.Vector)) :
  Forall2 (fun b v => Indexer.embedBatch env b = Some v) batches answers ->
  Forall (fun b => is_Some (Indexer.embedBatch env b)) batches.
Proof.
  induction 1 as [| b v bs vs Hbv _ IH]; constructor; [| exact IH].
  rewrite Hbv. eexists. reflexivity.
Qed.

Lemma zero_batch_size (env : Indexer.Env) :
  (0 < Indexer.batchSize env)%nat -> (Indexer.batchSize env =? 0)%nat = false.
Proof. intros H. apply Nat.eqb_neq. lia. Qed.

Lemma makePoints_props (indexedAt : VectorDB.Time) :
  forall (chunks : list Chunker.Chunk) (vectors : list VectorDB.Vector),
    (length chunks <= length vectors)%nat ->
    exists points,
      Indexer.makePoints indexedAt chunks vectors = Some points /\
      map VectorDB.ID points = map Chunker.ID chunks /\
      map (fun p => VectorDB.Content (VectorDB.Payload_ p)) points
      = map Chunker.Content chunks /\
      map VectorDB.Vector_ points = take (length chunks) vectors.
Proof.
  induction chunks as [| c chunks IH]; intros vectors Hlen.
  - exists []. repeat split; reflexivity.
  - destruct vectors as [| v vs]; [cbn in Hlen; lia |].
    destruct (IH vs) as (ps & H1 & H2 & H3 & H4); [cbn in Hlen; lia |].
    exists (Indexer.toPoint indexedAt v c :: ps).
    cbn [Indexer.makePoints]. rewrite H1.
    cbn [map length take]. rewrite H2, H3, H4. repeat split; reflexivity.
Qed.

Lemma Forall2_concat_length {A B} (P : list A -> list B -> Prop)
    (l1 : list (list A)) (l2 : list (list B)) :
  Forall2 (fun a b => P a b /\ length b = length a) l1 l2 ->
  length (concat l2) = length (concat l1).
Proof.
  induction 1 as [| a b l1 l2 [_ Hab] _ IH]; [reflexivity |].
  cbn [concat]. rewrite !length_app. lia.
Qed.

(** X19. With a positive batch size, [upsertChunks] hands the chunk
    contents to the embedding provider in order, in batches of at most the
    batch size and never empty, and stops at the first batch that fails:
    no batch is sent after one that the provider refused, the call fails
    with the embedding error exactly when a batch was refused, and then
    nothing is upserted; otherwise the batches together are all the
    contents.  It never loops for ever and leaves the cache and the disk
    alone. *)
Theorem upsert_embeds_in_batches (env : Indexer.Env) (chunks : list Chunker.Chunk)
    (st : Indexer.State) :
  (0 < Indexer.batchSize env)%nat ->
  let r := Indexer.upsertChunks env chunks st in
  exists newBatches rest,
    Accounting.batches (Indexer.calls r.2)
    = Accounting.batches (Indexer.calls st) ++ newBatches /\
    concat newBatches ++ rest = map Chunker.Content chunks /\
    Forall (fun b => (0 < length b <= Indexer.batchSize env)%nat) newBatches /\
    (forall sent b after,
        newBatches = sent ++ b :: after -> Indexer.embedBatch env b = None -> after = []) /\
    (r.1 = Indexer.Fails Indexer.ErrEmbedBatch <->
     exists b, b ∈ newBatches /\ Indexer.embedBatch env b = None) /\
    (r.1 = Indexer.Fails Indexer.ErrEmbedBatch ->
     Accounting.upserts (Indexer.calls r.2) = Accounting.upserts (Indexer.calls st)) /\
    (r.1 <> Indexer.Fails Indexer.ErrEmbedBatch -> rest = []) /\
    r.1 <> Indexer.Diverges /\
    Indexer.cache r.2 = Indexer.cache st /\
    Indexer.fs r.2 = Indexer.fs st.
Proof.
  intros Hbs. cbv zeta. unfold Indexer.upsertChunks.
  destruct chunks as [| c chunks'].
  { exists [], []. cbn [fst snd]. rewrite app_nil_r.
    split; [reflexivity |]. split; [reflexivity |]. split; [constructor |].
    split; [intros sent b after H; destruct sent; discriminate H |].
    split; [split; [discriminate | intros (b & Hb & _); apply elem_of_nil in Hb;
                                   contradiction] |].
    repeat split; discriminate. }
  set (chunks := c :: chunks').
  rewrite (zero_batch_size env Hbs).
  destruct (embedLoop_props env Hbs (length (map Chunker.Content chunks))
              (map Chunker.Content chunks) [] (Indexer.calls st) (Nat.le_refl _))
    as (nb & rest & H1 & H2 & H3 & H4 & H5).
  destruct (Indexer.embedLoop env _ _ _ _) as [[vs | e | |] calls]; cbn [fst snd] in *;
    try contradiction.
  - destruct H5 as (-> & answers & Ha & ->).
    pose proof (Forall2_embedded env nb answers Ha) as Hall.
    assert (Hnone : forall b, b ∈ nb -> Indexer.embedBatch env b = None -> False).
    { intros b Hb Hnone. rewrite Forall_forall in Hall.
      destruct (Hall b Hb) as [v Hv]. congruence. }
    exists nb, [].
    assert (Hstop : forall sent b after,
               nb = sent ++ b :: after -> Indexer.embedBatch env b = None -> after = []).
    { intros sent b after -> Hb. exfalso. apply (Hnone b); [| exact Hb].
      apply elem_of_app. right. left. }
    destruct (Indexer.makePoints (Indexer.clock st) chunks ([] ++ concat answers))
      as [points |]; cbn [fst snd Indexer.calls Indexer.cache Indexer.fs].
    + assert (Accounting.batches (calls ++ [Indexer.VdbUpsert points])
              = Accounting.batches calls) as Hb.
      { unfold Accounting.batches. rewrite flat_map_app. cbn [flat_map].
        rewrite app_nil_r. reflexivity. }
      destruct (Indexer.vdbUpsert env points);
        cbn [fst snd Indexer.calls Indexer.cache Indexer.fs]; rewrite Hb, H1;
        (split; [reflexivity |]; split; [exact H3 |]; split; [exact H4 |];
         split; [exact Hstop |];
         split; [split; [discriminate | intros (b & Hin & Hf); destruct (Hnone b Hin Hf)] |];
         repeat split; discriminate).
    + split; [exact H1 |]. split; [exact H3 |]. split; [exact H4 |].
      split; [exact Hstop |].
      split; [split; [discriminate | intros (b & Hin & Hf); destruct (Hnone b Hin Hf)] |].
      repeat split; discriminate.
  - destruct H5 as (-> & sent & failed & -> & Hsent & Hfailed).
    exists (sent ++ [failed]), rest. cbn [Indexer.calls Indexer.cache Indexer.fs].
    split; [exact H1 |]. split; [exact H3 |]. split; [exact H4 |].
    split.
    { intros sent' b after Heq Hb.
      destruct after as [| a after] using rev_ind; [reflexivity |]. exfalso.
      clear IHafter.
      change (sent' ++ b :: after ++ [a]) with (sent' ++ (b :: after) ++ [a]) in Heq.
      rewrite app_assoc in Heq. apply app_inj_tail in Heq as [-> _].
      rewrite Forall_forall in Hsent.
      destruct (Hsent b) as [v Hv]; [apply elem_of_app; right; left | congruence]. }
    split.
    { split; [intros _ | reflexivity]. exists failed.
      split; [apply elem_of_app; right; left | exact Hfailed]. }
    split; [intros _; exact H2 |].
    split; [intros H; contradiction H; reflexivity |].
    repeat split; discriminate.
Qed.

(** Three texts in batches of one; the provider refuses the second. *)
Lemma upsert_embeds_in_batches_witness :
  let chunks := [Cases.text_chunk "one"; Cases.text_chunk "two"; Cases.text_chunk "three"] in
  let r := Indexer.upsertChunks Cases.second_fails chunks (Scenario.start ∅) in
  exists newBatches rest,
    Accounting.batches (Indexer.calls r.2)
    = Accounting.batches (Indexer.calls (Scenario.start ∅)) ++ newBatches /\
    concat newBatches ++ rest = map Chunker.Content chunks /\
    Forall (fun b => (0 < length b <= Indexer.batchSize Cases.second_fails)%nat)
           newBatches /\
    (forall sent b after,
        newBatches = sent ++ b :: after ->
        Indexer.embedBatch Cases.second_fails b = None -> after = []) /\
    (r.1 = Indexer.Fails Indexer.ErrEmbedBatch <->
     exists b, b ∈ newBatches /\ Indexer.embedBatch Cases.second_fails b = None) /\
    (r.1 = Indexer.Fails Indexer.ErrEmbedBatch ->
     Accounting.upserts (Indexer.calls r.2)
     = Accounting.upserts (Indexer.calls (Scenario.start ∅))) /\
    (r.1 <> Indexer.Fails Indexer.ErrEmbedBatch -> rest = []) /\
    r.1 <> Indexer.Diverges /\
    Indexer.cache r.2 = Indexer.cache (Scenario.start ∅) /\
    Indexer.fs r.2 = Indexer.fs (Scenario.start ∅).
Proof.
  apply (upsert_embeds_in_batches Cases.second_fails
           [Cases.text_chunk "one"; Cases.text_chunk "two"; Cases.text_chunk "three"]
           (Scenario.start ∅)).
  vm_compute. lia.
Defined.

(** X20. When the embedding provider answers every batch with as many
    vectors as it was given texts, [upsertChunks] on a non-empty list never
    indexes out of range: it makes one upsert request, of one point a chunk
    in the order of the chunks, each point under its chunk's id with its
    chunk's content and the vector of that content's position; it returns
    the outcome of that request. *)
Theorem upsert_points_follow_chunks (env : Indexer.Env) (chunks : list Chunker.Chunk)
    (st : Indexer.State) :
  (0 < Indexer.batchSize env)%nat ->
  (forall batch, exists vectors,
      Indexer.embedBatch env batch = Some vectors /\ length vectors = length batch) ->
  chunks <> [] ->
  let r := Indexer.upsertChunks env chunks st in
  exists points,
    Accounting.upserts (Indexer.calls r.2)
    = Accounting.upserts (Indexer.calls st) ++ [points] /\
    map VectorDB.ID points = map Chunker.ID chunks /\
    map (fun p => VectorDB.Content (VectorDB.Payload_ p)) points
    = map Chunker.Content chunks /\
    length points = length chunks /\
    r.1 = (if Indexer.vdbUpsert env points then Indexer.Returns tt
           else Indexer.Fails Indexer.ErrUpsert).
Proof.
  intros Hbs Hprov Hne. cbv zeta. unfold Indexer.upsertChunks.
  destruct chunks as [| c chunks']; [congruence |].
  set (chunks := c :: chunks').
  rewrite (zero_batch_size env Hbs).
  destruct (embedLoop_props env Hbs (length (map Chunker.Content chunks))
              (map Chunker.Content chunks) [] (Indexer.calls st) (Nat.le_refl _))
    as (nb & rest & H1 & H2 & H3 & H4 & H5).
  destruct (Indexer.embedLoop env _ _ _ _) as [[vs | e | |] calls] eqn:Hloop;
    cbn [fst snd] in *; try contradiction.
  - destruct H5 as (-> & answers & Ha & ->). cbn [app] in *. rewrite app_nil_r in H3.
    assert (length (concat answers) = length chunks) as Hlen.
    { rewrite <- (length_map Chunker.Content chunks), <- H3.
      apply (Forall2_concat_length (fun b v => Indexer.embedBatch env b = Some v)).
      eapply Forall2_impl; [exact Ha |]. intros b v Hbv. split; [exact Hbv |].
      destruct (Hprov b) as (v' & Hv' & Hl). congruence. }
    destruct (makePoints_props (Indexer.clock st) chunks (concat answers))
      as (points & Hp & Hid & Hcontent & _); [lia |].
    rewrite Hp. exists points.
    assert (Accounting.upserts (calls ++ [Indexer.VdbUpsert points])
            = Accounting.upserts calls ++ [points]) as Hu.
    { unfold Accounting.upserts. rewrite flat_map_app. reflexivity. }
    assert (length points = length chunks) as Hpl
      by (rewrite <- (length_map VectorDB.ID), Hid, length_map; reflexivity).
    destruct (Indexer.vdbUpsert env points); cbn [fst snd Indexer.calls];
      rewrite Hu, H2; repeat split; assumption.
  - exfalso. destruct H5 as (-> & _).
    (* the provider never fails *)
    clear - Hloop Hprov Hbs.
    assert (H : forall fuel texts all calls r,
               Indexer.embedLoop env fuel texts all calls = (Indexer.Fails Indexer.ErrEmbedBatch, r)
               -> False).
    { induction fuel as [| fuel IH]; intros texts all calls0 r; destruct texts as [| t ts];
        cbn [Indexer.embedLoop]; try discriminate.
      destruct (Hprov (take (Indexer.batchSize env) (t :: ts))) as (v & -> & _).
      apply IH. }
    eapply H, Hloop.
Qed.

(** The chunks of [b.md] with a provider that answers every batch in full. *)
Lemma upsert_points_follow_chunks_witness :
  let r := Indexer.upsertChunks Scenario.only_b Cases.b_chunks (Scenario.start ∅) in
  exists points,
    Accounting.upserts (Indexer.calls r.2)
    = Accounting.upserts (Indexer.calls (Scenario.start ∅)) ++ [points] /\
    map VectorDB.ID points = map Chunker.ID Cases.b_chunks /\
    map (fun p => VectorDB.Content (VectorDB.Payload_ p)) points
    = map Chunker.Content Cases.b_chunks /\
    length points = length Cases.b_chunks /\
    r.1 = (if Indexer.vdbUpsert Scenario.only_b points then Indexer.Returns tt
           else Indexer.Fails Indexer.ErrUpsert).
Proof.
  apply (upsert_points_follow_chunks Scenario.only_b Cases.b_chunks (Scenario.start ∅)).
  - vm_compute. lia.
  - intros batch. eexists. split; [reflexivity | apply length_map].
  - intros H. vm_compute in H. discriminate H.
Defined.

(** ** Processing the changed files *)

Lemma embedLoop_fails (env : Indexer.Env) :
  forall (fuel : nat) (texts : list string) (allVectors : list VectorDB.Vector)
         (calls calls' : list Indexer.Call) (e : Indexer.Error),
    Indexer.embedLoop env fuel texts allVectors calls = (Indexer.Fails e, calls') ->
    e = Indexer.ErrEmbedBatch.
Proof.
  induction fuel as [| fuel IH]; intros texts allVectors calls calls' e;
    destruct texts as [| t ts]; cbn [Indexer.embedLoop]; try discriminate.
  destruct (Indexer.embedBatch env _) as [vectors |].
  - apply IH.
  - intros [= <- _]. reflexivity.
Qed.

Lemma upsertChunks_props (env : Indexer.Env) (chunks : list Chunker.Chunk)
    (st : Indexer.State) :
  let r := Indexer.upsertChunks env chunks st in
  Indexer.cache r.2 = Indexer.cache st /\
  Indexer.fs r.2 = Indexer.fs st /\
  (forall e, r.1 = Indexer.Fails e -> Accounting.fileError e = false).
Proof.
  cbv zeta. unfold Indexer.upsertChunks.
  destruct chunks as [| c chunks']; [repeat split; discriminate |].
  destruct (Indexer.batchSize env =? 0)%nat; [repeat split; discriminate |].
  destruct (Indexer.embedLoop env _ _ _ _) as [[vs | e | |] calls] eqn:Hloop;
    cbn [fst snd Indexer.cache Indexer.fs]; try (repeat split; discriminate).
  - destruct (Indexer.makePoints _ _ _) as [points |];
      cbn [fst snd Indexer.cache Indexer.fs]; [| repeat split; discriminate].
    destruct (Indexer.vdbUpsert env points); cbn [fst snd Indexer.cache Indexer.fs];
      repeat split; try discriminate.
    intros e [= <-]. reflexivity.
  - apply embedLoop_fails in Hloop. subst e.
    repeat split. intros e [= <-]. reflexivity.
Qed.

Lemma collect_props :
  forall (results : list Indexer.fileResult) (result : Indexer.processResult)
         (allChunks : list Chunker.Chunk) (cache : Cache.Cache) (clock : Cache.Time),
    let r := Indexer.collect results result allChunks cache clock in
    (Indexer.filesIndexed r.1.1.1 + Accounting.fileErrors (Indexer.errors r.1.1.1)
     = Indexer.filesIndexed result + Accounting.fileErrors (Indexer.errors result)
       + length results)%nat /\
    (Indexer.chunksCreated r.1.1.1 + length allChunks
     = Indexer.chunksCreated result + length r.1.1.2)%nat /\
    (forall f, f ∉ map Indexer.fr_relPath results ->
               Cache.Get r.1.2 f = Cache.Get cache f) /\
    (NoDup (map Indexer.fr_relPath results) ->
     forall res, res ∈ results -> Indexer.fr_err res = false ->
                 exists e, Cache.Get r.1.2 (Indexer.fr_relPath res) = Some e /\
                           Cache.ContentHash e = Indexer.fr_hash res /\
                           Cache.ChunkIDs e = Indexer.fr_chunkIDs res).
Proof.
  induction results as [| res rest IH]; intros result allChunks cache clock; cbv zeta.
  - cbn [Indexer.collect fst snd length]. repeat split; try lia.
    intros _ res Hres. apply elem_of_nil in Hres. contradiction.
  - cbn [Indexer.collect]. destruct (Indexer.fr_err res) eqn:Herr.
    + match goal with
      | |- context [Indexer.collect rest ?r ?a ?c ?k] => specialize (IH r a c k)
      end.
      cbv zeta in IH. cbn [Indexer.filesIndexed Indexer.errors Indexer.chunksCreated] in IH.
      destruct IH as (H1 & H2 & H3 & H4).
      rewrite fileErrors_app in H1.
      change (Accounting.fileErrors [Indexer.ErrFile (Indexer.fr_relPath res)])
        with 1%nat in H1.
      split; [cbn [length]; lia |]. split; [exact H2 |]. split.
      * intros f Hf. apply H3. intros Hin. apply Hf. right. exact Hin.
      * intros Hnd r' [-> | Hin]%elem_of_cons Hok; [congruence |].
        apply NoDup_cons in Hnd as [_ Hnd]. apply H4; assumption.
    + match goal with
      | |- context [Indexer.collect rest ?r ?a ?c ?k] => specialize (IH r a c k)
      end.
      cbv zeta in IH. cbn [Indexer.filesIndexed Indexer.errors Indexer.chunksCreated] in IH.
      destruct IH as (H1 & H2 & H3 & H4).
      rewrite length_app in H2.
      split; [cbn [length]; lia |]. split; [lia |]. split.
      * intros f Hf. rewrite H3 by (intros Hin; apply Hf; right; exact Hin).
        unfold Cache.Get, Cache.Set_. cbn [Cache.entries]. apply lookup_insert_ne.
        intros <-. apply Hf. left.
      * intros Hnd r' Hr' Hok. cbn [map] in Hnd. apply NoDup_cons in Hnd as [Hnin Hnd].
        apply elem_of_cons in Hr' as [-> | Hin]; [| apply H4; assumption].
        rewrite H3 by exact Hnin.
        unfold Cache.Get, Cache.Set_. cbn [Cache.entries]. rewrite lookup_insert_eq.
        eexists. split; [reflexivity |]. split; reflexivity.
Qed.

Lemma NoDup_of_submseteq {A : Type} (l k : list A) : l ⊆+ k -> NoDup k -> NoDup l.
Proof.
  intros Hsub Hnd. apply submseteq_Permutation in Hsub as [k' Hk].
  rewrite Hk in Hnd. apply NoDup_app in Hnd as [H _]. exact H.
Qed.

Lemma fair_interruptible (env : Indexer.Env) : Indexer.fair env -> Indexer.interruptible env.
Proof.
  intros [Hrange Harr]. split; [exact Hrange |].
  intros l. apply Permutation_submseteq, Harr.
Qed.

Lemma processFiles_props (env : Indexer.Env) (projectID : string)
    (files : list Indexer.fileToProcess) (st : Indexer.State) :
  Indexer.interruptible env ->
  let r := Indexer.processFiles env projectID files st in
  Indexer.fs r.2 = Indexer.fs st /\
  (forall pr, r.1 = Indexer.Returns pr ->
              (Indexer.filesIndexed pr + Accounting.fileErrors (Indexer.errors pr)
               = length (Indexer.arrival env files))%nat) /\
  (NoDup (map Indexer.ftp_relPath files) ->
   forall f, f ∈ Indexer.arrival env files ->
             is_Some (Indexer.sources env !! Indexer.ftp_absPath f) ->
             exists e, Cache.Get (Indexer.cache r.2) (Indexer.ftp_relPath f) = Some e /\
                       Cache.ContentHash e = Indexer.contentHash f /\
                       Cache.ChunkIDs e
                       = map Chunker.ID (Indexer.fr_chunks (Indexer.work env projectID f))) /\
  (forall path, path ∉ map Indexer.ftp_relPath (Indexer.arrival env files) ->
                Cache.Get (Indexer.cache r.2) path = Cache.Get (Indexer.cache st) path).
Proof.
  intros [_ Harr]. cbv zeta. unfold Indexer.processFiles.
  destruct files as [| f0 files'].
  { pose proof (Harr []) as Hnil. apply submseteq_nil_r in Hnil.
    cbn [fst snd]. split; [reflexivity |].
    split; [intros pr [= <-]; rewrite Hnil; reflexivity |].
    split; [| reflexivity].
    intros _ f Hf. rewrite Hnil in Hf. apply elem_of_nil in Hf. contradiction. }
  set (files := f0 :: files') in *.
  pose proof (collect_props (map (Indexer.work env projectID) (Indexer.arrival env files))
                (Indexer.mkProcessResult 0 0 [] []) [] (Indexer.cache st) (Indexer.clock st))
    as Hc.
  cbv zeta in Hc.
  destruct (Indexer.collect _ _ _ _ _) as [[[result allChunks] cache] clock].
  cbn [fst snd Indexer.filesIndexed Indexer.errors] in Hc.
  destruct Hc as (H1 & _ & H3 & H4).
  rewrite length_map in H1.
  change (Accounting.fileErrors []) with 0%nat in H1.
  assert (Hrel : map Indexer.fr_relPath
                   (map (Indexer.work env projectID) (Indexer.arrival env files))
                 = map Indexer.ftp_relPath (Indexer.arrival env files)).
  { rewrite map_map. reflexivity. }
  rewrite Hrel in H3, H4.
  assert (Hcache : NoDup (map Indexer.ftp_relPath files) ->
                   forall f, f ∈ Indexer.arrival env files ->
                             is_Some (Indexer.sources env !! Indexer.ftp_absPath f) ->
                             exists e, Cache.Get cache (Indexer.ftp_relPath f) = Some e /\
                                       Cache.ContentHash e = Indexer.contentHash f /\
                                       Cache.ChunkIDs e
                                       = map Chunker.ID
                                           (Indexer.fr_chunks (Indexer.work env projectID f))).
  { intros Hnd f Hf [content Hsrc].
    destruct (H4) with (res := Indexer.work env projectID f) as (e & He & Hh & Hi).
    - eapply NoDup_of_submseteq; [| exact Hnd]. apply fmap_submseteq, Harr.
    - apply list_elem_of_fmap_2. exact Hf.
    - unfold Indexer.work, Indexer.processFile. cbn [Indexer.fr_err]. rewrite Hsrc.
      reflexivity.
    - exists e. split; [exact He |]. split; [exact Hh | exact Hi]. }
  destruct allChunks as [| c allChunks'].
  { cbn [fst snd Indexer.fs Indexer.cache]. split; [reflexivity |].
    split; [intros pr [= <-]; lia |]. split; [exact Hcache | exact H3]. }
  destruct (upsertChunks_props env (c :: allChunks')
              (Indexer.mkState cache (Indexer.fs st) clock (Indexer.calls st)))
    as (U1 & U2 & U3).
  destruct (Indexer.upsertChunks env (c :: allChunks') _) as [[[] | e | |] st'];
    cbn [fst snd Indexer.cache Indexer.fs] in *; rewrite U1, U2.
  - split; [reflexivity |]. split; [intros pr [= <-]; lia |].
    split; [exact Hcache | exact H3].
  - split; [reflexivity |]. split; [| split; [exact Hcache | exact H3]].
    intros pr [= <-]. cbn [Indexer.filesIndexed Indexer.errors].
    rewrite fileErrors_app. unfold Accounting.fileErrors at 2.
    rewrite filter_cons_False by (rewrite (U3 e eq_refl); exact id).
    cbn [filter length]. rewrite filter_nil. cbn [length]. lia.
  - split; [reflexivity |]. split; [discriminate |]. split; [exact Hcache | exact H3].
  - split; [reflexivity |]. split; [discriminate |]. split; [exact Hcache | exact H3].
Qed.

Lemma relPath_of_queued (files : list Indexer.fileToProcess) (f g : Indexer.fileToProcess) :
  NoDup (map Indexer.ftp_relPath files) ->
  f ∈ files -> g ∈ files -> Indexer.ftp_relPath f = Indexer.ftp_relPath g -> f = g.
Proof.
  induction files as [| h files IH]; intros Hnd Hf Hg Heq.
  - apply elem_of_nil in Hf. contradiction.
  - cbn [map] in Hnd. apply NoDup_cons in Hnd as [Hh Hnd].
    apply elem_of_cons in Hf as [-> | Hf]; apply elem_of_cons in Hg as [-> | Hg].
    + reflexivity.
    + exfalso. apply Hh. rewrite Heq. apply list_elem_of_fmap_2. exact Hg.
    + exfalso. apply Hh. rewrite <- Heq. apply list_elem_of_fmap_2. exact Hf.
    + apply IH; assumption.
Qed.

(** X21. [processFiles] records in the cache every queued file whose
    result arrived and which could be read, under the file's relative
    path, with the hash it was queued with and the ids of its chunks,
    whether or not the embedding and the upsert that follow succeed:
    afterwards the cache reports the file as unchanged.  Unless the
    context is cancelled, the result of every queued file arrives; a
    queued file whose result did not arrive, because the workers returned
    on the cancelled context, keeps the cache entry it had, if any. *)
Theorem read_files_are_cached_whatever_follows (env : Indexer.Env) (projectID : string)
    (files : list Indexer.fileToProcess) (st : Indexer.State) (f : Indexer.fileToProcess) :
  Indexer.interruptible env ->
  NoDup (map Indexer.ftp_relPath files) ->
  f ∈ files ->
  let r := Indexer.processFiles env projectID files st in
  (f ∈ Indexer.arrival env files ->
   is_Some (Indexer.sources env !! Indexer.ftp_absPath f) ->
   Cache.HasChanged (Indexer.cache r.2) (Indexer.ftp_relPath f) (Indexer.contentHash f)
     = false /\
   Cache.GetChunkIDs (Indexer.cache r.2) (Indexer.ftp_relPath f)
     = map Chunker.ID (Indexer.fr_chunks (Indexer.work env projectID f))) /\
  (f ∉ Indexer.arrival env files ->
   Cache.Get (Indexer.cache r.2) (Indexer.ftp_relPath f)
   = Cache.Get (Indexer.cache st) (Indexer.ftp_relPath f)) /\
  (Indexer.fair env -> f ∈ Indexer.arrival env files).
Proof.
  intros Hint Hnd Hf. cbv zeta.
  destruct (processFiles_props env projectID files st Hint) as (_ & _ & H & Hkeep).
  split; [| split].
  - intros Harrived Hsrc.
    destruct (H Hnd f Harrived Hsrc) as (e & He & Hh & Hi).
    unfold Cache.HasChanged, Cache.GetChunkIDs. rewrite He, Hh. split; [| exact Hi].
    apply negb_false_iff, String.eqb_refl.
  - intros Hmissing. apply Hkeep. intros Hin.
    apply list_elem_of_fmap in Hin as (g & Heq & Hg).
    apply Hmissing. destruct Hint as [_ Harr].
    assert (g ∈ files) as Hg' by (eapply elem_of_submseteq; [exact Hg | apply Harr]).
    rewrite (relPath_of_queued files f g Hnd Hf Hg' Heq). exact Hg.
  - intros [_ Harr]. rewrite (Harr files). exact Hf.
Qed.

(** [a.md] and [b.md] queued into an empty cache, the run cancelled after
    the first result: [a.md] is cached although the embedding then fails,
    [b.md] is not. *)
Lemma read_files_are_cached_whatever_follows_witness :
  let files := [Cases.queued_a; Cases.queued_b] in
  let r := Indexer.processFiles Cases.cancelled_ab "p" files (Scenario.start ∅) in
  ((Cases.queued_a ∈ Indexer.arrival Cases.cancelled_ab files ->
    is_Some (Indexer.sources Cases.cancelled_ab !! Indexer.ftp_absPath Cases.queued_a) ->
    Cache.HasChanged (Indexer.cache r.2) (Indexer.ftp_relPath Cases.queued_a)
      (Indexer.contentHash Cases.queued_a) = false /\
    Cache.GetChunkIDs (Indexer.cache r.2) (Indexer.ftp_relPath Cases.queued_a)
      = map Chunker.ID
          (Indexer.fr_chunks (Indexer.work Cases.cancelled_ab "p" Cases.queued_a))) /\
   (Cases.queued_a ∉ Indexer.arrival Cases.cancelled_ab files ->
    Cache.Get (Indexer.cache r.2) (Indexer.ftp_relPath Cases.queued_a)
    = Cache.Get (Indexer.cache (Scenario.start ∅)) (Indexer.ftp_relPath Cases.queued_a)) /\
   (Indexer.fair Cases.cancelled_ab ->
    Cases.queued_a ∈ Indexer.arrival Cases.cancelled_ab files)) /\
  Cache.Get (Indexer.cache r.2) "b.md" = None.
Proof.
  split; [| vm_compute; reflexivity].
  apply (read_files_are_cached_whatever_follows Cases.cancelled_ab "p"
           [Cases.queued_a; Cases.queued_b] (Scenario.start ∅) Cases.queued_a).
  - split; [intros; reflexivity | intros l; apply submseteq_take].
  - apply NoDup_cons. split; [| apply NoDup_singleton].
    intros H. apply list_elem_of_singleton in H. discriminate H.
  - left.
Defined.



(** ** The retrieval handler and its providers *)

(** X23. [handleRetrieve] answers 400, 500 or 200.  It answers 400 exactly
    when the body does not decode or [project_id] or [query] is empty, and
    exactly then it calls no provider.  Otherwise it embeds the query
    first: if the embedding fails it answers 500 and does not search; if
    it succeeds it makes one search with the embedding as the query vector
    and answers 500 if the search fails, and 200 with one result for every
    search result, in the order of the vector store, if it succeeds.  So
    it answers 200 exactly when both calls succeeded. *)
Theorem retrieve_validates_then_embeds_then_searches
    (prov : Api.Providers) (decoded : string + Api.RetrieveRequest) (elapsed : Z) :
  let r := Api.handleRetrieve prov decoded elapsed in
  (Api.status r.1 = 400 \/ Api.status r.1 = 500 \/ Api.status r.1 = 200) /\
  (Api.status r.1 = 400 <-> r.2 = []) /\
  (Api.status r.1 = 400 <->
   match decoded with
   | inl _ => True
   | inr req => Api.req_ProjectID req = EmptyString \/ Api.req_Query req = EmptyString
   end) /\
  (forall req, decoded = inr req ->
     Api.req_ProjectID req <> EmptyString -> Api.req_Query req <> EmptyString ->
     match Api.Embed prov (Api.req_Query req) with
     | None =>
         r.2 = [Api.CallEmbed (Api.req_Query req)] /\ Api.status r.1 = 500
     | Some vector =>
         exists query,
           VectorDB.q_Vector query = vector /\
           r.2 = [Api.CallEmbed (Api.req_Query req); Api.CallSearch query] /\
           match Api.Search prov query with
           | None => Api.status r.1 = 500
           | Some results =>
               r.1 = Api.mkResponse 200 (Api.Retrieved (map Api.toResult results) elapsed)
           end
     end) /\
  (Api.status r.1 = 200 <->
   exists req vector query results,
     decoded = inr req /\
     Api.Embed prov (Api.req_Query req) = Some vector /\
     r.2 = [Api.CallEmbed (Api.req_Query req); Api.CallSearch query] /\
     Api.Search prov query = Some results).
Proof.
  cbv zeta. unfold Api.handleRetrieve.
  destruct decoded as [err | req].
  { cbn. split; [left; reflexivity |]. split; [tauto |]. split; [tauto |].
    split; [intros req [=] |].
    split; [discriminate | intros (req & ? & ? & ? & [=] & _)]. }
  destruct (String.eqb (Api.req_ProjectID req) EmptyString) eqn:Ep.
  { apply String.eqb_eq in Ep. cbn.
    split; [left; reflexivity |]. split; [tauto |]. split; [tauto |].
    split; [intros req' [= <-] Hp; contradiction |].
    split; [discriminate | intros (? & ? & ? & ? & _ & _ & [=] & _)]. }
  destruct (String.eqb (Api.req_Query req) EmptyString) eqn:Eq.
  { apply String.eqb_eq in Eq. cbn.
    split; [left; reflexivity |]. split; [tauto |]. split; [tauto |].
    split; [intros req' [= <-] _ Hq; contradiction |].
    split; [discriminate | intros (? & ? & ? & ? & _ & _ & [=] & _)]. }
  apply String.eqb_neq in Ep, Eq.
  destruct (Api.Embed prov (Api.req_Query req)) as [vector |] eqn:Hemb.
  - set (query := VectorDB.mkSearchQuery vector _ _).
    destruct (Api.Search prov query) as [results |] eqn:Hsearch; cbn [fst snd Api.status
      Api.writeError Api.body].
    + split; [right; right; reflexivity |].
      split; [split; discriminate |].
      split; [split; [discriminate | intros [? | ?]; contradiction] |].
      split.
      * intros req' [= <-] _ _. rewrite Hemb. exists query.
        split; [reflexivity |]. split; [reflexivity |]. rewrite Hsearch. reflexivity.
      * split; [intros _ | reflexivity]. exists req, vector, query, results.
        repeat split; assumption.
    + split; [right; left; reflexivity |].
      split; [split; discriminate |].
      split; [split; [discriminate | intros [? | ?]; contradiction] |].
      split.
      * intros req' [= <-] _ _. rewrite Hemb. exists query.
        split; [reflexivity |]. split; [reflexivity |]. rewrite Hsearch. reflexivity.
      * split; [discriminate |].
        intros (req' & vector' & query' & results' & [= <-] & _ & [= <-] & Hs).
        rewrite Hsearch in Hs. discriminate.
  - cbn [fst snd Api.status Api.writeError Api.body].
    split; [right; left; reflexivity |].
    split; [split; discriminate |].
    split; [split; [discriminate | intros [? | ?]; contradiction] |].
    split.
    + intros req' [= <-] _ _. rewrite Hemb. split; reflexivity.
    + split; [discriminate |].
      intros (req' & vector' & query' & results' & [= <-] & He & _). congruence.
Qed.

Lemma condition_props (key value : string) (must : list Qdrant.qdrantCondition) :
  Qdrant.condition key value must
  = must ++ (if String.eqb value EmptyString then [] else [Qdrant.mkCondition key value]).
Proof.
  unfold Qdrant.condition. destruct (String.eqb value EmptyString); cbn [negb];
    [rewrite app_nil_r |]; reflexivity.
Qed.

(** X24. The search request carries one [must] condition for every
    non-empty field of the filter, in the order project, module, language,
    symbol type, and no filter at all when every field is empty.  Every
    search that [handleRetrieve] issues is therefore restricted to the
    requested project, asks for between 1 and 20 results and for their
    payloads.  [DeleteByFilter] sends a condition on the project id only
    when that id is not empty. *)
Theorem search_is_scoped_to_the_project
    (prov : Api.Providers) (req : Api.RetrieveRequest) (elapsed : Z)
    (filter : VectorDB.Filter) (vector : VectorDB.Vector) (topK : Z) :
  Forall (fun call =>
            match call with
            | Api.CallSearch query =>
                exists rest,
                  Qdrant.sr_Filter (Qdrant.searchRequest query)
                  = Some (Qdrant.mkCondition "project_id" (Api.req_ProjectID req) :: rest) /\
                  Api.req_ProjectID req <> EmptyString /\
                  Forall (fun c => Qdrant.Key c <> "project_id" /\
                                   Qdrant.Value c <> EmptyString) rest /\
                  1 <= Qdrant.Limit (Qdrant.searchRequest query) <= 20 /\
                  Qdrant.WithPayload (Qdrant.searchRequest query) = true
            | Api.CallEmbed _ => True
            end)
         (Api.handleRetrieve prov (inr req) elapsed).2 /\
  (Qdrant.sr_Filter (Qdrant.searchRequest (VectorDB.mkSearchQuery vector topK filter)) = None
   <-> filter = VectorDB.mkFilter EmptyString EmptyString EmptyString EmptyString) /\
  (forall must,
      Qdrant.sr_Filter (Qdrant.searchRequest (VectorDB.mkSearchQuery vector topK filter))
      = Some must ->
      must
      = (if String.eqb (VectorDB.f_ProjectID filter) EmptyString then []
         else [Qdrant.mkCondition "project_id" (VectorDB.f_ProjectID filter)]) ++
        (if String.eqb (VectorDB.f_Module filter) EmptyString then []
         else [Qdrant.mkCondition "module" (VectorDB.f_Module filter)]) ++
        (if String.eqb (VectorDB.f_Language filter) EmptyString then []
         else [Qdrant.mkCondition "language" (VectorDB.f_Language filter)]) ++
        (if String.eqb (VectorDB.f_SymbolType filter) EmptyString then []
         else [Qdrant.mkCondition "symbol_type" (VectorDB.f_SymbolType filter)])) /\
  (Qdrant.deleteFilter filter = [] <-> VectorDB.f_ProjectID filter = EmptyString).
Proof.
  split; [| split; [| split]].
  - unfold Api.handleRetrieve.
    destruct (String.eqb (Api.req_ProjectID req) EmptyString) eqn:Ep; [constructor |].
    destruct (String.eqb (Api.req_Query req) EmptyString); [constructor |].
    destruct (Api.Embed prov (Api.req_Query req)) as [v |];
      [| constructor; [exact I | constructor]].
    set (query := VectorDB.mkSearchQuery v _ _).
    assert (exists rest,
               Qdrant.sr_Filter (Qdrant.searchRequest query)
               = Some (Qdrant.mkCondition "project_id" (Api.req_ProjectID req) :: rest) /\
               Api.req_ProjectID req <> EmptyString /\
               Forall (fun c => Qdrant.Key c <> "project_id" /\
                                Qdrant.Value c <> EmptyString) rest /\
               1 <= Qdrant.Limit (Qdrant.searchRequest query) <= 20 /\
               Qdrant.WithPayload (Qdrant.searchRequest query) = true) as Hq.
    { subst query. unfold Qdrant.searchRequest.
      cbn [VectorDB.q_Filter VectorDB.q_Vector VectorDB.TopK Qdrant.sr_Filter Qdrant.Limit
           Qdrant.WithPayload].
      assert (VectorDB.f_ProjectID
                match Api.req_Filters req with
                | Some f => VectorDB.mkFilter (Api.req_ProjectID req) (Api.rf_Module f)
                              (Api.rf_Language f) (Api.rf_SymbolType f)
                | None => VectorDB.mkFilter (Api.req_ProjectID req) EmptyString EmptyString
                            EmptyString
                end = Api.req_ProjectID req) as Hpid
        by (destruct (Api.req_Filters req); reflexivity).
      rewrite Hpid, Ep. cbn [negb orb]. rewrite !condition_props, Ep. cbn [app].
      eexists. split; [reflexivity |]. split; [apply String.eqb_neq, Ep |].
      split; [| split; [apply clampTopK_range | reflexivity]].
      repeat (apply Forall_app; split);
        match goal with
        | |- Forall _ (if String.eqb ?s EmptyString then _ else _) =>
            destruct (String.eqb s EmptyString) eqn:E; [constructor |];
            constructor; [| constructor]; cbn [Qdrant.Key Qdrant.Value];
            split; [discriminate | apply String.eqb_neq, E]
        end. }
    destruct (Api.Search prov query); cbn [snd];
      (constructor; [exact I | constructor; [exact Hq | constructor]]).
  - unfold Qdrant.searchRequest.
    cbn [VectorDB.q_Filter Qdrant.sr_Filter]. destruct filter as [p m l s].
    cbn [VectorDB.f_ProjectID VectorDB.f_Module VectorDB.f_Language VectorDB.f_SymbolType].
    destruct (String.eqb_spec p EmptyString), (String.eqb_spec m EmptyString),
      (String.eqb_spec l EmptyString), (String.eqb_spec s EmptyString);
      cbn [negb orb]; split; try discriminate; try congruence.
  - intros must. unfold Qdrant.searchRequest.
    cbn [VectorDB.q_Filter Qdrant.sr_Filter]. rewrite !condition_props. cbn [app].
    destruct (_ || _); [| discriminate]. intros [= <-].
    rewrite <- !app_assoc. reflexivity.
  - unfold Qdrant.deleteFilter. rewrite condition_props. cbn [app].
    destruct (String.eqb_spec (VectorDB.f_ProjectID filter) EmptyString);
      split; try discriminate; try congruence; reflexivity.
Qed.

(** The health endpoint answers 200 with status [healthy] exactly
    when both providers are healthy, and 503 with status [degraded]
    otherwise; the body names both components, each [ok] or with its error
    text. *)
Theorem health_is_ok_iff_both_providers_are (embedder vectordb : option string)
    (version : string) :
  let r := Health.handleHealth embedder vectordb version in
  (r.1 = 200 <-> embedder = None /\ vectordb = None) /\
  (r.1 = 200 \/ r.1 = 503) /\
  (r.1 = 200 <-> Health.Status r.2 = "healthy") /\
  (r.1 = 503 <-> Health.Status r.2 = "degraded") /\
  dom (Health.Components r.2) = ({[ "embedder"; "vectordb" ]} : gset string) /\
  Health.Components r.2 !! "embedder"
    = Some (match embedder with Some err => "error: " +:+ err | None => "ok" end) /\
  Health.Components r.2 !! "vectordb"
    = Some (match vectordb with Some err => "error: " +:+ err | None => "ok" end) /\
  Health.Version r.2 = version.
Proof.
  cbv zeta. unfold Health.handleHealth.
  destruct embedder as [e |], vectordb as [v |];
    cbn [fst snd Health.Status Health.Components Health.Version String.eqb negb];
    (split; [split; [discriminate || (intros _; split; reflexivity)
                    | intros [? ?]; (discriminate || reflexivity)] |]);
    (split; [(left; reflexivity) || (right; reflexivity) |]);
    (split; [split; (discriminate || reflexivity || (intros _; reflexivity)) |]);
    (split; [split; (discriminate || reflexivity || (intros _; reflexivity)) |]);
    (split; [rewrite !dom_insert_L, dom_empty_L; set_solver |]);
    (split; [rewrite lookup_insert_ne by discriminate; apply lookup_insert_eq |]);
    (split; [apply lookup_insert_eq | reflexivity]).
Qed.

(** ** The embedding providers *)

Lemma ollamaEmbed_nonempty (post : string -> Embedder.Reply Embedder.Vector)
    (t : string) (v : Embedder.Vector) :
  Embedder.ollamaEmbed post t = inr v -> v <> [].
Proof.
  unfold Embedder.ollamaEmbed. intros Htv.
  destruct (post t) as [| status [embedding |]]; try discriminate;
    destruct (negb (status =? 200)); try discriminate.
  destruct (length embedding =? 0)%nat eqn:E; [discriminate |].
  injection Htv as <-. intros ->. discriminate E.
Qed.

Lemma ollamaLoop_props (cancelled : nat -> bool)
    (post : string -> Embedder.Reply Embedder.Vector) :
  forall (texts : list string) (i : nat) (results : list Embedder.Vector)
         (posted : list string),
    let r := Embedder.ollamaLoop cancelled post texts i results posted in
    exists sent rest new,
      texts = sent ++ rest /\
      Forall2 (fun t v => Embedder.ollamaEmbed post t = inr v) sent new /\
      (forall k, (k < length sent)%nat -> cancelled (i + k)%nat = false) /\
      match rest with
      | [] => r = (inr (results ++ new), posted ++ sent)
      | t :: _ =>
          if cancelled (i + length sent)%nat
          then r = (inl Embedder.ErrContext, posted ++ sent)
          else exists err,
                 Embedder.ollamaEmbed post t = inl err /\
                 r = (inl (Embedder.ErrText (i + length sent) err), posted ++ sent ++ [t])
      end.
Proof.
  induction texts as [| t rest IH]; intros i results posted; cbv zeta.
  - exists [], [], []. cbn [Embedder.ollamaLoop app length]. rewrite !app_nil_r.
    split; [reflexivity |]. split; [constructor |].
    split; [intros k Hk; lia | reflexivity].
  - cbn [Embedder.ollamaLoop].
    destruct (cancelled i) eqn:Hc.
    + exists [], (t :: rest), []. cbn [app length]. rewrite Nat.add_0_r, Hc, app_nil_r.
      split; [reflexivity |]. split; [constructor |].
      split; [intros k Hk; lia | reflexivity].
    + destruct (Embedder.ollamaEmbed post t) as [err | embedding] eqn:Ht.
      * exists [], (t :: rest), []. cbn [app length]. rewrite Nat.add_0_r, Hc.
        split; [reflexivity |]. split; [constructor |].
        split; [intros k Hk; lia |]. exists err. split; [exact Ht | reflexivity].
      * specialize (IH (S i) (results ++ [embedding]) (posted ++ [t])). cbv zeta in IH.
        destruct IH as (sent & rest' & new & -> & Hnew & Hnc & Hr).
        exists (t :: sent), rest', (embedding :: new). cbn [app length].
        split; [reflexivity |]. split; [constructor; assumption |].
        split.
        { intros [| k] Hk; [rewrite Nat.add_0_r; exact Hc |].
          replace (i + S k)%nat with (S i + k)%nat by lia. apply Hnc. lia. }
        replace (i + S (length sent))%nat with (S i + length sent)%nat by lia.
        destruct rest' as [| t0 rest'].
        { rewrite Hr, <- !app_assoc. reflexivity. }
        destruct (cancelled (S i + length sent)%nat).
        { rewrite Hr, <- !app_assoc. reflexivity. }
        destruct Hr as (err & He & ->). exists err. split; [exact He |].
        rewrite <- !app_assoc. reflexivity.
Qed.

(** X25. The Ollama provider embeds a batch one text at a time, in order,
    and looks at the context before each text.  It returns one vector for
    every text, each the non-empty embedding of its text, when the context
    is not cancelled and every text embeds.  Otherwise it stops at the
    first text at which the context is cancelled or the embedding fails:
    on a cancelled context it returns the context's error without posting
    that text; on a failed embedding it reports that text's index; in both
    cases it posts nothing after it. *)
Theorem ollama_batch_is_sequential (cancelled : nat -> bool)
    (post : string -> Embedder.Reply Embedder.Vector) (texts : list string) :
  let r := Embedder.ollamaEmbedBatch cancelled post texts in
  match r.1 with
  | inr vectors =>
      r.2 = texts /\ length vectors = length texts /\
      Forall2 (fun t v => Embedder.ollamaEmbed post t = inr v) texts vectors /\
      Forall (fun v => v <> []) vectors /\
      (forall k, (k < length texts)%nat -> cancelled k = false)
  | inl e =>
      exists done t rest,
        texts = done ++ t :: rest /\
        Forall (fun t => exists v, Embedder.ollamaEmbed post t = inr v) done /\
        (forall k, (k < length done)%nat -> cancelled k = false) /\
        if cancelled (length done)
        then e = Embedder.ErrContext /\ r.2 = done
        else exists err,
               Embedder.ollamaEmbed post t = inl err /\
               e = Embedder.ErrText (length done) err /\
               r.2 = done ++ [t]
  end.
Proof.
  cbv zeta. unfold Embedder.ollamaEmbedBatch.
  destruct (ollamaLoop_props cancelled post texts 0 [] [])
    as (sent & rest & new & -> & Hnew & Hnc & Hr).
  cbv zeta in Hr. cbn [Nat.add app] in *.
  destruct rest as [| t rest].
  - rewrite Hr. cbn [fst snd]. rewrite app_nil_r.
    split; [reflexivity |]. split; [symmetry; eapply Forall2_length, Hnew |].
    split; [exact Hnew |]. split; [| exact Hnc].
    clear - Hnew. induction Hnew as [| t v ts vs Htv _ IH]; constructor; [| exact IH].
    eapply ollamaEmbed_nonempty, Htv.
  - assert (Forall (fun t => exists v, Embedder.ollamaEmbed post t = inr v) sent) as Hdone.
    { clear - Hnew. induction Hnew as [| t0 v ts vs Htv _ IH]; constructor; eauto. }
    destruct (cancelled (length sent)) eqn:Hc.
    + rewrite Hr. cbn [fst snd]. exists sent, t, rest. rewrite Hc.
      split; [reflexivity |]. split; [exact Hdone |]. split; [exact Hnc |].
      split; reflexivity.
    + destruct Hr as (err & Herr & ->). cbn [fst snd]. exists sent, t, rest. rewrite Hc.
      split; [reflexivity |]. split; [exact Hdone |]. split; [exact Hnc |].
      exists err. split; [exact Herr |]. split; reflexivity.
Qed.

Lemma placeAll_props :
  forall (data : list (Z * Embedder.Vector)) (init : list Embedder.Vector),
    Forall (fun d => 0 <= d.1 < Z.of_nat (length init)) data ->
    NoDup (map fst data) ->
    exists vectors,
      Embedder.placeAll data init = Some vectors /\
      length vectors = length init /\
      forall i, vectors !! i
                = match list_find (fun d => d.1 = Z.of_nat i) data with
                  | Some (_, d) => Some d.2
                  | None => init !! i
                  end.
Proof.
  induction data as [| d rest IH]; intros init Hin Hnd.
  - exists init. repeat split; reflexivity.
  - apply Forall_cons in Hin as [Hd Hrest]. cbn [map] in Hnd.
    apply NoDup_cons in Hnd as [Hnin Hnd].
    cbn [Embedder.placeAll]. unfold Embedder.place.
    destruct (Z.ltb_spec d.1 (Z.of_nat (length init))); [| lia].
    destruct (Z.ltb_spec d.1 0); [lia |].
    destruct (IH (<[Z.to_nat d.1 := d.2]> init)) as (vectors & Hv & Hl & Hi).
    { rewrite length_insert. exact Hrest. }
    { exact Hnd. }
    exists vectors. split; [exact Hv |]. rewrite length_insert in Hl. split; [exact Hl |].
    intros i. rewrite Hi. cbn [list_find].
    destruct (decide (d.1 = Z.of_nat i)) as [Heq | Hne].
    + destruct (list_find (fun d0 => d0.1 = Z.of_nat i) rest) as [[k d'] |] eqn:Hf.
      * apply list_find_Some in Hf as (Hk & Hd' & _). exfalso. apply Hnin.
        apply list_elem_of_fmap. exists d'. split; [congruence |].
        eapply list_elem_of_lookup_2, Hk.
      * replace (Z.to_nat d.1) with i by lia. apply list_lookup_insert_eq. lia.
    + destruct (list_find (fun d0 => d0.1 = Z.of_nat i) rest) as [[k d'] |];
        cbn [fmap option_fmap option_map prod_map]; [reflexivity |].
      apply list_lookup_insert_ne. lia.
Qed.

(** X26. The OpenAI provider returns as many vectors as texts whenever it
    returns; and when the response holds one embedding for every text, in
    whatever order, it returns them in the order of the texts. *)
Theorem openai_batch_restores_order
    (post : list string -> Embedder.Reply Embedder.openAIEmbedResponse)
    (texts : list string) (data : list (Z * Embedder.Vector))
    (vectors : list Embedder.Vector) :
  post texts = Embedder.Response 200 (Some (Embedder.mkOpenAIEmbedResponse data None)) ->
  data ≡ₚ imap (fun i v => (Z.of_nat i, v)) vectors ->
  length vectors = length texts ->
  texts <> [] ->
  Embedder.openAIEmbedBatch post texts = Embedder.Returns vectors /\
  forall post' vectors',
    Embedder.openAIEmbedBatch post' texts = Embedder.Returns vectors' ->
    length vectors' = length texts.
Proof.
  intros Hpost Hperm Hlen Hne. split.
  - unfold Embedder.openAIEmbedBatch. rewrite Hpost.
    cbn [Z.eqb Pos.eqb negb Embedder.Error_ Embedder.Data].
    assert (length data = length vectors) as Hdl
      by (rewrite Hperm, length_imap; reflexivity).
    destruct (length data =? 0)%nat eqn:E.
    { apply Nat.eqb_eq in E. destruct texts; [congruence | cbn in Hlen; lia]. }
    assert (Hkeys : map fst (imap (fun i v => (Z.of_nat i, v)) vectors)
                    = map Z.of_nat (seq 0 (length vectors))).
    { clear.
      assert (H : forall (vs : list Embedder.Vector) (f : nat -> nat),
                 map fst (imap (fun i v => (Z.of_nat (f i), v)) vs)
                 = map (fun i => Z.of_nat (f i)) (seq 0 (length vs))).
      { induction vs as [| v vs IH]; intros f; [reflexivity |].
        cbn [imap map length seq fst]. f_equal.
        rewrite <- seq_shift, map_map. apply (IH (f ∘ S)). }
      apply (H vectors id). }
    destruct (placeAll_props data (replicate (length texts) [])) as (vs & Hvs & Hl & Hi).
    { rewrite length_replicate. apply Forall_forall. intros d Hd.
      rewrite Hperm in Hd. apply (list_elem_of_fmap_2 fst) in Hd.
      change (d.1 ∈ map fst (imap (fun i v => (Z.of_nat i, v)) vectors)) in Hd.
      rewrite Hkeys in Hd. apply list_elem_of_fmap in Hd as (i & -> & Hi).
      apply elem_of_seq in Hi. lia. }
    { assert (map fst data ≡ₚ map Z.of_nat (seq 0 (length vectors))) as ->
        by (rewrite <- Hkeys; apply Permutation_map, Hperm).
      apply NoDup_fmap; [intros ? ? ?; lia | apply NoDup_seq]. }
    rewrite Hvs. f_equal. apply list_eq. intros i. rewrite Hi.
    rewrite length_replicate in Hl.
    destruct (list_find (fun d => d.1 = Z.of_nat i) data) as [[k d] |] eqn:Hf.
    + apply list_find_Some in Hf as (Hk & Hd & _).
      apply list_elem_of_lookup_2 in Hk. rewrite Hperm in Hk.
      apply list_elem_of_lookup in Hk as (j & Hj).
      rewrite list_lookup_imap in Hj.
      destruct (vectors !! j) as [v |] eqn:Hvj; [| discriminate].
      cbn in Hj. injection Hj as <-. cbn [fst snd] in *.
      assert (i = j) as -> by lia. symmetry. exact Hvj.
    + destruct (vectors !! i) as [v |] eqn:Hvi.
      * exfalso. apply list_find_None in Hf. rewrite Forall_forall in Hf.
        apply (Hf (Z.of_nat i, v)); [| reflexivity].
        rewrite Hperm. apply list_elem_of_lookup. exists i.
        rewrite list_lookup_imap, Hvi. reflexivity.
      * apply lookup_replicate_None. apply lookup_ge_None in Hvi. lia.
  - intros post' vectors'. unfold Embedder.openAIEmbedBatch.
    destruct (post' texts) as [| status [[data' [message |]] |]]; try discriminate;
      destruct (negb (status =? 200)); try discriminate.
    cbn [Embedder.Error_ Embedder.Data].
    destruct (length data' =? 0)%nat; [discriminate |].
    destruct (Embedder.placeAll data' (replicate (length texts) [])) as [vs |] eqn:Hp;
      [| discriminate].
    intros [= <-].
    assert (H : forall (data : list (Z * Embedder.Vector)) (init vs : list Embedder.Vector),
               Embedder.placeAll data init = Some vs -> length vs = length init).
    { clear. induction data as [| d rest IH]; intros init vs; cbn [Embedder.placeAll].
      - intros [= <-]. reflexivity.
      - unfold Embedder.place. destruct (d.1 <? Z.of_nat (length init)).
        + destruct (d.1 <? 0); [discriminate |]. intros H. apply IH in H.
          rewrite length_insert in H. exact H.
        + apply IH. }
    apply H in Hp. rewrite length_replicate in Hp. exact Hp.
Qed.

(** A reply that lists the embedding of the second text first. *)
Lemma openai_batch_restores_order_witness :
  Embedder.openAIEmbedBatch Cases.post_shuffled ["a"; "b"] = Embedder.Returns [[1]; [2]] /\
  forall post' vectors',
    Embedder.openAIEmbedBatch post' ["a"; "b"] = Embedder.Returns vectors' ->
    length vectors' = length ["a"; "b"].
Proof.
  apply (openai_batch_restores_order Cases.post_shuffled ["a"; "b"] Cases.shuffled
           [[1]; [2]]).
  - reflexivity.
  - apply perm_swap.
  - reflexivity.
  - discriminate.
Defined.

(** ** Configuration *)

Lemma orString_nonempty (field value : string) :
  value <> EmptyString -> Config.orString field value <> EmptyString.
Proof.
  unfold Config.orString. intros Hv.
  destruct (String.eqb_spec field EmptyString); assumption.
Qed.

Lemma orString_idem (field value : string) :
  value <> EmptyString ->
  Config.orString (Config.orString field value) value = Config.orString field value.
Proof.
  intros Hv. unfold Config.orString.
  destruct (String.eqb_spec field EmptyString) as [-> | Hf].
  - destruct (String.eqb_spec value EmptyString); [contradiction | reflexivity].
  - destruct (String.eqb_spec field EmptyString); [contradiction | reflexivity].
Qed.

Lemma orInt_idem (field value : Z) :
  value <> 0 -> Config.orInt (Config.orInt field value) value = Config.orInt field value.
Proof.
  intros Hv. unfold Config.orInt.
  destruct (Z.eqb_spec field 0) as [-> | Hf].
  - destruct (Z.eqb_spec value 0); [contradiction | reflexivity].
  - destruct (Z.eqb_spec field 0); [contradiction | reflexivity].
Qed.

(** X27. A project configuration that loads has a non-empty project id
    of lowercase letters, digits and hyphens only, a source path, at least
    one include extension, a display name (the project id when none was
    given), a code strategy among function, file and fixed, a Markdown
    strategy among heading, paragraph and fixed, and at least one exclude
    path; applying the defaults to it again changes nothing. *)
Theorem loaded_project_config_is_complete (cfg cfg' : Config.ProjectConfig) :
  Config.LoadProjectConfig cfg = inr cfg' ->
  cfg' = Config.applyProjectDefaults cfg /\
  Config.ProjectID cfg' = Config.ProjectID cfg /\
  Config.ProjectID cfg' <> EmptyString /\
  Forall (fun c => Config.idChar c = true)
         (String.list_ascii_of_string (Config.ProjectID cfg')) /\
  Config.SourcePath cfg' <> EmptyString /\
  Config.IncludeExtensions cfg' <> [] /\
  Config.DisplayName cfg' <> EmptyString /\
  Config.ExcludePaths cfg' <> [] /\
  Config.CodeStrategy (Config.Chunking cfg') ∈ ["function"; "file"; "fixed"] /\
  Config.MarkdownStrategy (Config.Chunking cfg') ∈ ["heading"; "paragraph"; "fixed"] /\
  Config.applyProjectDefaults cfg' = cfg'.
Proof.
  unfold Config.LoadProjectConfig, Config.Validate.
  set (d := Config.applyProjectDefaults cfg).
  destruct (String.eqb_spec (Config.ProjectID d) EmptyString) as [| Hid]; [discriminate |].
  destruct (forallb Config.idChar (String.list_ascii_of_string (Config.ProjectID d)))
    eqn:Hchars; [| discriminate].
  destruct (String.eqb_spec (Config.SourcePath d) EmptyString) as [| Hsrc]; [discriminate |].
  destruct (length (Config.IncludeExtensions d) =? 0)%nat eqn:Hext; [discriminate |].
  destruct (Config.validCodeStrategy (Config.CodeStrategy (Config.Chunking d))) eqn:Hcode;
    [| discriminate].
  destruct (Config.validMarkdownStrategy (Config.MarkdownStrategy (Config.Chunking d)))
    eqn:Hmd; [| discriminate].
  cbn [negb]. intros [= <-].
  split; [reflexivity |]. split; [reflexivity |]. split; [exact Hid |].
  split; [apply Forall_forall; intros c Hc; rewrite forallb_forall in Hchars;
          apply Hchars, list_elem_of_In, Hc |].
  split; [exact Hsrc |].
  split; [intros H; rewrite H in Hext; discriminate |].
  assert (Config.CodeStrategy (Config.Chunking d) <> EmptyString) as Hc0.
  { subst d. cbn. destruct (String.eqb_spec (Config.CodeStrategy (Config.Chunking cfg))
                              EmptyString); [discriminate | assumption]. }
  assert (Config.MarkdownStrategy (Config.Chunking d) <> EmptyString) as Hm0.
  { subst d. cbn. destruct (String.eqb_spec (Config.MarkdownStrategy (Config.Chunking cfg))
                              EmptyString); [discriminate | assumption]. }
  assert (Config.DisplayName d <> EmptyString) as Hdn.
  { subst d. cbn [Config.applyProjectDefaults Config.DisplayName Config.ProjectID] in *.
    destruct (String.eqb_spec (Config.DisplayName cfg) EmptyString); assumption. }
  assert (Config.ExcludePaths d <> []) as Hex.
  { subst d. cbn [Config.applyProjectDefaults Config.ExcludePaths].
    destruct (Config.ExcludePaths cfg); [discriminate | discriminate]. }
  split; [exact Hdn |]. split; [exact Hex |].
  split.
  { unfold Config.validCodeStrategy in Hcode.
    destruct (String.eqb_spec (Config.CodeStrategy (Config.Chunking d)) "function") as [-> |];
      [set_solver |].
    destruct (String.eqb_spec (Config.CodeStrategy (Config.Chunking d)) "file") as [-> |];
      [set_solver |].
    destruct (String.eqb_spec (Config.CodeStrategy (Config.Chunking d)) "fixed") as [-> |];
      [set_solver |].
    destruct (String.eqb_spec (Config.CodeStrategy (Config.Chunking d)) EmptyString);
      [contradiction | discriminate]. }
  split.
  { unfold Config.validMarkdownStrategy in Hmd.
    destruct (String.eqb_spec (Config.MarkdownStrategy (Config.Chunking d)) "heading")
      as [-> |]; [set_solver |].
    destruct (String.eqb_spec (Config.MarkdownStrategy (Config.Chunking d)) "paragraph")
      as [-> |]; [set_solver |].
    destruct (String.eqb_spec (Config.MarkdownStrategy (Config.Chunking d)) "fixed")
      as [-> |]; [set_solver |].
    destruct (String.eqb_spec (Config.MarkdownStrategy (Config.Chunking d)) EmptyString);
      [contradiction | discriminate]. }
  unfold Config.applyProjectDefaults at 1.
  destruct (String.eqb_spec (Config.DisplayName d) EmptyString); [contradiction |].
  destruct (String.eqb_spec (Config.CodeStrategy (Config.Chunking d)) EmptyString);
    [contradiction |].
  destruct (String.eqb_spec (Config.MarkdownStrategy (Config.Chunking d)) EmptyString);
    [contradiction |].
  destruct (Config.ExcludePaths d) eqn:Hx; [contradiction |].
  cbn [length Nat.eqb]. rewrite <- Hx.
  destruct d as [pa pb pc pe pf [pg ph pi pj pk] pl]. reflexivity.
Qed.

(** A project file with the three required fields only. *)
Lemma loaded_project_config_is_complete_witness :
  let cfg' := Config.applyProjectDefaults Cases.project in
  cfg' = Config.applyProjectDefaults Cases.project /\
  Config.ProjectID cfg' = Config.ProjectID Cases.project /\
  Config.ProjectID cfg' <> EmptyString /\
  Forall (fun c => Config.idChar c = true)
         (String.list_ascii_of_string (Config.ProjectID cfg')) /\
  Config.SourcePath cfg' <> EmptyString /\
  Config.IncludeExtensions cfg' <> [] /\
  Config.DisplayName cfg' <> EmptyString /\
  Config.ExcludePaths cfg' <> [] /\
  Config.CodeStrategy (Config.Chunking cfg') ∈ ["function"; "file"; "fixed"] /\
  Config.MarkdownStrategy (Config.Chunking cfg') ∈ ["heading"; "paragraph"; "fixed"] /\
  Config.applyProjectDefaults cfg' = cfg'.
Proof.
  apply (loaded_project_config_is_complete Cases.project
           (Config.applyProjectDefaults Cases.project)).
  reflexivity.
Defined.

(** X28. A project that configures no exclude paths excludes every path
    that lies in a [.git], [vendor] or [node_modules] directory at any
    depth, whatever the glob matcher says. *)
Theorem default_excludes_cover_dependency_directories
    (Match : Config.Matcher) (cfg : Config.ProjectConfig) (path dir : string) :
  Config.ExcludePaths cfg = [] ->
  dir ∈ [".git/"; "vendor/"; "node_modules/"] ->
  Strings.Contains path dir = true ->
  Config.ShouldExcludePath Match (Config.applyProjectDefaults cfg) path = true.
Proof.
  intros Hnone Hdir Hin. unfold Config.ShouldExcludePath.
  cbn [Config.applyProjectDefaults Config.ExcludePaths]. rewrite Hnone. cbn [length Nat.eqb].
  apply existsb_exists. exists dir. split; [apply list_elem_of_In, Hdir |].
  unfold Config.excludedBy. rewrite Hin.
  assert (Strings.HasSuffix dir "/" = true) as ->.
  { repeat (apply elem_of_cons in Hdir as [-> | Hdir]; [vm_compute; reflexivity |]).
    apply elem_of_nil in Hdir. contradiction. }
  rewrite !orb_true_r. reflexivity.
Qed.

(** A file under [lib/vendor] of a project without exclude paths. *)
Lemma default_excludes_cover_dependency_directories_witness :
  Config.ShouldExcludePath Cases.no_match (Config.applyProjectDefaults Cases.project)
    "lib/vendor/x.go" = true.
Proof.
  apply (default_excludes_cover_dependency_directories Cases.no_match Cases.project
           "lib/vendor/x.go" "vendor/").
  - reflexivity.
  - right. left.
  - vm_compute. reflexivity.
Defined.

(** X29. A configuration that loads names a supported embedding provider
    and a supported vector store, has positive dimensions, a batch size
    other than zero, a minimum below the maximum token count, a port
    between 1 and 65535, and no empty endpoint, model, collection, path,
    time-out or logging field; applying the defaults to it again changes
    nothing. *)
Theorem loaded_config_is_complete (cfg cfg' : Config.Config) :
  Config.ManagerLoad cfg = inr cfg' ->
  cfg' = Config.applyDefaults cfg /\
  Config.e_Provider (Config.Embedding cfg') ∈ ["ollama"; "openai"; "huggingface"] /\
  Config.v_Provider (Config.VectorDB cfg') ∈ ["qdrant"; "milvus"; "weaviate"] /\
  0 < Config.Dimensions (Config.Embedding cfg') /\
  Config.BatchSize (Config.Embedding cfg') <> 0 /\
  Chunker.MinTokens (Config.g_Chunking cfg') < Chunker.MaxTokens (Config.g_Chunking cfg') /\
  1 <= Config.Port (Config.Server cfg') <= 65535 /\
  Forall (fun s => s <> EmptyString)
    [ Config.e_Model (Config.Embedding cfg'); Config.e_Endpoint (Config.Embedding cfg');
      Config.e_Timeout (Config.Embedding cfg'); Config.v_Endpoint (Config.VectorDB cfg');
      Config.CollectionName (Config.VectorDB cfg'); Config.v_Timeout (Config.VectorDB cfg');
      Config.ConfigDir (Config.Projects cfg'); Config.SourceBasePath (Config.Projects cfg');
      Config.Dir (Config.Cache cfg'); Config.c_Format (Config.Cache cfg');
      Config.ReadTimeout (Config.Server cfg'); Config.WriteTimeout (Config.Server cfg');
      Config.ShutdownTimeout (Config.Server cfg'); Config.Level (Config.Logging cfg');
      Config.l_Format (Config.Logging cfg') ] /\
  Config.applyDefaults cfg' = cfg'.
Proof.
  unfold Config.ManagerLoad, Config.validate.
  set (d := Config.applyDefaults cfg).
  destruct (Config.validEmbeddingProvider (Config.e_Provider (Config.Embedding d)))
    eqn:Hep; [| discriminate].
  destruct (Z.leb_spec (Config.Dimensions (Config.Embedding d)) 0); [discriminate |].
  destruct (Config.validVectorDBProvider (Config.v_Provider (Config.VectorDB d)))
    eqn:Hvp; [| discriminate].
  destruct (Z.leb_spec (Chunker.MaxTokens (Config.g_Chunking d))
              (Chunker.MinTokens (Config.g_Chunking d))); [discriminate |].
  destruct (Z.ltb_spec (Config.Port (Config.Server d)) 1); [discriminate |].
  destruct (Z.ltb_spec 65535 (Config.Port (Config.Server d))); [discriminate |].
  cbn [negb orb]. intros [= <-].
  split; [reflexivity |].
  split.
  { unfold Config.validEmbeddingProvider in Hep.
    destruct (String.eqb_spec (Config.e_Provider (Config.Embedding d)) "ollama") as [-> |];
      [set_solver |].
    destruct (String.eqb_spec (Config.e_Provider (Config.Embedding d)) "openai") as [-> |];
      [set_solver |].
    destruct (String.eqb_spec (Config.e_Provider (Config.Embedding d)) "huggingface")
      as [-> |]; [set_solver | discriminate]. }
  split.
  { unfold Config.validVectorDBProvider in Hvp.
    destruct (String.eqb_spec (Config.v_Provider (Config.VectorDB d)) "qdrant") as [-> |];
      [set_solver |].
    destruct (String.eqb_spec (Config.v_Provider (Config.VectorDB d)) "milvus") as [-> |];
      [set_solver |].
    destruct (String.eqb_spec (Config.v_Provider (Config.VectorDB d)) "weaviate")
      as [-> |]; [set_solver | discriminate]. }
  split; [assumption |].
  split.
  { subst d. cbn. unfold Config.orInt.
    destruct (Z.eqb_spec (Config.BatchSize (Config.Embedding cfg)) 0); [discriminate |].
    assumption. }
  split; [assumption |]. split; [lia |].
  split.
  { subst d. cbn [Config.applyDefaults Config.Embedding Config.VectorDB Config.Projects
                  Config.Cache Config.Server Config.Logging Config.e_Model
                  Config.e_Endpoint Config.e_Timeout Config.v_Endpoint Config.CollectionName
                  Config.v_Timeout Config.ConfigDir Config.SourceBasePath Config.Dir
                  Config.c_Format Config.ReadTimeout Config.WriteTimeout
                  Config.ShutdownTimeout Config.Level Config.l_Format].
    repeat (constructor; [apply orString_nonempty; discriminate |]). constructor. }
  subst d. unfold Config.applyDefaults at 1.
  cbn [Config.applyDefaults Config.Embedding Config.VectorDB Config.Projects
       Config.g_Chunking Config.Cache Config.Server Config.Logging Config.e_Provider
       Config.e_Model Config.e_Endpoint Config.Dimensions Config.BatchSize Config.e_Timeout
       Config.APIKeyEnv Config.v_Provider Config.v_Endpoint Config.CollectionName
       Config.v_Timeout Config.ConfigDir Config.SourceBasePath Config.Dir Config.c_Format
       Config.Port Config.ReadTimeout Config.WriteTimeout Config.ShutdownTimeout Config.Level
       Config.l_Format Chunker.MinTokens Chunker.IdealTokens Chunker.MaxTokens
       Chunker.MergeSmallChunks].
  rewrite !orString_idem by discriminate. rewrite !orInt_idem by discriminate.
  reflexivity.
Qed.

(** A configuration file that sets nothing loads as the defaults. *)
Lemma loaded_config_is_complete_witness :
  let cfg' := Config.applyDefaults Cases.empty_config in
  cfg' = Config.applyDefaults Cases.empty_config /\
  Config.e_Provider (Config.Embedding cfg') ∈ ["ollama"; "openai"; "huggingface"] /\
  Config.v_Provider (Config.VectorDB cfg') ∈ ["qdrant"; "milvus"; "weaviate"] /\
  0 < Config.Dimensions (Config.Embedding cfg') /\
  Config.BatchSize (Config.Embedding cfg') <> 0 /\
  Chunker.MinTokens (Config.g_Chunking cfg') < Chunker.MaxTokens (Config.g_Chunking cfg') /\
  1 <= Config.Port (Config.Server cfg') <= 65535 /\
  Forall (fun s => s <> EmptyString)
    [ Config.e_Model (Config.Embedding cfg'); Config.e_Endpoint (Config.Embedding cfg');
      Config.e_Timeout (Config.Embedding cfg'); Config.v_Endpoint (Config.VectorDB cfg');
      Config.CollectionName (Config.VectorDB cfg'); Config.v_Timeout (Config.VectorDB cfg');
      Config.ConfigDir (Config.Projects cfg'); Config.SourceBasePath (Config.Projects cfg');
      Config.Dir (Config.Cache cfg'); Config.c_Format (Config.Cache cfg');
      Config.ReadTimeout (Config.Server cfg'); Config.WriteTimeout (Config.Server cfg');
      Config.ShutdownTimeout (Config.Server cfg'); Config.Level (Config.Logging cfg');
      Config.l_Format (Config.Logging cfg') ] /\
  Config.applyDefaults cfg' = cfg'.
Proof.
  apply (loaded_config_is_complete Cases.empty_config
           (Config.applyDefaults Cases.empty_config)).
  reflexivity.
Defined.

(** ** Choosing a chunker *)

Lemma lookup_ext_go (ext : string) :
  Factory.lookup_ext Factory.languages ext = Some "go" <-> ext = ".go".
Proof.
  unfold Factory.languages. cbn [Factory.lookup_ext].
  repeat match goal with
         | |- context [String.eqb ?a ext] =>
             destruct (String.eqb_spec a ext) as [<- | ?];
             [split; [(discriminate || reflexivity) | (discriminate || reflexivity)] |]
         end.
  split; [discriminate | congruence].
Qed.

Lemma lookup_ext_markdown (ext : string) :
  Factory.lookup_ext Factory.languages ext = Some "markdown" <->
  ext = ".md" \/ ext = ".markdown".
Proof.
  unfold Factory.languages. cbn [Factory.lookup_ext].
  repeat match goal with
         | |- context [String.eqb ?a ext] =>
             destruct (String.eqb_spec a ext) as [<- | ?];
             [split; [(discriminate || (intros _; (left; reflexivity) || (right; reflexivity)))
                     | (intros [H | H]; (discriminate H || reflexivity))] |]
         end.
  split; [discriminate | intros [H | H]; congruence].
Qed.

(** X30. The chunker chosen for a path agrees with the language detected
    for it (the Go chunker exactly for Go files, the Markdown chunker
    exactly for Markdown files, the generic chunker for everything else),
    and with the chunking strategy of a project that overrides none: the
    chunker of that strategy is the chunker of the path. *)
Theorem chunker_agrees_with_language_and_strategy (path : string)
    (p : Config.ProjectConfig) :
  (Factory.GetChunker path = Factory.goChunker <-> Factory.DetectLanguage path = "go") /\
  (Factory.GetChunker path = Factory.markdownChunker <->
   Factory.DetectLanguage path = "markdown") /\
  (Config.CodeStrategy (Config.Chunking p) = EmptyString ->
   Config.MarkdownStrategy (Config.Chunking p) = EmptyString ->
   Strategy.GetChunkerByStrategy (Config.GetChunkingStrategy p path)
   = Factory.GetChunker path /\
   Strategy.GetChunkerByStrategy
     (Config.GetChunkingStrategy (Config.applyProjectDefaults p) path)
   = Factory.GetChunker path).
Proof.
  unfold Factory.GetChunker, Factory.DetectLanguage, Config.GetChunkingStrategy.
  set (ext := Strings.ToLower (Strings.Ext path)).
  split; [| split].
  - destruct (String.eqb_spec ext ".go") as [Hext | Hext].
    + split; [intros _ | reflexivity]. apply lookup_ext_go in Hext. rewrite Hext. reflexivity.
    + split.
      * destruct (_ || _); discriminate.
      * intros H. destruct (Factory.lookup_ext Factory.languages ext) as [lang |] eqn:E;
          [| discriminate]. subst lang. apply lookup_ext_go in E. contradiction.
  - destruct (String.eqb_spec ext ".go") as [Hext | Hext].
    + split; [discriminate |]. apply lookup_ext_go in Hext. rewrite Hext. discriminate.
    + destruct (String.eqb_spec ext ".md") as [Hm | Hm];
        [| destruct (String.eqb_spec ext ".markdown") as [Hm2 | Hm2]]; cbn [orb].
      * split; [intros _ | reflexivity].
        assert (Factory.lookup_ext Factory.languages ext = Some "markdown") as ->
          by (apply lookup_ext_markdown; left; exact Hm). reflexivity.
      * split; [intros _ | reflexivity].
        assert (Factory.lookup_ext Factory.languages ext = Some "markdown") as ->
          by (apply lookup_ext_markdown; right; exact Hm2). reflexivity.
      * split; [discriminate |].
        intros H. destruct (Factory.lookup_ext Factory.languages ext) as [lang |] eqn:E;
          [| discriminate]. subst lang. apply lookup_ext_markdown in E. destruct E; contradiction.
  - intros Hc Hm. cbn [Config.applyProjectDefaults Config.Chunking Config.CodeStrategy
                       Config.MarkdownStrategy]. rewrite Hc, Hm.
    cbn [String.eqb negb].
    destruct (String.eqb ext ".go"); [split; reflexivity |].
    destruct (String.eqb ext ".md" || String.eqb ext ".markdown"); split; reflexivity.
Qed.

